(** * Gold tracker: Ichimoku indicator, signal evaluation and alert ledger

    A shallow embedding of the tracker script ([getIchimokuAt],
    [checkAlertHistory], [run]) together with the properties its
    specification states about it.

    - JavaScript numbers are IEEE 754 binary64 values.  They are modelled
      by the Standard Library's executable specification of binary
      floating point ([spec_float] with [prec = 53], [emax = 1024]), so
      NaN, the infinities, signed zeros, rounding and overflow are those
      of the script.
    - Arrays are lists, [Array.prototype.slice] is written out with its
      treatment of negative and out-of-range bounds.
    - The alert history (a JSON object on disk used as a map from keys to
      truthy flags) is a [gmap string bool]; the order of [Object.keys] is
      not modelled, only its content.
    - File writes and e-mail sends are recorded, in program order, in a
      trace of events threaded through a small state-and-error monad. *)

From Stdlib Require Import ZArith Lia Bool List String Ascii.
From Stdlib Require Import Floats.SpecFloat.
From stdpp Require Import base option list strings gmap.

Open Scope Z_scope.

(* ===================================================================== *)
(** ** Numbers *)
(* ===================================================================== *)

Module Num.

Definition prec : Z := 53.
Definition emax : Z := 1024.

Definition number : Type := spec_float.

Definition ofZ (z : Z) : number := binary_normalize prec emax z 0 false.

Definition NaN : number := S754_nan.
Definition Infinity : number := S754_infinity false.
Definition negInfinity : number := S754_infinity true.

(** [a + b] and [a / b]. *)
Definition add (a b : number) : number := SFadd prec emax a b.
Definition div (a b : number) : number := SFdiv prec emax a b.

(** [a < b] and [a > b]; both are false as soon as one side is NaN. *)
Definition lt (a b : number) : bool := SFltb a b.
Definition gt (a b : number) : bool := SFltb b a.

(** [a == b] on numbers: NaN differs from itself, [+0 == -0]. *)
Definition eqb (a b : number) : bool := SFeqb a b.

Definition isNaN (a : number) : bool :=
  match a with S754_nan => true | _ => false end.

(** Neither NaN nor an infinity. *)
Definition isFinite (a : number) : bool :=
  match a with
  | S754_zero _ | S754_finite _ _ _ => true
  | _ => false
  end.

(** ToBoolean on a number: [+0], [-0] and NaN are falsy. *)
Definition truthy (a : number) : bool :=
  match a with
  | S754_zero _ | S754_nan => false
  | _ => true
  end.

(** [Math.max(a, b)]: NaN if either argument is NaN, [+0] above [-0]. *)
Definition Math_max (a b : number) : number :=
  match a, b with
  | S754_nan, _ | _, S754_nan => S754_nan
  | S754_zero sa, S754_zero sb => S754_zero (sa && sb)
  | _, _ => if lt a b then b else a
  end.

(** [Math.min(a, b)]: NaN if either argument is NaN, [-0] below [+0]. *)
Definition Math_min (a b : number) : number :=
  match a, b with
  | S754_nan, _ | _, S754_nan => S754_nan
  | S754_zero sa, S754_zero sb => S754_zero (sa || sb)
  | _, _ => if lt b a then b else a
  end.

End Num.

Abbreviation number := Num.number.

(* ===================================================================== *)
(** ** Arrays and strings *)
(* ===================================================================== *)

(** [arr.slice(start, end)]: a negative bound counts from the end, and
    both bounds are clamped to the array. *)
Definition relIndex (len k : Z) : Z :=
  if k <? 0 then Z.max (len + k) 0 else Z.min k len.

Definition slice {A : Type} (arr : list A) (start end_ : Z) : list A :=
  let len := Z.of_nat (length arr) in
  let k := relIndex len start in
  let final := relIndex len end_ in
  take (Z.to_nat (final - k)) (drop (Z.to_nat k) arr).

(** [arr.slice(start)]: the end defaults to the length. *)
Definition sliceFrom {A : Type} (arr : list A) (start : Z) : list A :=
  slice arr start (Z.of_nat (length arr)).

(** [arr[i]]: [None] stands for [undefined]. *)
Definition at_index {A : Type} (arr : list A) (i : Z) : option A :=
  if i <? 0 then None else arr !! Z.to_nat i.

Module Str.

(** [s.split(sep)] for a one-character separator. *)
Fixpoint split (sep : ascii) (s : string) : list string :=
  match s with
  | EmptyString => [EmptyString]
  | String c s' =>
      if Ascii.eqb c sep then EmptyString :: split sep s'
      else match split sep s' with
           | [] => [String c EmptyString]
           | p :: ps => String c p :: ps
           end
  end.

(** [parts.join(sep)]. *)
Fixpoint join (sep : string) (parts : list string) : string :=
  match parts with
  | [] => EmptyString
  | [p] => p
  | p :: ps => p ++ sep ++ join sep ps
  end.

(** [s.split(sep)[0]]. *)
Definition firstPart (sep : ascii) (s : string) : string :=
  match split sep s with
  | [] => EmptyString
  | p :: _ => p
  end.

End Str.

Definition dash : ascii := "-"%char.
Definition charT : ascii := "T"%char.

(** [iso.split('T')[0]]: the calendar day of an ISO timestamp. *)
Definition dayOf (iso : string) : string := Str.firstPart charT iso.

(* ===================================================================== *)
(** ** Bars and the Ichimoku calculator *)
(* ===================================================================== *)

(** A [Date] object: only [toISOString] is ever called on it, which throws
    on an invalid date. *)
Inductive JsDate :=
| ValidDate (iso : string)
| InvalidDate.

Record Bar := {
  date : JsDate;
  open : number;
  high : number;
  low : number;
  close : number
}.

Record HL := { hl_h : number; hl_l : number }.

Record Ichimoku := {
  tenkan : number;
  kijun : number;
  spanA : number;
  spanB : number
}.

(** The inner [getHL]: running maximum of the highs and minimum of the
    lows, starting from [-Infinity] and [Infinity]. *)
Definition getHL_step (acc : HL) (d : Bar) : HL :=
  {| hl_h := if Num.gt (high d) (hl_h acc) then high d else hl_h acc;
     hl_l := if Num.lt (low d) (hl_l acc) then low d else hl_l acc |}.

Definition getHL (sl : list Bar) : HL :=
  fold_left getHL_step sl {| hl_h := Num.negInfinity; hl_l := Num.Infinity |}.

Definition two : number := Num.ofZ 2.

(** [(hl.h + hl.l) / 2]. *)
Definition mid (hl : HL) : number := Num.div (Num.add (hl_h hl) (hl_l hl)) two.

Definition getIchimokuAt (data : list Bar) (index : Z) : option Ichimoku :=
  if index <? 52 + 25 then None
  else
    let tenkanHL := getHL (slice data (index - 8) (index + 1)) in
    let tenkan := mid tenkanHL in
    let kijunHL := getHL (slice data (index - 25) (index + 1)) in
    let kijun := mid kijunHL in
    let t26 := getHL (slice data (index - 25 - 9) (index - 25 + 1)) in
    let k26 := getHL (slice data (index - 25 - 26) (index - 25 + 1)) in
    let spanA := Num.div (Num.add (mid t26) (mid k26)) two in
    let b52 := getHL (slice data (index - 25 - 52) (index - 25 + 1)) in
    let spanB := mid b52 in
    Some {| tenkan := tenkan; kijun := kijun; spanA := spanA; spanB := spanB |}.

(* ===================================================================== *)
(** ** Signal evaluation *)
(* ===================================================================== *)

(** The signal chosen in [run]: ["BUY"], ["SELL"] or the empty string. *)
Definition evalSignal (price : number) (ich : Ichimoku) : string :=
  if Num.gt (tenkan ich) (kijun ich)
     && Num.gt price (Num.Math_max (spanA ich) (spanB ich))
  then "BUY"
  else if Num.lt (tenkan ich) (kijun ich)
          && Num.lt price (Num.Math_min (spanA ich) (spanB ich))
  then "SELL"
  else "".

(** ToBoolean on a string: only the empty string is falsy. *)
Definition nonEmpty (s : string) : bool :=
  match s with EmptyString => false | _ => true end.

(** [signal || 'NEUTRAL'], the signal as published. *)
Definition signalOrNeutral (signal : string) : string :=
  if nonEmpty signal then signal else "NEUTRAL".

(* ===================================================================== *)
(** ** Files, events and the effect monad *)
(* ===================================================================== *)

Record SignalEvent := { se_type : string; se_date : string }.

Record IchimokuView := {
  v_tenkan : number;
  v_kijun : number;
  senkouA : number;
  senkouB : number
}.

(** One entry of the published [history]; [None] is [null]. *)
Record HistoryEntry := {
  e_date : string;
  e_open : number;
  e_high : number;
  e_low : number;
  e_close : number;
  e_price : number;
  e_tenkan : option number;
  e_kijun : option number;
  e_spanA : option number;
  e_spanB : option number
}.

Record WebsiteData := {
  w_ticker : string;
  w_price : number;
  w_date : string;
  w_signal : string;
  signalHistory : list SignalEvent;
  ichimoku : IchimokuView;
  history : list HistoryEntry
}.

(** The two files of the tracker: [CONFIG.historyPath], holding the parsed
    alert history when it exists (each key with the truthiness of the value
    stored under it), and [CONFIG.websiteDataPath]. *)
Record Files := {
  historyFile : option (gmap string bool);
  websiteFile : option WebsiteData
}.

(** What a run does to the outside world, in program order. *)
Inductive Event :=
| WriteHistory (h : gmap string bool)
| SendEmail (subject body : string)
| WriteWebsite (d : WebsiteData).

Inductive Result (A : Type) :=
| Ok (a : A)
| Throw (msg : string).
Arguments Ok {A} a.
Arguments Throw {A} msg.

(** A computation reads and writes the files, appends to the trace and
    either returns or throws. *)
Definition M (A : Type) : Type := Files → Result A * Files * list Event.

Definition ret {A : Type} (a : A) : M A := λ fs, (Ok a, fs, []).

Definition throw {A : Type} (msg : string) : M A := λ fs, (Throw msg, fs, []).

Definition bind {A B : Type} (m : M A) (k : A → M B) : M B :=
  λ fs,
    match m fs with
    | (Ok a, fs1, tr1) =>
        match k a fs1 with
        | (r, fs2, tr2) => (r, fs2, tr1 ++ tr2)
        end
    | (Throw msg, fs1, tr1) => (Throw msg, fs1, tr1)
    end.

Notation "'let*' x ':=' m 'in' k" := (bind m (λ x, k))
  (at level 10, x name, m at level 100, k at level 200).
Notation "m ';;;' k" := (bind m (λ _, k))
  (at level 100, k at level 200, right associativity).

(** [fs.existsSync(CONFIG.historyPath)]. *)
Definition existsHistory : M bool :=
  λ fs,
    (Ok match historyFile fs with Some _ => true | None => false end, fs, []).

(** [JSON.parse(fs.readFileSync(CONFIG.historyPath, 'utf8'))]. *)
Definition readHistory : M (gmap string bool) :=
  λ fs,
    match historyFile fs with
    | Some h => (Ok h, fs, [])
    | None => (Throw "ENOENT: no such file or directory", fs, [])
    end.

(** [fs.writeFileSync(CONFIG.historyPath, JSON.stringify(h))]. *)
Definition writeHistory (h : gmap string bool) : M unit :=
  λ fs,
    (Ok (), {| historyFile := Some h; websiteFile := websiteFile fs |},
     [WriteHistory h]).

(** [fs.writeFileSync(CONFIG.websiteDataPath, JSON.stringify(d, null, 2))]. *)
Definition writeWebsite (d : WebsiteData) : M unit :=
  λ fs,
    (Ok (), {| historyFile := historyFile fs; websiteFile := Some d |},
     [WriteWebsite d]).

(** A call of [sendEmail(subject, body)].  Delivery itself (one attempt per
    recipient, skipped without SMTP credentials, failures logged) never
    throws and touches no file, so the call is recorded as one event. *)
Definition sendEmail (subject body : string) : M unit :=
  λ fs, (Ok (), fs, [SendEmail subject body]).

(** [d.toISOString()]. *)
Definition toISOString (d : JsDate) : M string :=
  match d with
  | ValidDate iso => ret iso
  | InvalidDate => throw "RangeError: Invalid time value"
  end.

(** [arr.map((x, i) => f(x, i))] for a callback that may throw; [i] is the
    index of the first element. *)
Fixpoint mapM_index {A B : Type} (f : A → Z → M B) (arr : list A) (i : Z)
  : M (list B) :=
  match arr with
  | [] => ret []
  | x :: arr' =>
      let* y := f x i in
      let* ys := mapM_index f arr' (i + 1) in
      ret (y :: ys)
  end.

(* ===================================================================== *)
(** ** The alert history *)
(* ===================================================================== *)

(** The key [`${signal}-${date.split('T')[0]}`]. *)
Definition historyKey (signal date : string) : string :=
  signal ++ "-" ++ dayOf date.

(** [history[key]] as a condition: a missing key is [undefined]. *)
Definition truthyAt (history : gmap string bool) (key : string) : bool :=
  match history !! key with
  | Some b => b
  | None => false
  end.

Definition checkAlertHistory (signal date : string) : M bool :=
  let* ex := existsHistory in
  (if negb ex then writeHistory ∅ else ret ());;;
  let* history := readHistory in
  let key := historyKey signal date in
  if truthyAt history key then ret true
  else
    writeHistory (<[key := true]> history);;;
    ret false.

(** The callback of [Object.keys(historyData).map]: split at the dashes,
    the first part is the type and the others, joined again, the date. *)
Definition parseKey (key : string) : SignalEvent :=
  let parts := Str.split dash key in
  {| se_type := match parts with [] => "" | p :: _ => p end;
     se_date := Str.join "-" (slice parts 1 (Z.of_nat (length parts))) |}.

(** The events of all keys.  The history is a finite map, so the list comes
    in the order of the map's keys, where [Object.keys] gives the order of
    insertion: the properties below speak of membership and counts only. *)
Definition signalsArray (historyData : gmap string bool) : list SignalEvent :=
  parseKey <$> (map_to_list historyData).*1.

(* ===================================================================== *)
(** ** The run *)
(* ===================================================================== *)

Section Tracker.

(** [CONFIG.ticker], and [x.toFixed(2)], whose digits play no role. *)
Variable ticker : string.
Variable toFixed2 : number → string.

(** The bars kept by [fetchHistoricalData]: rows with a NaN price are
    dropped.  [None] is a response that is not ok. *)
Definition validRow (d : Bar) : bool :=
  negb (Num.isNaN (open d)) && negb (Num.isNaN (high d))
  && negb (Num.isNaN (low d)) && negb (Num.isNaN (close d)).

Definition fetchHistoricalData (response : option (list Bar)) : M (list Bar) :=
  match response with
  | None => throw "Stooq fetch failed"
  | Some rows => ret (filter (λ d, validRow d = true) rows)
  end.

(** [indicators?.field || null]. *)
Definition orNull (v : option number) : option number :=
  match v with
  | Some x => if Num.truthy x then Some x else None
  | None => None
  end.

(** The callback of [data.slice(-40).map]. *)
Definition displayEntry (data : list Bar) (d : Bar) (i : Z) : M HistoryEntry :=
  let absIdx := Z.of_nat (length data) - 40 + i in
  let indicators := getIchimokuAt data absIdx in
  let* iso := toISOString (date d) in
  ret {| e_date := dayOf iso;
         e_open := open d;
         e_high := high d;
         e_low := low d;
         e_close := close d;
         e_price := close d;
         e_tenkan := orNull (tenkan <$> indicators);
         e_kijun := orNull (kijun <$> indicators);
         e_spanA := orNull (spanA <$> indicators);
         e_spanB := orNull (spanB <$> indicators) |}.

Definition alertSubject (signal : string) : string :=
  (signal ++ " Signal Alert: " ++ ticker)%string.

Definition newline : string := String (ascii_of_nat 10) EmptyString.

Definition alertBody (signal : string) (price : number) : string :=
  ("Ichimoku " ++ signal ++ " signal detected for " ++ ticker ++ "."
   ++ newline ++ newline ++ "Price: $" ++ toFixed2 price)%string.

(** The alert step of [run]: a non-empty signal is checked against the
    history, and an e-mail goes out when the check reports it as new. *)
Definition alertStep (signal date : string) (price : number) : M unit :=
  if nonEmpty signal then
    let* fired := checkAlertHistory signal date in
    if negb fired then
      sendEmail (alertSubject signal) (alertBody signal price)
    else ret ()
  else ret ().

(** The publishing step of [run]: the signal history read back from the
    history file, the last 40 bars with their indicators, and the write
    of the website data. ([fs.mkdirSync] of the target directory is not
    modelled.) *)
Definition publishStep (data : list Bar) (price : number) (date signal : string)
    (latestIchimoku : Ichimoku) : M unit :=
  let* ex := existsHistory in
  let* historyData := (if ex then readHistory else ret ∅) in
  let signalsArray := signalsArray historyData in
  let* displayHistory :=
    mapM_index (displayEntry data) (sliceFrom data (-40)) 0 in
  let websiteData :=
    {| w_ticker := ticker;
       w_price := price;
       w_date := date;
       w_signal := signalOrNeutral signal;
       signalHistory := signalsArray;
       ichimoku :=
         {| v_tenkan := tenkan latestIchimoku;
            v_kijun := kijun latestIchimoku;
            senkouA := spanA latestIchimoku;
            senkouB := spanB latestIchimoku |};
       history := displayHistory |} in
  writeWebsite websiteData.

(** The body of the [try] block of [run]. *)
Definition runBody (response : option (list Bar)) : M unit :=
  let* data := fetchHistoricalData response in
  if Z.of_nat (length data) <? 80 then ret ()
  else
    let latestIdx := Z.of_nat (length data) - 1 in
    let latestIchimoku := getIchimokuAt data latestIdx in
    match at_index data latestIdx with
    | None => throw "TypeError: Cannot read properties of undefined"
    | Some latest =>
        let price := close latest in
        let* date := toISOString (date latest) in
        match latestIchimoku with
        | None => throw "Failed to calculate indicators"
        | Some latestIchimoku =>
            let signal := evalSignal price latestIchimoku in
            alertStep signal date price;;;
            publishStep data price date signal latestIchimoku
        end
    end.

(** How the process ends: [run] returns, or the [catch] block calls
    [process.exit(1)]. *)
Inductive Outcome :=
| Returned
| Exited (code : Z).

Definition run (response : option (list Bar)) (fs : Files)
  : Outcome * Files * list Event :=
  match runBody response fs with
  | (Ok _, fs', tr) => (Returned, fs', tr)
  | (Throw _, fs', tr) => (Exited 1, fs', tr)
  end.

End Tracker.

(* ===================================================================== *)
(** ** Observations on runs *)
(* ===================================================================== *)

Definition isEmail (e : Event) : bool :=
  match e with SendEmail _ _ => true | _ => false end.

(** The e-mails of a trace, in order. *)
Definition emails (tr : list Event) : list Event :=
  List.filter isEmail tr.

(** The files after the writes of a trace have been carried out. *)
Definition replayEvent (fs : Files) (e : Event) : Files :=
  match e with
  | WriteHistory h => {| historyFile := Some h; websiteFile := websiteFile fs |}
  | SendEmail _ _ => fs
  | WriteWebsite d => {| historyFile := historyFile fs; websiteFile := Some d |}
  end.

Definition replay (tr : list Event) (fs : Files) : Files :=
  fold_left replayEvent tr fs.

(** The alert history as the script reads it: a missing file is the empty
    object. *)
Definition ledger (fs : Files) : gmap string bool :=
  default ∅ (historyFile fs).

(** Has an alert for this signal and day been recorded? *)
Definition hasFired (fs : Files) (signal day : string) : bool :=
  truthyAt (ledger fs) (signal ++ "-" ++ day)%string.

(** The write that creates a missing history file. *)
Definition createdHistory (fs : Files) : list Event :=
  match historyFile fs with
  | None => [WriteHistory ∅]
  | Some _ => []
  end.

Definition withHistory (fs : Files) (h : gmap string bool) : Files :=
  {| historyFile := Some h; websiteFile := websiteFile fs |}.

(** The files and the events of the alert step, given what the run found
    on its latest bar. *)
Definition afterAlert (fs : Files) (alert : option (string * string)) : Files :=
  match alert with
  | Some (signal, iso) =>
      if truthyAt (ledger fs) (historyKey signal iso) then fs
      else withHistory fs (<[historyKey signal iso := true]> (ledger fs))
  | None => fs
  end.

Definition alertEvents (ticker : string) (toFixed2 : number → string)
    (fs : Files) (alert : option (string * string)) (price : number) : list Event :=
  match alert with
  | Some (signal, iso) =>
      if truthyAt (ledger fs) (historyKey signal iso) then []
      else (createdHistory fs
            ++ [WriteHistory (<[historyKey signal iso := true]> (ledger fs));
                SendEmail (alertSubject ticker signal)
                          (alertBody ticker toFixed2 signal price)])%list
  | None => []
  end.

(** What the publishing step leaves in the trace: nothing when it throws,
    else one write of website data whose signal history is read off the
    alert history. *)
Definition publishEvents (fs : Files) (rest : list Event) : Prop :=
  rest = [] ∨ ∃ d, rest = [WriteWebsite d] ∧ signalHistory d = signalsArray (ledger fs).

Section Observations.

Variable ticker : string.
Variable toFixed2 : number → string.

(** The signal and timestamp with which a run reaches the alert check:
    [None] when the fetch fails, the history is too short, the latest
    date is invalid or the signal is empty. *)
Definition latestAlert (response : option (list Bar)) : option (string * string) :=
  match response with
  | None => None
  | Some rows =>
      let data := filter (λ d, validRow d = true) rows in
      if Z.of_nat (length data) <? 80 then None
      else
        match at_index data (Z.of_nat (length data) - 1),
              getIchimokuAt data (Z.of_nat (length data) - 1) with
        | Some latest, Some ich =>
            match date latest with
            | ValidDate iso =>
                let signal := evalSignal (close latest) ich in
                if nonEmpty signal then Some (signal, iso) else None
            | InvalidDate => None
            end
        | _, _ => None
        end
  end.

(** The latest bar of the run yields signal [S] on day [D]. *)
Definition yields (response : option (list Bar)) (S D : string) : Prop :=
  ∃ iso, latestAlert response = Some (S, iso) ∧ dayOf iso = D.

Definition yieldsb (response : option (list Bar)) (S D : string) : bool :=
  match latestAlert response with
  | Some (S', iso) => String.eqb S' S && String.eqb (dayOf iso) D
  | None => false
  end.

(** The files after a sequence of runs. *)
Fixpoint filesAfter (responses : list (option (list Bar))) (fs : Files) : Files :=
  match responses with
  | [] => fs
  | r :: rs => filesAfter rs (run ticker toFixed2 r fs).1.2
  end.

(** The number of runs of a sequence that yield [(S, D)] and send an
    e-mail. *)
Fixpoint notifications (S D : string) (responses : list (option (list Bar)))
    (fs : Files) : nat :=
  match responses with
  | [] => 0%nat
  | r :: rs =>
      let '(_, fs', tr) := run ticker toFixed2 r fs in
      ((if yieldsb r S D && negb (bool_decide (emails tr = [])) then 1 else 0)
       + notifications S D rs fs')%nat
  end.

End Observations.

(** Recording a list of (signal, timestamp) pairs, one call of
    [checkAlertHistory] each. *)
Fixpoint recordAll (calls : list (string * string)) (fs : Files) : Files :=
  match calls with
  | [] => fs
  | (signal, iso) :: calls' => recordAll calls' (checkAlertHistory signal iso fs).1.2
  end.

Definition eventOf (call : string * string) : SignalEvent :=
  {| se_type := call.1; se_date := dayOf call.2 |}.

(* ===================================================================== *)
(** ** Vocabulary of the properties *)
(* ===================================================================== *)

Definition isAlertType (s : string) : Prop := s = "BUY" ∨ s = "SELL".

Definition buyCondition (price : number) (ich : Ichimoku) : Prop :=
  Num.gt (tenkan ich) (kijun ich) = true
  ∧ Num.gt price (Num.Math_max (spanA ich) (spanB ich)) = true.

Definition sellCondition (price : number) (ich : Ichimoku) : Prop :=
  Num.lt (tenkan ich) (kijun ich) = true
  ∧ Num.lt price (Num.Math_min (spanA ich) (spanB ich)) = true.

(** [price > a] and [price > b]: the price is above both edges. *)
Definition aboveBoth (price a b : number) : Prop :=
  Num.gt price a = true ∧ Num.gt price b = true.

Definition belowBoth (price a b : number) : Prop :=
  Num.lt price a = true ∧ Num.lt price b = true.

(** The place of a number in the order used by [<]: class, then exponent,
    then mantissa, mirrored for negative values. *)
Definition rank (x : number) : Z * Z * Z :=
  match x with
  | S754_infinity true => (-2, 0, 0)
  | S754_finite true m e => (-1, - e, - Zpos m)
  | S754_zero _ | S754_nan => (0, 0, 0)
  | S754_finite false m e => (1, e, Zpos m)
  | S754_infinity false => (2, 0, 0)
  end.

Definition rank_lt (r r' : Z * Z * Z) : Prop :=
  r.1.1 < r'.1.1
  ∨ (r.1.1 = r'.1.1 ∧ (r.1.2 < r'.1.2 ∨ (r.1.2 = r'.1.2 ∧ r.2 < r'.2))).

Definition sameHighLow (d d' : Bar) : Prop :=
  high d = high d' ∧ low d = low d'.

(** Finite prices on a bar, as far as the calculator reads them. *)
Definition finiteBar (d : Bar) : Prop :=
  Num.isFinite (high d) = true ∧ Num.isFinite (low d) = true.

Definition finiteTuple (t : Ichimoku) : Prop :=
  Num.isFinite (tenkan t) = true ∧ Num.isFinite (kijun t) = true
  ∧ Num.isFinite (spanA t) = true ∧ Num.isFinite (spanB t) = true.

(** [below K x]: [x] is finite and its magnitude is less than [2 ^ K]. *)
Definition below (K : Z) (x : number) : Prop :=
  match x with
  | S754_zero _ => True
  | S754_finite _ m e => Zpos (digits2_pos m) + e ≤ K
  | _ => False
  end.

(** Both prices read by the calculator are finite and below [2 ^ K] in
    magnitude. *)
Definition boundedBar (K : Z) (d : Bar) : Prop :=
  below K (high d) ∧ below K (low d).

#[global] Instance SignalEvent_eq_dec : EqDecision SignalEvent.
Proof. solve_decision. Defined.

(** A string without the character [c]. *)
Fixpoint lacks (c : ascii) (s : string) : bool :=
  match s with
  | EmptyString => true
  | String c' s' => negb (Ascii.eqb c' c) && lacks c s'
  end.

(** How many entries of a list are equal to [x]. *)
Definition occurrences {A : Type} `{EqDecision A} (x : A) (l : list A) : nat :=
  length (List.filter (λ y, bool_decide (y = x)) l).

(* ===================================================================== *)
(** ** What the specification says about Span A *)
(* ===================================================================== *)

(** The Tenkan and Kijun midpoints at an index, as [getIchimokuAt] computes
    them for the current point. *)
Definition tenkanMidpoint (data : list Bar) (j : Z) : number :=
  mid (getHL (slice data (j - 8) (j + 1))).

Definition kijunMidpoint (data : list Bar) (j : Z) : number :=
  mid (getHL (slice data (j - 25) (j + 1))).

(** Span A in the words of the specification: the average of the two
    midpoints taken 26 bars earlier. *)
Definition spanA_spec (data : list Bar) (i : Z) : number :=
  Num.div (Num.add (tenkanMidpoint data (i - 26)) (kijunMidpoint data (i - 26))) two.

(* ===================================================================== *)
(** ** Example series *)
(* ===================================================================== *)

(** A bar whose four prices are the integer [z]. *)
Definition flatBar (iso : string) (z : Z) : Bar :=
  {| date := ValidDate iso;
     open := Num.ofZ z; high := Num.ofZ z; low := Num.ofZ z; close := Num.ofZ z |}.

(** A bar whose four prices are the number [x]. *)
Definition constBar (iso : string) (x : number) : Bar :=
  {| date := ValidDate iso; open := x; high := x; low := x; close := x |}.

(** The largest finite binary64 value, [(2^53 - 1) * 2^971]. *)
Definition maxDouble : number := S754_finite false (2 ^ 53 - 1) 971.

(** Two timestamps as [toISOString] prints them. *)
Definition day1 : string := "2024-01-02T00:00:00.000Z".
Definition day2 : string := "2024-05-10T00:00:00.000Z".

(** Eighty quiet days at 100 followed by nine days at 150: the short
    midpoint rises above the long one and the price leaves the cloud. *)
Definition buySeries : list Bar :=
  (replicate 80 (flatBar day1 100) ++ replicate 9 (flatBar day2 150))%list.

(** A quiet day at 100 whose high spikes to 200. *)
Definition spikeBar : Bar :=
  {| date := ValidDate day1;
     open := Num.ofZ 100; high := Num.ofZ 200; low := Num.ofZ 100;
     close := Num.ofZ 100 |}.

(** A hundred and four quiet days, except for the spike on the bar 25
    places before the last one (index 78; the last index is 103). *)
Definition spikeSeries : list Bar :=
  (replicate 78 (flatBar day1 100) ++ spikeBar :: replicate 25 (flatBar day1 100))%list.

(** Eighty days on which every price is zero. *)
Definition zeroSeries : list Bar := replicate 80 (flatBar day1 0).

(** The tuple whose four components are [+0]. *)
Definition zeroTuple : Ichimoku :=
  {| tenkan := S754_zero false; kijun := S754_zero false;
     spanA := S754_zero false; spanB := S754_zero false |}.

(** A bar with the prices of a quiet day in its high and low only. *)
Definition scrambledBar : Bar :=
  {| date := InvalidDate; open := Num.NaN; high := Num.ofZ 100;
     low := Num.ofZ 100; close := Num.ofZ 7 |}.

(** Neither file exists yet. *)
Definition noFiles : Files := {| historyFile := None; websiteFile := None |}.

(** A stand-in for [toFixed(2)] in examples. *)
Definition plainFixed (x : number) : string := "0.00".

(* ===================================================================== *)
(** ** Further vocabulary *)
(* ===================================================================== *)

(** The calculator's view of a bar without NaN: what the filter of
    [fetchHistoricalData] guarantees for [high] and [low]. *)
Definition numericBar (d : Bar) : Prop :=
  Num.isNaN (high d) = false ∧ Num.isNaN (low d) = false.

(** The invariant of the scan: the running maximum is not NaN, no bar seen
    so far lies above it, and it is [-Infinity] or the high of a bar seen;
    the same for the running minimum. *)
Definition scanned (seen : list Bar) (acc : HL) : Prop :=
  (Num.isNaN (hl_h acc) = false
   ∧ (∀ d, d ∈ seen → Num.gt (high d) (hl_h acc) = false)
   ∧ (hl_h acc = Num.negInfinity ∨ ∃ d, d ∈ seen ∧ hl_h acc = high d))
  ∧ (Num.isNaN (hl_l acc) = false
     ∧ (∀ d, d ∈ seen → Num.lt (low d) (hl_l acc) = false)
     ∧ (hl_l acc = Num.Infinity ∨ ∃ d, d ∈ seen ∧ hl_l acc = low d)).

(** The tuple whose four components are NaN. *)
Definition nanTuple : Ichimoku :=
  {| tenkan := Num.NaN; kijun := Num.NaN; spanA := Num.NaN; spanB := Num.NaN |}.

(** A tuple with a NaN component. *)
Definition hasNaN (ich : Ichimoku) : Prop :=
  Num.isNaN (tenkan ich) = true ∨ Num.isNaN (kijun ich) = true
  ∨ Num.isNaN (spanA ich) = true ∨ Num.isNaN (spanB ich) = true.

(** The e-mails sent over a sequence of runs. *)
Fixpoint totalEmails (ticker : string) (toFixed2 : number → string)
    (responses : list (option (list Bar))) (fs : Files) : nat :=
  match responses with
  | [] => 0%nat
  | r :: rs =>
      (length (emails (run ticker toFixed2 r fs).2)
       + totalEmails ticker toFixed2 rs (run ticker toFixed2 r fs).1.2)%nat
  end.

(** Every value stored in the alert history is truthy. *)
Definition allTruthy (h : gmap string bool) : Prop :=
  ∀ key b, h !! key = Some b → b = true.

(** The date of the bar is a valid [Date]. *)
Definition validDate (d : Bar) : Prop := ∃ iso, date d = ValidDate iso.

Definition invalidDate (d : Bar) : Prop := date d = InvalidDate.

(** The timestamp of a bar with a valid date. *)
Definition isoOf (d : Bar) : string :=
  match date d with
  | ValidDate iso => iso
  | InvalidDate => EmptyString
  end.

(** The published entry for bar [d] at absolute index [k] of [data]. *)
Definition entryAt (data : list Bar) (k : Z) (d : Bar) : HistoryEntry :=
  {| e_date := dayOf (isoOf d);
     e_open := open d;
     e_high := high d;
     e_low := low d;
     e_close := close d;
     e_price := close d;
     e_tenkan := orNull (tenkan <$> getIchimokuAt data k);
     e_kijun := orNull (kijun <$> getIchimokuAt data k);
     e_spanA := orNull (spanA <$> getIchimokuAt data k);
     e_spanB := orNull (spanB <$> getIchimokuAt data k) |}.

(** The website data a run over [data] publishes, given the latest bar, its
    tuple and the alert history as the publishing step finds it. *)
Definition snapshotOf (ticker : string) (data : list Bar) (latest : Bar)
    (ich : Ichimoku) (h : gmap string bool) : WebsiteData :=
  {| w_ticker := ticker;
     w_price := close latest;
     w_date := isoOf latest;
     w_signal := signalOrNeutral (evalSignal (close latest) ich);
     signalHistory := signalsArray h;
     ichimoku :=
       {| v_tenkan := tenkan ich; v_kijun := kijun ich;
          senkouA := spanA ich; senkouB := spanB ich |};
     history :=
       imap (λ k d, entryAt data (Z.of_nat (length data) - 40 + Z.of_nat k) d)
            (sliceFrom data (-40)) |}.

(** The rows a run works on. *)
Definition validRows (rows : list Bar) : list Bar :=
  filter (λ d, validRow d = true) rows.

(* ===================================================================== *)
(** ** The CSV response *)
(* ===================================================================== *)

Definition comma : ascii := ","%char.
Definition lineFeed : ascii := ascii_of_nat 10.

(** The code units below 256 that [trim] strips: TAB, LF, VT, FF, CR, the
    space and the no-break space. *)
Definition isWhiteSpace (c : ascii) : bool :=
  let n := nat_of_ascii c in
  Nat.eqb n 9 || Nat.eqb n 10 || Nat.eqb n 11 || Nat.eqb n 12 || Nat.eqb n 13
  || Nat.eqb n 32 || Nat.eqb n 160.

Fixpoint trimStart (s : string) : string :=
  match s with
  | EmptyString => EmptyString
  | String c s' => if isWhiteSpace c then trimStart s' else s
  end.

Fixpoint trimEnd (s : string) : string :=
  match s with
  | EmptyString => EmptyString
  | String c s' =>
      match trimEnd s' with
      | EmptyString => if isWhiteSpace c then EmptyString else String c EmptyString
      | t => String c t
      end
  end.

(** [s.trim()]. *)
Definition trim (s : string) : string := trimEnd (trimStart s).

(** A string of white space only. *)
Fixpoint blank (s : string) : bool :=
  match s with
  | EmptyString => true
  | String c s' => isWhiteSpace c && blank s'
  end.

(** How often a character occurs in a string. *)
Fixpoint count (c : ascii) (s : string) : nat :=
  match s with
  | EmptyString => 0%nat
  | String c' s' => ((if Ascii.eqb c' c then 1 else 0) + count c s')%nat
  end.

Definition firstChar (s : string) : option ascii :=
  match s with
  | EmptyString => None
  | String c _ => Some c
  end.

Fixpoint lastChar (s : string) : option ascii :=
  match s with
  | EmptyString => None
  | String c EmptyString => Some c
  | String _ s' => lastChar s'
  end.

Section Csv.

(** [parseFloat] on a string and [new Date] on a string. *)
Variable parseFloat : string → number.
Variable newDate : string → JsDate.

(** [parseFloat(x)] for a destructured field: a missing field is
    [undefined], which parses as NaN. *)
Definition parseField (x : option string) : number :=
  match x with
  | Some s => parseFloat s
  | None => Num.NaN
  end.

(** [new Date(x)] for a destructured field; [new Date(undefined)] is an
    invalid date. *)
Definition dateField (x : option string) : JsDate :=
  match x with
  | Some s => newDate s
  | None => InvalidDate
  end.

(** The callback of [lines.slice(1).map]. *)
Definition parseLine (line : string) : Bar :=
  let fields := Str.split comma line in
  {| date := dateField (fields !! 0%nat);
     open := parseField (fields !! 1%nat);
     high := parseField (fields !! 2%nat);
     low := parseField (fields !! 3%nat);
     close := parseField (fields !! 4%nat) |}.

(** The rows of a response body, before the NaN filter. *)
Definition parseCsv (csv : string) : list Bar :=
  let lines := Str.split lineFeed (trim csv) in
  parseLine <$> sliceFrom lines 1.

(** The response of Stooq as [fetchHistoricalData] takes it: [None] is a
    response that is not ok, [Some csv] the body of one that is. *)
Definition parsedResponse (response : option string) : option (list Bar) :=
  parseCsv <$> response.

End Csv.

(** A [parseFloat] for examples: the digits at the start of the string, NaN
    when there is none. *)
Definition digitOf (c : ascii) : option Z :=
  let n := Z.of_nat (nat_of_ascii c) in
  if (48 <=? n) && (n <=? 57) then Some (n - 48) else None.

Fixpoint leadingDigits (s : string) (acc : option Z) : option Z :=
  match s with
  | EmptyString => acc
  | String c s' =>
      match digitOf c with
      | Some d => leadingDigits s' (Some (10 * default 0 acc + d))
      | None => acc
      end
  end.

Definition parseDigits (s : string) : number :=
  match leadingDigits s None with
  | Some z => Num.ofZ z
  | None => Num.NaN
  end.

(* ===================================================================== *)
(** ** Delivery of an e-mail *)
(* ===================================================================== *)

(** The part of [CONFIG] that [sendEmail] reads: [SMTP_USER] and
    [SMTP_PASS] may be unset, the recipient list is a string. *)
Record SmtpConfig := {
  cfg_user : option string;
  cfg_pass : option string;
  cfg_recipient : string
}.

(** The message handed to [transporter.sendMail]. *)
Record Mail := {
  mail_from : string;
  mail_to : string;
  mail_subject : string;
  mail_text : string;
  mail_html : string
}.

(** One pass through the [try] of the loop: the transport resolved with a
    message id, or it threw and the error was logged. *)
Inductive Attempt :=
| Sent (m : Mail) (messageId : string)
| Failed (m : Mail) (message : string).

Definition mailOf (a : Attempt) : Mail :=
  match a with
  | Sent m _ => m
  | Failed m _ => m
  end.

(** [!x] is false: the variable is set and not the empty string. *)
Definition truthyString (x : option string) : bool :=
  match x with
  | Some s => nonEmpty s
  | None => false
  end.

Definition doubleQuote : ascii := ascii_of_nat 34.

(** The sender, the display name [Gold Tracker] in double quotes followed
    by the user in angle brackets. *)
Definition sender (user : string) : string :=
  (String doubleQuote "Gold Tracker" ++ String doubleQuote " <" ++ user ++ ">")%string.

(** [s.replace(/c/g, by)] for a one-character pattern. *)
Fixpoint replaceAll (c : ascii) (by_ : string) (s : string) : string :=
  match s with
  | EmptyString => EmptyString
  | String x s' =>
      if Ascii.eqb x c then (by_ ++ replaceAll c by_ s')%string
      else String x (replaceAll c by_ s')
  end.

Definition htmlOf (body : string) : string :=
  ("<p>" ++ replaceAll lineFeed "<br>" body ++ "</p>")%string.

Section Delivery.

(** [transporter.sendMail]: the answer to the [n]-th call, a message id or
    an error. *)
Variable sendMail : nat → Mail → Result string.

(** The [for] loop over the recipients; [n] counts the calls of the
    transport made so far. *)
Fixpoint sendLoop (user subject body : string) (recipients : list string) (n : nat)
  : list Attempt :=
  match recipients with
  | [] => []
  | recipient :: rest =>
      if negb (nonEmpty recipient) then sendLoop user subject body rest n
      else
        let m := {| mail_from := sender user;
                    mail_to := recipient;
                    mail_subject := subject;
                    mail_text := body;
                    mail_html := htmlOf body |} in
        match sendMail n m with
        | Ok messageId => Sent m messageId :: sendLoop user subject body rest (S n)
        | Throw message => Failed m message :: sendLoop user subject body rest (S n)
        end
  end.

(** The body of [sendEmail(subject, body)]: the attempts it makes, in
    order.  It returns normally in every case. *)
Definition deliveries (cfg : SmtpConfig) (subject body : string) : list Attempt :=
  if negb (truthyString (cfg_user cfg)) || negb (truthyString (cfg_pass cfg)) then []
  else
    let recipients := trim <$> Str.split comma (cfg_recipient cfg) in
    sendLoop (default EmptyString (cfg_user cfg)) subject body recipients 0.

End Delivery.

(* ===================================================================== *)
(** ** The trigger endpoint *)
(* ===================================================================== *)

Module Trigger.

(** The request that [fetch] sends to the workflow dispatch endpoint. *)
Record Request := {
  req_url : string;
  req_method : string;
  req_authorization : string;
  req_accept : string;
  req_contentType : string;
  req_userAgent : string;
  req_ref : string
}.

(** What the handler reads of the response of [fetch]: the status, with
    [res.ok] true for a status from 200 to 299, and the body, whose
    reading may fail. *)
Record Response := {
  res_status : Z;
  res_text : Result string
}.

Definition res_ok (res : Response) : bool :=
  (200 <=? res_status res) && (res_status res <=? 299).

(** The reply of the handler: [response.status(...).json(...)]. *)
Record Reply := {
  status : Z;
  success : option bool;
  message : option string;
  error : option string
}.

Definition dispatch (token : string) : Request :=
  {| req_url := "https://api.github.com/repos/nikkamalf/gold-tracker/actions/workflows/tracker.yml/dispatches";
     req_method := "POST";
     req_authorization := "Bearer " ++ token;
     req_accept := "application/vnd.github.v3+json";
     req_contentType := "application/json";
     req_userAgent := "Vercel-Cron-Trigger";
     req_ref := "main" |}.

(** [handler(request, response)]: the reply and the requests sent.
    [GITHUB_TOKEN] may be unset; [fetch] resolves with a response or
    rejects with an error message. *)
Definition handler (GITHUB_TOKEN : option string)
    (fetch : Request → Result Response) : Reply * list Request :=
  match GITHUB_TOKEN with
  | Some (String c t) =>
      let token := String c t in
      let sent := [dispatch token] in
      match fetch (dispatch token) with
      | Ok res =>
          if res_ok res then
            ({| status := 200; success := Some true;
                message := Some "GitHub workflow triggered successfully"%string;
                error := None |}, sent)
          else
            match res_text res with
            | Ok errorText =>
                ({| status := res_status res; success := Some false;
                    message := None;
                    error := Some ("GitHub API error: " ++ errorText)%string |}, sent)
            | Throw msg =>
                ({| status := 500; success := Some false; message := None;
                    error := Some msg |}, sent)
            end
      | Throw msg =>
          ({| status := 500; success := Some false; message := None;
              error := Some msg |}, sent)
      end
  | _ =>
      ({| status := 500; success := None; message := None;
          error := Some "GITHUB_TOKEN not configured in Vercel Environment Variables"%string |},
       [])
  end.

End Trigger.

(* ===================================================================== *)
(** ** The dashboard's chart rows *)
(* ===================================================================== *)

Module Dashboard.

Definition zero : number := S754_zero false.

(** A number after [JSON.stringify] and [JSON.parse]: NaN and the
    infinities are written as [null], and [-0] as [0]. *)
Definition jsonNumber (x : number) : option number :=
  match x with
  | S754_nan | S754_infinity _ => None
  | S754_zero _ => Some zero
  | S754_finite _ _ _ => Some x
  end.

(** An entry of [jsonData.history] as the dashboard reads it: every number
    may be [null]. *)
Record Day := {
  j_date : string;
  j_open : option number;
  j_high : option number;
  j_low : option number;
  j_close : option number;
  j_tenkan : option number;
  j_kijun : option number;
  j_spanA : option number;
  j_spanB : option number
}.

(** The entry the tracker wrote, read back from the file. *)
Definition parsedEntry (e : HistoryEntry) : Day :=
  {| j_date := e_date e;
     j_open := jsonNumber (e_open e);
     j_high := jsonNumber (e_high e);
     j_low := jsonNumber (e_low e);
     j_close := jsonNumber (e_close e);
     j_tenkan := e_tenkan e ≫= jsonNumber;
     j_kijun := e_kijun e ≫= jsonNumber;
     j_spanA := e_spanA e ≫= jsonNumber;
     j_spanB := e_spanB e ≫= jsonNumber |}.

(** A row of the chart. [None] in [signalType] stands for [null] and for
    [undefined]. *)
Record ChartRow := {
  c_date : string;
  c_open : option number;
  c_close : option number;
  c_high : option number;
  c_low : option number;
  prevClose : option number;
  c_tenkan : option number;
  c_kijun : option number;
  c_spanA : option number;
  c_spanB : option number;
  cloudMin : number;
  cloudMax : number;
  signalType : option string
}.

(** [v || 0]. *)
Definition orZero (v : option number) : number :=
  match v with
  | Some x => if Num.truthy x then x else zero
  | None => zero
  end.

(** The callback of [(jsonData.history || []).map] in [fetchRealData]. *)
Definition chartRow (history : list Day) (signalHistory : list SignalEvent)
    (day : Day) (idx : nat) : ChartRow :=
  let signal :=
    List.find (λ s, String.eqb (dayOf (se_date s)) (dayOf (j_date day)))
      signalHistory in
  let prevClose :=
    if (0 <? idx)%nat then history !! (idx - 1)%nat ≫= j_close else None in
  {| c_date := if nonEmpty (dayOf (j_date day)) then dayOf (j_date day) else j_date day;
     c_open := j_open day;
     c_close := j_close day;
     c_high := j_high day;
     c_low := j_low day;
     prevClose := prevClose;
     c_tenkan := j_tenkan day;
     c_kijun := j_kijun day;
     c_spanA := j_spanA day;
     c_spanB := j_spanB day;
     cloudMin := Num.Math_min (orZero (j_spanA day)) (orZero (j_spanB day));
     cloudMax := Num.Math_max (orZero (j_spanA day)) (orZero (j_spanB day));
     signalType :=
       match signal with
       | Some s => if nonEmpty (se_type s) then Some (se_type s) else None
       | None => None
       end |}.

(** The chart rows for the data the tracker published. *)
Definition chartRows (d : WebsiteData) : list ChartRow :=
  let history := parsedEntry <$> history d in
  imap (λ idx day, chartRow history (signalHistory d) day idx) history.

End Dashboard.

(* ===================================================================== *)
(** ** Facts about comparisons *)
(* ===================================================================== *)

Section Comparisons.

Lemma SFcompare_swap (a b : number) :
  SFcompare b a = CompOpp <$> SFcompare a b.
Proof.
  destruct a as [sa|sa| |sa ma ea], b as [sb|sb| |sb mb eb]; simpl;
    try reflexivity;
    try (destruct sa; reflexivity);
    try (destruct sb; reflexivity);
    try (destruct sa, sb; reflexivity).
  destruct sa, sb; simpl; try reflexivity;
    rewrite (Z.compare_antisym ea eb);
    destruct (ea ?= eb); simpl; try reflexivity;
    rewrite (Pos.compare_cont_antisym ma mb Eq); reflexivity.
Qed.

Lemma lt_asym (a b : number) : Num.lt a b = true → Num.lt b a = false.
Proof.
  unfold Num.lt, SFltb. rewrite (SFcompare_swap a b).
  destruct (SFcompare a b) as [[]|]; simpl; congruence.
Qed.

Lemma lt_irrefl (a : number) : Num.lt a a = false.
Proof.
  destruct (Num.lt a a) eqn:H; [|reflexivity].
  pose proof (lt_asym _ _ H). congruence.
Qed.

Lemma eqb_not_lt (a b : number) :
  Num.eqb a b = true → Num.lt a b = false ∧ Num.lt b a = false.
Proof.
  unfold Num.eqb, Num.lt, SFeqb, SFltb. rewrite (SFcompare_swap a b).
  destruct (SFcompare a b) as [[]|]; simpl; intros; split; congruence.
Qed.

Lemma gt_negInfinity (x : number) :
  Num.isFinite x = true → Num.gt x Num.negInfinity = true.
Proof. destruct x as [s|s| |s m e]; cbv; congruence. Qed.

Lemma lt_Infinity (x : number) :
  Num.isFinite x = true → Num.lt x Num.Infinity = true.
Proof. destruct x as [s|s| |s m e]; cbv; congruence. Qed.

End Comparisons.

(* ===================================================================== *)
(** ** Slices and the high/low scan *)
(* ===================================================================== *)

Section Slices.

Context {A B : Type}.

Lemma slice_length (arr : list A) (a b : Z) :
  0 ≤ a → a ≤ b → b ≤ Z.of_nat (length arr) →
  Z.of_nat (length (slice arr a b)) = b - a.
Proof.
  intros Ha Hab Hb. unfold slice, relIndex.
  destruct (Z.ltb_spec a 0); [lia|]. destruct (Z.ltb_spec b 0); [lia|].
  rewrite length_take, length_drop. lia.
Qed.

Lemma slice_Forall (P : A → Prop) (arr : list A) (a b : Z) :
  Forall P arr → Forall P (slice arr a b).
Proof. intros H. unfold slice. by apply Forall_take, Forall_drop. Qed.

Lemma slice_Forall2 (R : A → B → Prop) (l : list A) (k : list B) (a b : Z) :
  Forall2 R l k → Forall2 R (slice l a b) (slice k a b).
Proof.
  intros H. unfold slice. rewrite <- (Forall2_length _ _ _ H).
  by apply Forall2_take, Forall2_drop.
Qed.

End Slices.

Lemma getHL_step_ext (acc : HL) (d d' : Bar) :
  sameHighLow d d' → getHL_step acc d = getHL_step acc d'.
Proof. intros [Hh Hl]. unfold getHL_step. by rewrite Hh, Hl. Qed.

Lemma getHL_ext (sl sl' : list Bar) :
  Forall2 sameHighLow sl sl' → getHL sl = getHL sl'.
Proof.
  unfold getHL. generalize {| hl_h := Num.negInfinity; hl_l := Num.Infinity |}.
  intros acc H. revert acc.
  induction H as [|d d' sl sl' Hd _ IH]; intros acc; simpl; [done|].
  rewrite (getHL_step_ext acc d d' Hd). apply IH.
Qed.

(** C10.  The calculator reads nothing but the highs and the lows: two
    series of equal length whose bars agree, index by index, on [high] and
    [low] (whatever their [open], [close] and [date]) give the same result
    at every index. *)
Theorem getIchimokuAt_reads_high_low (data data' : list Bar) :
  Forall2 sameHighLow data data' →
  ∀ index, getIchimokuAt data index = getIchimokuAt data' index.
Proof.
  intros H index. unfold getIchimokuAt.
  destruct (index <? 52 + 25); [done|].
  by rewrite !(getHL_ext _ _ (slice_Forall2 _ _ _ _ _ H)).
Qed.

Lemma getIchimokuAt_reads_high_low_witness :
  getIchimokuAt (replicate 78 (flatBar day1 100)) 77
  = getIchimokuAt (replicate 78 scrambledBar) 77.
Proof.
  apply getIchimokuAt_reads_high_low.
  repeat (constructor; [split; reflexivity|]). constructor.
Defined.

(** The two windows behind Span A hold 10 and 27 bars and end 25 bars
    before the index, where the Tenkan and Kijun windows of the same
    function hold 9 and 26 bars. *)
Lemma spanA_windows (data : list Bar) (index : Z) (t : Ichimoku) :
  getIchimokuAt data index = Some t →
  index < Z.of_nat (length data) →
  spanA t
  = Num.div (Num.add (mid (getHL (slice data (index - 34) (index - 24))))
                     (mid (getHL (slice data (index - 51) (index - 24))))) two
  ∧ length (slice data (index - 34) (index - 24)) = 10%nat
  ∧ length (slice data (index - 51) (index - 24)) = 27%nat
  ∧ length (slice data (index - 8) (index + 1)) = 9%nat
  ∧ length (slice data (index - 25) (index + 1)) = 26%nat.
Proof.
  unfold getIchimokuAt. destruct (Z.ltb_spec index (52 + 25)); [done|].
  intros [= <-] Hlen. simpl.
  replace (index - 25 - 9) with (index - 34) by lia.
  replace (index - 25 - 26) with (index - 51) by lia.
  replace (index - 25 + 1) with (index - 24) by lia.
  split; [done|].
  pose proof (slice_length data (index - 34) (index - 24)).
  pose proof (slice_length data (index - 51) (index - 24)).
  pose proof (slice_length data (index - 8) (index + 1)).
  pose proof (slice_length data (index - 25) (index + 1)).
  lia.
Qed.

(** C3 on the code.  On a quiet series at 100 with one spike of the high,
    25 bars before index 103, the calculator's own Tenkan and Kijun at
    index 77 (26 bars earlier) are both 100, so that Span A at 103 should
    be 100 as the specification's formula says; the calculator returns
    150, because its windows reach one bar further. *)
Theorem spanA_spike :
  tenkan <$> getIchimokuAt spikeSeries 77 = Some (Num.ofZ 100)
  ∧ kijun <$> getIchimokuAt spikeSeries 77 = Some (Num.ofZ 100)
  ∧ tenkanMidpoint spikeSeries 77 = Num.ofZ 100
  ∧ kijunMidpoint spikeSeries 77 = Num.ofZ 100
  ∧ spanA_spec spikeSeries 103 = Num.ofZ 100
  ∧ spanA <$> getIchimokuAt spikeSeries 103 = Some (Num.ofZ 150).
Proof. repeat split; vm_compute; reflexivity. Qed.

(* ===================================================================== *)
(** ** The signal evaluator *)
(* ===================================================================== *)

Section Order.

Lemma lt_rank (a b : number) :
  Num.lt a b = true
  ↔ Num.isNaN a = false ∧ Num.isNaN b = false ∧ rank_lt (rank a) (rank b).
Proof.
  unfold Num.lt, SFltb, rank_lt.
  assert (Hcmp : ∀ ma mb, Pos.compare_cont Eq ma mb = (ma ?= mb)%positive) by done.
  destruct a as [sa|[]| |[] ma ea], b as [sb|[]| |[] mb eb]; simpl;
    rewrite ?Hcmp;
    try destruct (Z.compare_spec ea eb); try destruct (Pos.compare_spec ma mb);
    simpl;
    (split;
     [ first [ discriminate | intros _; repeat split; lia ]
     | first [ reflexivity | intros (? & ? & ?); first [discriminate | lia] ] ]).
Qed.

Lemma rank_Math_max (a b : number) :
  Num.isNaN a = false → Num.isNaN b = false →
  Num.isNaN (Num.Math_max a b) = false
  ∧ (rank (Num.Math_max a b) = rank a ∨ rank (Num.Math_max a b) = rank b)
  ∧ ¬ rank_lt (rank (Num.Math_max a b)) (rank a)
  ∧ ¬ rank_lt (rank (Num.Math_max a b)) (rank b).
Proof.
  intros Ha Hb.
  assert (Hcase : Num.Math_max a b = (if Num.lt a b then b else a)
                  ∨ ∃ sa sb, a = S754_zero sa ∧ b = S754_zero sb
                             ∧ Num.Math_max a b = S754_zero (sa && sb)).
  { destruct a as [sa|sa| |sa ma ea], b as [sb|sb| |sb mb eb]; try done;
      try (by left); right; by eexists _, _. }
  destruct Hcase as [->|(sa & sb & -> & -> & ->)].
  - pose proof (lt_rank a b) as Hab. 
    destruct (Num.lt a b).
    + destruct Hab as [Hab _]. specialize (Hab eq_refl) as (_ & _ & Hlt).
      unfold rank_lt in *. repeat split; [done|by right|lia|lia].
    + assert (Hnlt : ¬ rank_lt (rank a) (rank b)).
      { intros Hlt. destruct Hab as [_ Hab]. by specialize (Hab (conj Ha (conj Hb Hlt))). }
      unfold rank_lt in *. repeat split; [done|by left|lia|lia].
  - unfold rank_lt. simpl. repeat split; [by left|lia|lia].
Qed.

Lemma gt_Math_max (price a b : number) :
  Num.gt price (Num.Math_max a b) = true ↔ aboveBoth price a b.
Proof.
  unfold aboveBoth, Num.gt. fold (Num.lt (Num.Math_max a b) price).
  fold (Num.lt a price) (Num.lt b price). rewrite !lt_rank.
  destruct (Num.isNaN a) eqn:Ha.
  { destruct a; try done. simpl. split; [intros ([=] & _)|intros [([=] & _) _]]. }
  destruct (Num.isNaN b) eqn:Hb.
  { destruct b; try done. destruct a; simpl; (split; [intros ([=] & _)|intros [_ ([=] & _)]]). }
  destruct (rank_Math_max a b Ha Hb) as (Hn & Hr & Hna & Hnb).
  rewrite Hn. unfold rank_lt in *.
  destruct Hr as [Hr|Hr]; rewrite Hr in *;
    destruct (rank a) as [[a1 a2] a3], (rank b) as [[b1 b2] b3],
             (rank price) as [[p1 p2] p3]; simpl in *;
    (split; [intros (_ & Hp & H)|intros [(_ & Hp & H) (_ & _ & H')]]);
    repeat split; try done; lia.
Qed.

Lemma rank_Math_min (a b : number) :
  Num.isNaN a = false → Num.isNaN b = false →
  Num.isNaN (Num.Math_min a b) = false
  ∧ (rank (Num.Math_min a b) = rank a ∨ rank (Num.Math_min a b) = rank b)
  ∧ ¬ rank_lt (rank a) (rank (Num.Math_min a b))
  ∧ ¬ rank_lt (rank b) (rank (Num.Math_min a b)).
Proof.
  intros Ha Hb.
  assert (Hcase : Num.Math_min a b = (if Num.lt b a then b else a)
                  ∨ ∃ sa sb, a = S754_zero sa ∧ b = S754_zero sb
                             ∧ Num.Math_min a b = S754_zero (sa || sb)).
  { destruct a as [sa|sa| |sa ma ea], b as [sb|sb| |sb mb eb]; try done;
      try (by left); right; by eexists _, _. }
  destruct Hcase as [->|(sa & sb & -> & -> & ->)].
  - pose proof (lt_rank b a) as Hba.
    destruct (Num.lt b a).
    + destruct Hba as [Hba _]. specialize (Hba eq_refl) as (_ & _ & Hlt).
      unfold rank_lt in *. repeat split; [done|by right|lia|lia].
    + assert (Hnlt : ¬ rank_lt (rank b) (rank a)).
      { intros Hlt. destruct Hba as [_ Hba]. by specialize (Hba (conj Hb (conj Ha Hlt))). }
      unfold rank_lt in *. repeat split; [done|by left|lia|lia].
  - unfold rank_lt. simpl. repeat split; [by left|lia|lia].
Qed.

Lemma lt_Math_min (price a b : number) :
  Num.lt price (Num.Math_min a b) = true ↔ belowBoth price a b.
Proof.
  unfold belowBoth. rewrite !lt_rank.
  destruct (Num.isNaN a) eqn:Ha.
  { destruct a; try done. simpl. split; [intros (_ & [=] & _)|intros [(_ & [=] & _) _]]. }
  destruct (Num.isNaN b) eqn:Hb.
  { destruct b; try done.
    destruct a; simpl; (split; [intros (_ & [=] & _)|intros [_ (_ & [=] & _)]]). }
  destruct (rank_Math_min a b Ha Hb) as (Hn & Hr & Hna & Hnb).
  rewrite Hn. unfold rank_lt in *.
  destruct Hr as [Hr|Hr]; rewrite Hr in *;
    destruct (rank a) as [[a1 a2] a3], (rank b) as [[b1 b2] b3],
             (rank price) as [[p1 p2] p3]; simpl in *;
    (split; [intros (Hp & _ & H)|intros [(Hp & _ & H) (_ & _ & H')]]);
    repeat split; try done; lia.
Qed.

End Order.

Section Evaluator.

Lemma buy_excludes_sell (price : number) (ich : Ichimoku) :
  buyCondition price ich → ¬ sellCondition price ich.
Proof.
  intros [Hgt _] [Hlt _]. apply lt_asym in Hlt.
  unfold Num.gt, Num.lt in *. congruence.
Qed.

Lemma evalSignal_cases (price : number) (ich : Ichimoku) :
  (buyCondition price ich ∧ evalSignal price ich = "BUY"%string)
  ∨ (¬ buyCondition price ich ∧ sellCondition price ich
     ∧ evalSignal price ich = "SELL"%string)
  ∨ (¬ buyCondition price ich ∧ ¬ sellCondition price ich
     ∧ evalSignal price ich = ""%string).
Proof.
  unfold evalSignal, buyCondition, sellCondition.
  destruct (Num.gt (tenkan ich) (kijun ich)) eqn:H1,
           (Num.gt price (Num.Math_max (spanA ich) (spanB ich))) eqn:H2; simpl;
    [by left| | |];
    (destruct (Num.lt (tenkan ich) (kijun ich)) eqn:H3,
              (Num.lt price (Num.Math_min (spanA ich) (spanB ich))) eqn:H4; simpl;
     [right; left|right; right|right; right|right; right]);
    repeat split; try done; intros [? ?]; congruence.
Qed.

(** C4.  The published signal is BUY exactly when [tenkan > kijun] and
    [price > Math.max(spanA, spanB)], SELL exactly when [tenkan < kijun]
    and [price < Math.min(spanA, spanB)], and NEUTRAL exactly when neither
    condition holds.  Being above [Math.max] of the two spans is being
    above both, being below [Math.min] is being below both.  A tie of
    Tenkan and Kijun (equal as numbers, or the same value) is NEUTRAL
    whatever the price. *)
Theorem evalSignal_classifies (price : number) (ich : Ichimoku) :
  (signalOrNeutral (evalSignal price ich) = "BUY"%string ↔ buyCondition price ich)
  ∧ (signalOrNeutral (evalSignal price ich) = "SELL"%string
     ↔ sellCondition price ich)
  ∧ (signalOrNeutral (evalSignal price ich) = "NEUTRAL"%string
     ↔ ¬ buyCondition price ich ∧ ¬ sellCondition price ich)
  ∧ (buyCondition price ich
     ↔ Num.gt (tenkan ich) (kijun ich) = true
       ∧ aboveBoth price (spanA ich) (spanB ich))
  ∧ (sellCondition price ich
     ↔ Num.lt (tenkan ich) (kijun ich) = true
       ∧ belowBoth price (spanA ich) (spanB ich))
  ∧ (Num.eqb (tenkan ich) (kijun ich) = true
     → signalOrNeutral (evalSignal price ich) = "NEUTRAL"%string)
  ∧ (tenkan ich = kijun ich
     → signalOrNeutral (evalSignal price ich) = "NEUTRAL"%string).
Proof.
  pose proof (buy_excludes_sell price ich) as Hex.
  assert (Hneutral : ¬ buyCondition price ich ∧ ¬ sellCondition price ich →
                     signalOrNeutral (evalSignal price ich) = "NEUTRAL"%string).
  { intros [Hb Hs].
    destruct (evalSignal_cases price ich) as [[? _]|[(_ & ? & _)|(_ & _ & ->)]]; done. }
  split; [|split; [|split; [|split; [|split; [|split]]]]].
  - destruct (evalSignal_cases price ich) as [[? ->]|[(? & ? & ->)|(? & ? & ->)]];
      by split.
  - destruct (evalSignal_cases price ich) as [[? ->]|[(? & ? & ->)|(? & ? & ->)]];
      split; try done. intros Hs. by apply Hex in Hs.
  - destruct (evalSignal_cases price ich) as [[? ->]|[(? & ? & ->)|(? & ? & ->)]];
      split; try done; by intros [? ?].
  - unfold buyCondition. by rewrite gt_Math_max.
  - unfold sellCondition. by rewrite lt_Math_min.
  - intros Heq. apply Hneutral. apply eqb_not_lt in Heq as [H1 H2].
    unfold buyCondition, sellCondition, Num.gt, Num.lt in *.
    split; intros [? _]; congruence.
  - intros Heq. apply Hneutral.
    pose proof (lt_irrefl (kijun ich)) as Hirr.
    unfold buyCondition, sellCondition, Num.gt, Num.lt in *. rewrite Heq.
    split; intros [? _]; congruence.
Qed.

End Evaluator.

(* ===================================================================== *)
(** ** Evaluating the effectful steps *)
(* ===================================================================== *)

Section Monad.
Context {A B : Type}.

Lemma bind_ok (m : M A) (k : A → M B) (fs fs1 : Files) (a : A) (tr1 : list Event) :
  m fs = (Ok a, fs1, tr1) →
  bind m k fs = (let '(r, fs2, tr2) := k a fs1 in (r, fs2, (tr1 ++ tr2)%list)).
Proof. intros H. unfold bind. rewrite H. by destruct (k a fs1) as [[r fs2] tr2]. Qed.

Lemma bind_throw (m : M A) (k : A → M B) (fs fs1 : Files) (msg : string)
    (tr1 : list Event) :
  m fs = (Throw msg, fs1, tr1) → bind m k fs = (Throw msg, fs1, tr1).
Proof. intros H. unfold bind. by rewrite H. Qed.
End Monad.

Section Ledger.

Lemma truthyAt_empty (key : string) : truthyAt ∅ key = false.
Proof. unfold truthyAt. by rewrite lookup_empty. Qed.

Lemma truthyAt_insert (h : gmap string bool) (key : string) :
  truthyAt (<[key := true]> h) key = true.
Proof. unfold truthyAt. by rewrite lookup_insert_eq. Qed.

Lemma truthyAt_insert_ne (h : gmap string bool) (key key' : string) :
  key ≠ key' → truthyAt (<[key := true]> h) key' = truthyAt h key'.
Proof. intros H. unfold truthyAt. by rewrite lookup_insert_ne. Qed.

Lemma truthyAt_insert_mono (h : gmap string bool) (key key' : string) :
  truthyAt h key' = true → truthyAt (<[key := true]> h) key' = true.
Proof.
  intros H. destruct (decide (key = key')) as [->|Hne].
  - apply truthyAt_insert.
  - by rewrite truthyAt_insert_ne.
Qed.

Lemma checkAlertHistory_known (signal iso : string) (fs : Files) :
  truthyAt (ledger fs) (historyKey signal iso) = true →
  checkAlertHistory signal iso fs = (Ok true, fs, []).
Proof.
  intros H. unfold checkAlertHistory, bind, existsHistory, readHistory.
  destruct fs as [[h|] w]; unfold ledger in H; simpl in *.
  - by rewrite H.
  - by rewrite truthyAt_empty in H.
Qed.

Lemma checkAlertHistory_new (signal iso : string) (fs : Files) :
  truthyAt (ledger fs) (historyKey signal iso) = false →
  checkAlertHistory signal iso fs
  = (Ok false,
     withHistory fs (<[historyKey signal iso := true]> (ledger fs)),
     (createdHistory fs
      ++ [WriteHistory (<[historyKey signal iso := true]> (ledger fs))])%list).
Proof.
  intros H. unfold checkAlertHistory, bind, existsHistory, readHistory.
  destruct fs as [[h|] w]; unfold ledger in *; simpl in *.
  - by rewrite H.
  - by rewrite truthyAt_empty.
Qed.

End Ledger.

Section Runs.

Variable ticker : string.
Variable toFixed2 : number → string.

Lemma displayHistory_pure (data l : list Bar) (i : Z) (fs : Files) :
  ∃ r, mapM_index (displayEntry data) l i fs = (r, fs, []).
Proof.
  revert i. induction l as [|d l IH]; intros i; simpl.
  - by eexists.
  - unfold displayEntry at 1. destruct (date d) as [iso|]; simpl.
    + erewrite bind_ok by (erewrite bind_ok by reflexivity; reflexivity).
      destruct (IH (i + 1)) as [[ys|msg] Hr].
      * erewrite bind_ok by exact Hr. by eexists.
      * erewrite bind_throw by exact Hr. by eexists.
    + erewrite bind_throw by (erewrite bind_throw by reflexivity; reflexivity).
      by eexists.
Qed.

(** The publishing step writes at most the website file, whose signal
    history is read off the alert history as it stands. *)
Lemma publishStep_eval (data : list Bar) (price : number) (date signal : string)
    (ich : Ichimoku) (fs : Files) :
  (∃ msg, publishStep ticker data price date signal ich fs = (Throw msg, fs, []))
  ∨ (∃ d, publishStep ticker data price date signal ich fs
          = (Ok (), {| historyFile := historyFile fs; websiteFile := Some d |},
             [WriteWebsite d])
        ∧ signalHistory d = signalsArray (ledger fs)
        ∧ w_signal d = signalOrNeutral signal).
Proof.
  unfold publishStep.
  erewrite bind_ok by reflexivity.
  assert (Hread : (if match historyFile fs with Some _ => true | None => false end
                   then readHistory else ret ∅) fs = (Ok (ledger fs), fs, []))
    by (destruct fs as [[h|] w]; reflexivity).
  erewrite bind_ok by exact Hread.
  destruct (displayHistory_pure data (sliceFrom data (-40)) 0 fs) as [[entries|msg] Hr].
  - erewrite bind_ok by exact Hr. right. eexists. split; [reflexivity|].
    split; reflexivity.
  - erewrite bind_throw by exact Hr. left. by eexists.
Qed.

Lemma alertStep_eval (signal iso : string) (price : number) (fs : Files) :
  alertStep ticker toFixed2 signal iso price fs
  = if nonEmpty signal then
      if truthyAt (ledger fs) (historyKey signal iso) then (Ok (), fs, [])
      else (Ok (),
            withHistory fs (<[historyKey signal iso := true]> (ledger fs)),
            (createdHistory fs
             ++ [WriteHistory (<[historyKey signal iso := true]> (ledger fs));
                 SendEmail (alertSubject ticker signal)
                           (alertBody ticker toFixed2 signal price)])%list)
    else (Ok (), fs, []).
Proof.
  unfold alertStep. destruct (nonEmpty signal); [|reflexivity].
  destruct (truthyAt (ledger fs) (historyKey signal iso)) eqn:H.
  - erewrite bind_ok by (by apply checkAlertHistory_known). reflexivity.
  - erewrite bind_ok by (by apply checkAlertHistory_new). simpl.
    by rewrite <- app_assoc.
Qed.

Lemma publishStep_events (data : list Bar) (price : number) (date signal : string)
    (ich : Ichimoku) (fs : Files) :
  ∃ r rest,
    publishStep ticker data price date signal ich fs = (r, replay rest fs, rest)
    ∧ publishEvents fs rest.
Proof.
  destruct (publishStep_eval data price date signal ich fs)
    as [[msg ->]|[d [-> [Hd _]]]].
  - exists (Throw msg), []. split; [reflexivity|]. by left.
  - exists (Ok ()), [WriteWebsite d]. split; [reflexivity|]. right. eauto.
Qed.

Lemma run_eval (response : option (list Bar)) (fs : Files) :
  ∃ out price rest,
    run ticker toFixed2 response fs
    = (out, replay rest (afterAlert fs (latestAlert response)),
       (alertEvents ticker toFixed2 fs (latestAlert response) price ++ rest)%list)
    ∧ publishEvents (afterAlert fs (latestAlert response)) rest.
Proof.
  unfold run, runBody, latestAlert.
  destruct response as [rows|]; simpl.
  2: { exists (Exited 1), Num.NaN, []. split; [reflexivity|]. by left. }
  erewrite bind_ok by reflexivity.
  set (data := filter (λ d, validRow d = true) rows).
  destruct (Z.of_nat (length data) <? 80).
  { exists Returned, Num.NaN, []. split; [reflexivity|]. by left. }
  destruct (at_index data (Z.of_nat (length data) - 1)) as [latest|].
  2: { exists (Exited 1), Num.NaN, []. split; [reflexivity|]. by left. }
  destruct (date latest) as [iso|]; simpl.
  2: { exists (Exited 1), Num.NaN, [].
       destruct (getIchimokuAt data (Z.of_nat (length data) - 1));
         (split; [reflexivity|by left]). }
  erewrite bind_ok by reflexivity.
  destruct (getIchimokuAt data (Z.of_nat (length data) - 1)) as [ich|].
  2: { exists (Exited 1), Num.NaN, []. split; [reflexivity|]. by left. }
  set (signal := evalSignal (close latest) ich).
  pose proof (alertStep_eval signal iso (close latest) fs) as Halert.
  destruct (nonEmpty signal) eqn:Hs; simpl.
  - destruct (truthyAt (ledger fs) (historyKey signal iso)) eqn:Hk.
    + erewrite bind_ok by exact Halert.
      destruct (publishStep_events data (close latest) iso signal ich fs)
        as (r & rest & -> & Hrest).
      exists (match r with Ok _ => Returned | Throw _ => Exited 1 end),
        (close latest), rest.
      split; [by destruct r|done].
    + erewrite bind_ok by exact Halert.
      destruct (publishStep_events data (close latest) iso signal ich
                  (withHistory fs (<[historyKey signal iso := true]> (ledger fs))))
        as (r & rest & -> & Hrest).
      exists (match r with Ok _ => Returned | Throw _ => Exited 1 end),
        (close latest), rest.
      split; [by destruct r|done].
  - erewrite bind_ok by exact Halert.
    destruct (publishStep_events data (close latest) iso signal ich fs)
      as (r & rest & -> & Hrest).
    exists (match r with Ok _ => Returned | Throw _ => Exited 1 end),
      (close latest), rest.
    split; [by destruct r|done].
Qed.

End Runs.

(** C8.  When fewer than 80 rows survive the NaN filter, the run returns
    normally (no [process.exit]), the files are as before (neither the
    alert history nor the website data is written) and the trace is empty
    (no e-mail). *)
Theorem run_insufficient_history (ticker : string) (toFixed2 : number → string)
    (rows : list Bar) (fs : Files) :
  (length (filter (λ d, validRow d = true) rows) < 80)%nat →
  run ticker toFixed2 (Some rows) fs = (Returned, fs, []).
Proof.
  intros H. unfold run, runBody, fetchHistoricalData, bind, ret.
  destruct (Z.ltb_spec (Z.of_nat (length (filter (λ d, validRow d = true) rows))) 80);
    [reflexivity | lia].
Qed.

Lemma run_insufficient_history_witness :
  run "GLD" plainFixed (Some (replicate 62 (flatBar day1 100))) noFiles
  = (Returned, noFiles, []).
Proof.
  apply run_insufficient_history. vm_compute. lia.
Defined.

(* ===================================================================== *)
(** ** Keys of the alert history *)
(* ===================================================================== *)

Section Strings.

Lemma split_cons (sep : ascii) (s : string) :
  ∃ p ps, Str.split sep s = p :: ps.
Proof.
  destruct s as [|c s]; simpl; [by eexists _, _|].
  destruct (Ascii.eqb c sep); [by eexists _, _|].
  destruct (Str.split sep s); by eexists _, _.
Qed.

Lemma join_cons (sep p q : string) (ps : list string) :
  Str.join sep (p :: q :: ps) = (p ++ sep ++ Str.join sep (q :: ps))%string.
Proof. reflexivity. Qed.

Lemma join_split (s : string) :
  Str.join "-" (Str.split dash s) = s.
Proof.
  induction s as [|c s IH]; [reflexivity|].
  cbn [Str.split].
  destruct (split_cons dash s) as (p & ps & Hs). rewrite Hs in *.
  destruct (Ascii.eqb_spec c dash) as [->|Hc].
  - rewrite join_cons, IH. reflexivity.
  - destruct ps as [|q ps].
    + cbn [Str.join] in *. by rewrite IH.
    + rewrite join_cons in *. rewrite <- IH. reflexivity.
Qed.

Lemma split_prefix (sep : ascii) (t d : string) :
  lacks sep t = true →
  Str.split sep (t ++ String sep d) = t :: Str.split sep d.
Proof.
  induction t as [|c t IH]; simpl; intros H.
  - by rewrite Ascii.eqb_refl.
  - apply andb_true_iff in H as [Hc Ht]. apply negb_true_iff in Hc.
    rewrite Hc, (IH Ht). reflexivity.
Qed.

Lemma firstPart_lacks (sep : ascii) (s : string) :
  lacks sep s = true → Str.firstPart sep s = s.
Proof.
  unfold Str.firstPart. induction s as [|c s IH]; simpl; intros H; [done|].
  apply andb_true_iff in H as [Hc Hs]. apply negb_true_iff in Hc. rewrite Hc.
  specialize (IH Hs). destruct (Str.split sep s); simpl in *; by subst.
Qed.

Lemma slice_tail {A : Type} (x : A) (l : list A) :
  slice (x :: l) 1 (Z.of_nat (length (x :: l))) = l.
Proof.
  unfold slice, relIndex. simpl length.
  destruct (Z.ltb_spec 1 0); [lia|].
  destruct (Z.ltb_spec (Z.of_nat (S (length l))) 0); [lia|].
  replace (Z.to_nat (Z.min 1 (Z.of_nat (S (length l))))) with 1%nat by lia.
  simpl. apply take_ge. lia.
Qed.

Lemma parseKey_split (key p : string) (ps : list string) :
  Str.split dash key = p :: ps →
  parseKey key = {| se_type := p; se_date := Str.join "-" ps |}.
Proof. intros H. unfold parseKey. rewrite H. by rewrite slice_tail. Qed.

Lemma parseKey_build (T D : string) :
  isAlertType T → parseKey (T ++ "-" ++ D) = {| se_type := T; se_date := D |}.
Proof.
  intros HT. erewrite parseKey_split.
  2: { apply (split_prefix dash T D). by destruct HT as [-> | ->]. }
  by rewrite join_split.
Qed.

(** A key with a non-empty date part is determined by what it parses to. *)
Lemma parseKey_inv (key : string) :
  se_date (parseKey key) ≠ ""%string →
  key = (se_type (parseKey key) ++ "-" ++ se_date (parseKey key))%string.
Proof.
  destruct (split_cons dash key) as (p & ps & Hs).
  rewrite (parseKey_split _ _ _ Hs). simpl. intros Hd.
  rewrite <- (join_split key) at 1. rewrite Hs.
  destruct ps as [|q ps]; [done|]. by rewrite join_cons.
Qed.

End Strings.

Section SignalHistory.

Context {A B : Type} `{EqDecision A} `{EqDecision B}.

Lemma occurrences_absent (x : A) (l : list A) :
  x ∉ l → occurrences x l = 0%nat.
Proof.
  unfold occurrences. induction l as [|y l IH]; intros Hx; [done|].
  apply not_elem_of_cons in Hx as [Hne Hx]. simpl.
  rewrite bool_decide_eq_false_2 by congruence. by apply IH.
Qed.

Lemma occurrences_NoDup (x : A) (l : list A) :
  NoDup l → x ∈ l → occurrences x l = 1%nat.
Proof.
  induction 1 as [|y l Hy Hl IH]; intros Hin; [by apply elem_of_nil in Hin|].
  unfold occurrences in *. simpl.
  apply elem_of_cons in Hin as [->|Hin].
  - rewrite bool_decide_eq_true_2 by done. simpl.
    f_equal. by apply occurrences_absent.
  - rewrite bool_decide_eq_false_2 by (intros ->; done). by apply IH.
Qed.

Lemma occurrences_fmap (f : A → B) (x : A) (l : list A) :
  (∀ y, y ∈ l → f y = f x → y = x) →
  occurrences (f x) (f <$> l) = occurrences x l.
Proof.
  unfold occurrences. induction l as [|y l IH]; intros Hinj; [done|].
  rewrite fmap_cons. cbn [List.filter].
  assert (IH' : length (List.filter (λ y, bool_decide (y = f x)) (f <$> l)) = length (List.filter (λ y, bool_decide (y = x)) l)) by (apply IH; intros z Hz; apply Hinj; by right).
  destruct (decide (y = x)) as [->|Hne].
  - rewrite !bool_decide_eq_true_2 by done. cbn [length]. by rewrite IH'.
  - rewrite !bool_decide_eq_false_2; [done|done|].
    intros Hf. apply Hne, Hinj; [by left|done].
Qed.

End SignalHistory.

Section LedgerEvents.

Lemma elem_of_keys (h : gmap string bool) (key : string) :
  key ∈ (map_to_list h).*1 ↔ is_Some (h !! key).
Proof.
  rewrite list_elem_of_fmap. split.
  - intros [[k b] [-> Hkb]]. apply elem_of_map_to_list in Hkb. by eexists.
  - intros [b Hb]. exists (key, b). split; [done|]. by apply elem_of_map_to_list.
Qed.

Lemma elem_of_signalsArray (h : gmap string bool) (e : SignalEvent) :
  e ∈ signalsArray h ↔ ∃ key, is_Some (h !! key) ∧ e = parseKey key.
Proof.
  unfold signalsArray. rewrite list_elem_of_fmap. split.
  - intros [key [-> Hk]]. exists key. by rewrite <- elem_of_keys.
  - intros [key [Hk ->]]. exists key. by rewrite elem_of_keys.
Qed.

Lemma truthyAt_is_Some (h : gmap string bool) (key : string) :
  truthyAt h key = true → is_Some (h !! key).
Proof. unfold truthyAt. destruct (h !! key); [by eexists|done]. Qed.

Lemma elem_of_signalsArray_insert (h : gmap string bool) (key : string) (e : SignalEvent) :
  e ∈ signalsArray (<[key := true]> h) ↔ e = parseKey key ∨ e ∈ signalsArray h.
Proof.
  rewrite !elem_of_signalsArray. split.
  - intros [k [Hk ->]]. destruct (decide (key = k)) as [->|Hne]; [by left|].
    right. exists k. by rewrite lookup_insert_ne in Hk.
  - intros [->|[k [Hk ->]]].
    + exists key. by rewrite lookup_insert_eq.
    + exists k. split; [|done]. destruct (decide (key = k)) as [->|Hne].
      * by rewrite lookup_insert_eq.
      * by rewrite lookup_insert_ne.
Qed.

(** The ledger after one call of [checkAlertHistory]. *)
Lemma checkAlertHistory_ledger (signal iso : string) (fs : Files) :
  ledger (checkAlertHistory signal iso fs).1.2
  = if truthyAt (ledger fs) (historyKey signal iso) then ledger fs
    else <[historyKey signal iso := true]> (ledger fs).
Proof.
  destruct (truthyAt (ledger fs) (historyKey signal iso)) eqn:H.
  - by rewrite checkAlertHistory_known.
  - by rewrite checkAlertHistory_new.
Qed.

Lemma parseKey_historyKey (T iso : string) :
  isAlertType T →
  parseKey (historyKey T iso) = {| se_type := T; se_date := dayOf iso |}.
Proof. intros HT. unfold historyKey. by apply parseKey_build. Qed.

Lemma recordAll_events (calls : list (string * string)) (fs : Files) (e : SignalEvent) :
  Forall (λ c, isAlertType c.1) calls →
  e ∈ signalsArray (ledger (recordAll calls fs))
  ↔ e ∈ signalsArray (ledger fs) ∨ e ∈ eventOf <$> calls.
Proof.
  intros Hcalls. revert fs.
  induction Hcalls as [|[signal iso] calls HT _ IH]; intros fs; simpl.
  - rewrite elem_of_nil. tauto.
  - rewrite IH, checkAlertHistory_ledger, elem_of_cons.
    unfold eventOf at 2. simpl in *.
    rewrite <- (parseKey_historyKey signal iso HT).
    destruct (truthyAt (ledger fs) (historyKey signal iso)) eqn:Hk.
    + assert (parseKey (historyKey signal iso) ∈ signalsArray (ledger fs)).
      { apply elem_of_signalsArray. eexists. split; [|done].
        by apply truthyAt_is_Some. }
      split; [tauto|]. intros [?|[->|?]]; tauto.
    + rewrite elem_of_signalsArray_insert. tauto.
Qed.

End LedgerEvents.

Section LedgerClaims.

Lemma hasFired_historyKey (fs : Files) (signal iso : string) :
  hasFired fs signal (dayOf iso) = truthyAt (ledger fs) (historyKey signal iso).
Proof. reflexivity. Qed.

Lemma occurrences_key (h : gmap string bool) (key : string) :
  truthyAt h key = true → occurrences key (map_to_list h).*1 = 1%nat.
Proof.
  intros H. apply occurrences_NoDup; [apply NoDup_fst_map_to_list|].
  by apply elem_of_keys, truthyAt_is_Some.
Qed.

Lemma occurrences_event (h : gmap string bool) (signal iso : string) :
  isAlertType signal → dayOf iso ≠ ""%string →
  truthyAt h (historyKey signal iso) = true →
  occurrences {| se_type := signal; se_date := dayOf iso |} (signalsArray h) = 1%nat.
Proof.
  intros HT Hday Hk. rewrite <- (parseKey_historyKey signal iso HT).
  unfold signalsArray. rewrite occurrences_fmap; [by apply occurrences_key|].
  intros key _ Hparse. rewrite (parseKey_historyKey signal iso HT) in Hparse.
  rewrite (parseKey_inv key); rewrite Hparse; done.
Qed.

(** C5.  Recording is idempotent: after one call of [checkAlertHistory] for
    a BUY or SELL signal and a date, a second call with the same arguments
    returns normally, reports the alert as known, writes nothing and
    leaves the files as they are.  After the first call the alert has
    fired, the ledger holds exactly one key for it, and (the day being a
    non-empty string) the signal history derived from the ledger holds
    exactly one event for it. *)
Theorem checkAlertHistory_idempotent (signal iso : string) (fs : Files) :
  isAlertType signal →
  let '(r1, fs1, _) := checkAlertHistory signal iso fs in
  let '(r2, fs2, tr2) := checkAlertHistory signal iso fs1 in
  (∃ fired, r1 = Ok fired)
  ∧ r2 = Ok true ∧ tr2 = [] ∧ fs2 = fs1
  ∧ hasFired fs1 signal (dayOf iso) = true
  ∧ occurrences (historyKey signal iso) (map_to_list (ledger fs1)).*1 = 1%nat
  ∧ (dayOf iso ≠ ""%string →
     occurrences {| se_type := signal; se_date := dayOf iso |}
       (signalsArray (ledger fs1)) = 1%nat).
Proof.
  intros HT.
  destruct (truthyAt (ledger fs) (historyKey signal iso)) eqn:Hk.
  - rewrite !(checkAlertHistory_known _ _ _ Hk).
    repeat split; eauto using occurrences_key, occurrences_event.
  - rewrite (checkAlertHistory_new _ _ _ Hk).
    set (h := <[historyKey signal iso := true]> (ledger fs)).
    assert (Hh : truthyAt (ledger (withHistory fs h)) (historyKey signal iso) = true)
      by apply truthyAt_insert.
    rewrite (checkAlertHistory_known _ _ _ Hh).
    repeat split; eauto using occurrences_key, occurrences_event.
Qed.

Lemma checkAlertHistory_idempotent_witness :
  let '(r1, fs1, _) := checkAlertHistory "BUY" day2 noFiles in
  let '(r2, fs2, tr2) := checkAlertHistory "BUY" day2 fs1 in
  (∃ fired, r1 = Ok fired)
  ∧ r2 = Ok true ∧ tr2 = [] ∧ fs2 = fs1
  ∧ hasFired fs1 "BUY" (dayOf day2) = true
  ∧ occurrences (historyKey "BUY" day2) (map_to_list (ledger fs1)).*1 = 1%nat
  ∧ (dayOf day2 ≠ ""%string →
     occurrences {| se_type := "BUY"; se_date := dayOf day2 |}
       (signalsArray (ledger fs1)) = 1%nat).
Proof. apply (checkAlertHistory_idempotent "BUY" day2 noFiles). by left. Defined.

End LedgerClaims.

(* ===================================================================== *)
(** ** Runs and the alert history *)
(* ===================================================================== *)

Section RunFacts.

Variable ticker : string.
Variable toFixed2 : number → string.

Lemma replay_publish (fs x : Files) (rest : list Event) :
  publishEvents fs rest →
  historyFile (replay rest x) = historyFile x ∧ emails rest = [].
Proof. intros [->|[d [-> _]]]; by split. Qed.

Lemma emails_app (tr1 tr2 : list Event) :
  emails (tr1 ++ tr2) = (emails tr1 ++ emails tr2)%list.
Proof. apply List.filter_app. Qed.

Lemma emails_createdHistory (fs : Files) : emails (createdHistory fs) = [].
Proof. unfold createdHistory. by destruct (historyFile fs). Qed.

Lemma emails_alertEvents (fs : Files) (alert : option (string * string)) (price : number) :
  emails (alertEvents ticker toFixed2 fs alert price)
  = match alert with
    | Some (signal, iso) =>
        if truthyAt (ledger fs) (historyKey signal iso) then []
        else [SendEmail (alertSubject ticker signal)
                        (alertBody ticker toFixed2 signal price)]
    | None => []
    end.
Proof.
  destruct alert as [[signal iso]|]; [|done]. simpl.
  destruct (truthyAt (ledger fs) (historyKey signal iso)); [done|].
  by rewrite emails_app, emails_createdHistory.
Qed.

(** The alert history after a run, and the e-mails of the run. *)
Lemma run_history (response : option (list Bar)) (fs : Files) :
  historyFile (run ticker toFixed2 response fs).1.2
  = historyFile (afterAlert fs (latestAlert response)).
Proof.
  destruct (run_eval ticker toFixed2 response fs) as (out & price & rest & -> & Hrest).
  simpl. by apply (replay_publish _ _ _ Hrest).
Qed.

Lemma run_ledger (response : option (list Bar)) (fs : Files) :
  ledger (run ticker toFixed2 response fs).1.2
  = ledger (afterAlert fs (latestAlert response)).
Proof. unfold ledger. by rewrite run_history. Qed.

Lemma run_emails (response : option (list Bar)) (fs : Files) :
  ∃ price,
    emails (run ticker toFixed2 response fs).2
    = emails (alertEvents ticker toFixed2 fs (latestAlert response) price).
Proof.
  destruct (run_eval ticker toFixed2 response fs) as (out & price & rest & -> & Hrest).
  exists price. simpl. rewrite emails_app.
  destruct (replay_publish _ fs _ Hrest) as [_ ->]. by rewrite app_nil_r.
Qed.

Lemma run_known (response : option (list Bar)) (fs : Files) (signal iso : string) :
  latestAlert response = Some (signal, iso) →
  hasFired fs signal (dayOf iso) = true →
  emails (run ticker toFixed2 response fs).2 = []
  ∧ historyFile (run ticker toFixed2 response fs).1.2 = historyFile fs.
Proof.
  intros Hr Hk. rewrite hasFired_historyKey in Hk.
  destruct (run_emails response fs) as [price ->].
  rewrite emails_alertEvents, run_history, Hr. simpl. by rewrite Hk.
Qed.

Lemma run_new (response : option (list Bar)) (fs : Files) (signal iso : string) :
  latestAlert response = Some (signal, iso) →
  hasFired fs signal (dayOf iso) = false →
  (∃ price, emails (run ticker toFixed2 response fs).2
            = [SendEmail (alertSubject ticker signal)
                         (alertBody ticker toFixed2 signal price)])
  ∧ hasFired (run ticker toFixed2 response fs).1.2 signal (dayOf iso) = true.
Proof.
  intros Hr Hk. rewrite hasFired_historyKey in *. split.
  - destruct (run_emails response fs) as [price ->]. exists price.
    rewrite emails_alertEvents, Hr. by rewrite Hk.
  - rewrite run_ledger, Hr. simpl. rewrite Hk. apply truthyAt_insert.
Qed.

(** No run removes an alert from the history. *)
Lemma run_keeps (response : option (list Bar)) (fs : Files) (signal day : string) :
  hasFired fs signal day = true →
  hasFired (run ticker toFixed2 response fs).1.2 signal day = true.
Proof.
  unfold hasFired. rewrite run_ledger. intros Hk.
  destruct (latestAlert response) as [[s iso]|]; simpl; [|done].
  destruct (truthyAt (ledger fs) (historyKey s iso)); [done|].
  by apply truthyAt_insert_mono.
Qed.

Lemma filesAfter_keeps (responses : list (option (list Bar))) (fs : Files)
    (signal day : string) :
  hasFired fs signal day = true →
  hasFired (filesAfter ticker toFixed2 responses fs) signal day = true.
Proof.
  revert fs. induction responses as [|r rs IH]; intros fs H; simpl; [done|].
  by apply IH, run_keeps.
Qed.

Lemma yieldsb_yields (response : option (list Bar)) (S D : string) :
  yieldsb response S D = true ↔ yields response S D.
Proof.
  unfold yieldsb, yields. destruct (latestAlert response) as [[s iso]|].
  - rewrite andb_true_iff, !String.eqb_eq. split.
    + intros [-> <-]. by exists iso.
    + intros [iso' [[= -> ->] <-]]. done.
  - split; [done|]. by intros [iso' [? _]].
Qed.

Lemma notifications_known (S D : string) (responses : list (option (list Bar)))
    (fs : Files) :
  hasFired fs S D = true → notifications ticker toFixed2 S D responses fs = 0%nat.
Proof.
  revert fs. induction responses as [|r rs IH]; intros fs Hk; simpl; [done|].
  destruct (run ticker toFixed2 r fs) as [[out fs'] tr] eqn:Hrun.
  assert (Hfs' : fs' = (run ticker toFixed2 r fs).1.2) by by rewrite Hrun.
  assert (Htr : tr = (run ticker toFixed2 r fs).2) by by rewrite Hrun.
  rewrite IH by (subst fs'; by apply run_keeps).
  destruct (yieldsb r S D) eqn:Hy; [|done].
  apply yieldsb_yields in Hy as [iso [Hr <-]].
  destruct (run_known r fs S iso Hr Hk) as [He _].
  rewrite Htr, He. done.
Qed.

Lemma notifications_once (S D : string) (responses : list (option (list Bar)))
    (fs : Files) :
  (notifications ticker toFixed2 S D responses fs ≤ 1)%nat.
Proof.
  revert fs. induction responses as [|r rs IH]; intros fs; simpl; [lia|].
  destruct (run ticker toFixed2 r fs) as [[out fs'] tr] eqn:Hrun.
  assert (Hfs' : fs' = (run ticker toFixed2 r fs).1.2) by by rewrite Hrun.
  assert (Htr : tr = (run ticker toFixed2 r fs).2) by by rewrite Hrun.
  destruct (yieldsb r S D) eqn:Hy; simpl; [|apply IH].
  apply yieldsb_yields in Hy as [iso [Hr <-]].
  destruct (hasFired fs S (dayOf iso)) eqn:Hk.
  - destruct (run_known r fs S iso Hr Hk) as [He _].
    rewrite Htr, He. simpl. apply IH.
  - destruct (run_new r fs S iso Hr Hk) as [_ Hk'].
    rewrite notifications_known by (by subst fs').
    destruct (negb _); lia.
Qed.

End RunFacts.

(* ===================================================================== *)
(** ** Magnitudes through rounding *)
(* ===================================================================== *)

Section Digits.

Lemma fexp_eq (e : Z) : fexp 53 1024 e = Z.max (e - 53) (-1074).
Proof. reflexivity. Qed.

Lemma digits2_pos_bounds (p : positive) :
  2 ^ (Zpos (digits2_pos p) - 1) ≤ Zpos p < 2 ^ Zpos (digits2_pos p).
Proof.
  induction p as [p IH|p IH|]; simpl digits2_pos.
  - rewrite Pos2Z.inj_succ.
    replace (Z.succ (Z.pos (digits2_pos p)) - 1) with (Z.succ (Z.pos (digits2_pos p) - 1)) by lia.
    rewrite !Z.pow_succ_r by lia. lia.
  - rewrite Pos2Z.inj_succ.
    replace (Z.succ (Z.pos (digits2_pos p)) - 1) with (Z.succ (Z.pos (digits2_pos p) - 1)) by lia.
    rewrite !Z.pow_succ_r by lia. lia.
  - simpl. lia.
Qed.

Lemma Zdigits2_nonneg (z : Z) : 0 ≤ Zdigits2 z.
Proof. destruct z; simpl; lia. Qed.

Lemma Zdigits2_le (z k : Z) : 0 ≤ z → 0 ≤ k → z < 2 ^ k → Zdigits2 z ≤ k.
Proof.
  intros Hz Hk Hlt. destruct z as [|p|p]; simpl; [lia| |lia].
  destruct (Z.le_gt_cases (Zpos (digits2_pos p)) k) as [|Hgt]; [done|].
  pose proof (digits2_pos_bounds p) as [Hlo _].
  assert (2 ^ k ≤ 2 ^ (Zpos (digits2_pos p) - 1)) by (apply Z.pow_le_mono_r; lia).
  lia.
Qed.

Lemma Zdigits2_lt (z : Z) : 0 ≤ z → z < 2 ^ Zdigits2 z.
Proof.
  intros Hz. destruct z as [|p|p]; simpl; [lia| |lia].
  apply digits2_pos_bounds.
Qed.

Lemma Zdigits2_succ (z : Z) : 0 ≤ z → Zdigits2 (z + 1) ≤ Zdigits2 z + 1.
Proof.
  intros Hz. pose proof (Zdigits2_nonneg z). pose proof (Zdigits2_lt z Hz).
  apply Zdigits2_le; [lia|lia|]. rewrite Z.pow_add_r by lia. lia.
Qed.

Lemma Zdigits2_add (a b k : Z) :
  0 ≤ a → 0 ≤ b → Zdigits2 a ≤ k → Zdigits2 b ≤ k → Zdigits2 (a + b) ≤ k + 1.
Proof.
  intros Ha Hb Hak Hbk.
  pose proof (Zdigits2_nonneg a). pose proof (Zdigits2_lt a Ha). pose proof (Zdigits2_lt b Hb).
  assert (2 ^ Zdigits2 a ≤ 2 ^ k) by (apply Z.pow_le_mono_r; lia).
  assert (2 ^ Zdigits2 b ≤ 2 ^ k) by (apply Z.pow_le_mono_r; pose proof (Zdigits2_nonneg b); lia).
  apply Zdigits2_le; [lia|lia|]. rewrite Z.pow_add_r by lia. lia.
Qed.

Lemma Zdigits2_mono (a b : Z) : 0 ≤ a → a ≤ b → Zdigits2 a ≤ Zdigits2 b.
Proof.
  intros Ha Hab. pose proof (Zdigits2_lt b ltac:(lia)).
  apply Zdigits2_le; [lia|apply Zdigits2_nonneg|lia].
Qed.

Lemma digits2_pos_iter_xO (m d : positive) :
  Zpos (digits2_pos (Pos.iter xO m d)) = Zpos (digits2_pos m) + Zpos d.
Proof.
  induction d as [|d IH] using Pos.peano_ind.
  - simpl. lia.
  - rewrite Pos.iter_succ. simpl digits2_pos. lia.
Qed.

(** One step of the right shift halves a non-negative mantissa. *)
Lemma shr_1_digits (mrs : shr_record) :
  0 ≤ shr_m mrs →
  0 ≤ shr_m (shr_1 mrs)
  ∧ Zdigits2 (shr_m (shr_1 mrs)) = Z.max (Zdigits2 (shr_m mrs) - 1) 0.
Proof.
  destruct mrs as [m r s]. simpl. intros Hm.
  destruct m as [|[p|p|]|p]; simpl; try lia.
Qed.

Lemma iter_shr_1_digits (p : positive) (mrs : shr_record) :
  0 ≤ shr_m mrs →
  0 ≤ shr_m (SpecFloat.iter_pos shr_1 p mrs)
  ∧ Zdigits2 (shr_m (SpecFloat.iter_pos shr_1 p mrs)) = Z.max (Zdigits2 (shr_m mrs) - Zpos p) 0.
Proof.
  revert mrs. induction p as [p IH|p IH|]; intros mrs Hm; simpl SpecFloat.iter_pos.
  - destruct (shr_1_digits mrs Hm) as [H1 E1].
    destruct (IH _ H1) as [H2 E2]. destruct (IH _ H2) as [H3 E3].
    split; [done|]. rewrite E3, E2, E1. lia.
  - destruct (IH _ Hm) as [H2 E2]. destruct (IH _ H2) as [H3 E3].
    split; [done|]. rewrite E3, E2. lia.
  - apply shr_1_digits, Hm.
Qed.

End Digits.

Section Rounding.

Lemma shr_digits (mrs : shr_record) (e n : Z) :
  0 ≤ shr_m mrs →
  0 ≤ shr_m (shr mrs e n).1
  ∧ (shr mrs e n).2 = Z.max e (e + n)
  ∧ Zdigits2 (shr_m (shr mrs e n).1) + (shr mrs e n).2
    = Z.max (Zdigits2 (shr_m mrs) + e) (shr mrs e n).2.
Proof.
  intros Hm. pose proof (Zdigits2_nonneg (shr_m mrs)).
  destruct n as [|p|p]; simpl; [lia| |lia].
  destruct (iter_shr_1_digits p mrs Hm) as [H1 E1]. rewrite E1. lia.
Qed.

Lemma shr_m_of_loc (m : Z) (l : location) : shr_m (shr_record_of_loc m l) = m.
Proof. by destruct l as [|[]]. Qed.

Lemma shr_fexp_digits (m e : Z) (l : location) :
  0 ≤ m →
  0 ≤ shr_m (shr_fexp 53 1024 m e l).1
  ∧ (shr_fexp 53 1024 m e l).2 = Z.max e (fexp 53 1024 (Zdigits2 m + e))
  ∧ Zdigits2 (shr_m (shr_fexp 53 1024 m e l).1) + (shr_fexp 53 1024 m e l).2
    = Z.max (Zdigits2 m + e) (shr_fexp 53 1024 m e l).2.
Proof.
  intros Hm. unfold shr_fexp.
  pose proof (shr_digits (shr_record_of_loc m l) e
                (fexp 53 1024 (Zdigits2 m + e) - e)) as H.
  rewrite shr_m_of_loc in H. destruct (H Hm) as (H1 & H2 & H3).
  split; [done|]. split; [lia|done].
Qed.

Lemma round_nearest_even_digits (m : Z) (l : location) :
  0 ≤ m →
  0 ≤ round_nearest_even m l
  ∧ Zdigits2 (round_nearest_even m l) ≤ Zdigits2 m + 1.
Proof.
  intros Hm. pose proof (Zdigits2_succ m Hm).
  unfold round_nearest_even.
  destruct l as [|[]]; try destruct (Z.even m); split; lia.
Qed.

Lemma binary_round_aux_below (s : bool) (m e : Z) (l : location) :
  0 ≤ m → e ≤ 971 → Zdigits2 m + e ≤ 1023 →
  below (Z.max (Zdigits2 m + e) (-1074) + 1) (binary_round_aux 53 1024 s m e l).
Proof.
  intros Hm He HD. pose proof (Zdigits2_nonneg m) as Hd.
  unfold binary_round_aux.
  destruct (shr_fexp_digits m e l Hm) as (H1 & E1 & D1).
  destruct (shr_fexp 53 1024 m e l) as [mrs' e']. simpl in H1, E1, D1.
  destruct (round_nearest_even_digits (shr_m mrs') (loc_of_shr_record mrs') H1)
    as [H2 D2].
  set (m1 := round_nearest_even (shr_m mrs') (loc_of_shr_record mrs')) in *.
  destruct (shr_fexp_digits m1 e' loc_Exact H2) as (H3 & E3 & D3).
  destruct (shr_fexp 53 1024 m1 e' loc_Exact) as [mrs'' e'']. simpl in H3, E3, D3.
  rewrite fexp_eq in E1, E3.
  destruct (shr_m mrs'') as [|m''|m''] eqn:Hm''; [done| |lia].
  simpl in D3.
  destruct (Z.leb_spec e'' (1024 - 53)); simpl; lia.
Qed.

Lemma shl_align_digits (mx : positive) (ex ex' : Z) :
  Zpos (digits2_pos (shl_align mx ex ex').1) + (shl_align mx ex ex').2
  = Zpos (digits2_pos mx) + ex
  ∧ (shl_align mx ex ex').2 = Z.min ex ex'.
Proof.
  unfold shl_align. destruct (ex' - ex) as [|d|d] eqn:Hd; simpl; [lia|lia|].
  rewrite digits2_pos_iter_xO. lia.
Qed.

Lemma binary_round_below (s : bool) (mx : positive) (ex : Z) :
  Zpos (digits2_pos mx) + ex ≤ 1023 →
  below (Z.max (Zpos (digits2_pos mx) + ex) (-1074) + 1)
    (binary_round 53 1024 s mx ex).
Proof.
  intros HD. unfold binary_round.
  destruct (shl_align_digits mx ex (fexp 53 1024 (Zpos (digits2_pos mx) + ex)))
    as [D1 E1].
  destruct (shl_align mx ex _) as [mz ez]. simpl in D1, E1.
  rewrite fexp_eq in E1.
  pose proof (binary_round_aux_below s (Zpos mz) ez loc_Exact) as H.
  simpl Zdigits2 in H. rewrite D1 in H. apply H; lia.
Qed.

Lemma below_mono (K K' : Z) (x : number) : K ≤ K' → below K x → below K' x.
Proof. destruct x; simpl; lia. Qed.

Lemma below_finite (K : Z) (x : number) : below K x → Num.isFinite x = true.
Proof. by destruct x. Qed.

Lemma binary_normalize_below (z e K : Z) (szero : bool) :
  -1074 ≤ K → K ≤ 1023 → Zdigits2 z + e ≤ K →
  below (K + 1) (binary_normalize 53 1024 z e szero).
Proof.
  intros HK1 HK2 HD. destruct z as [|p|p]; simpl in *; [done| |].
  - eapply below_mono; [|apply binary_round_below]; lia.
  - eapply below_mono; [|apply binary_round_below]; lia.
Qed.

End Rounding.

Section Arithmetic.

Lemma Zdigits2_cond_Zopp_add (sx sy : bool) (a b : positive) (k : Z) :
  Zpos (digits2_pos a) ≤ k → Zpos (digits2_pos b) ≤ k →
  Zdigits2 (cond_Zopp sx (Zpos a) + cond_Zopp sy (Zpos b)) ≤ k + 1.
Proof.
  intros Ha Hb.
  assert (Habs : ∀ z, Zdigits2 z = Zdigits2 (Z.abs z)) by (by intros [|p|p]).
  rewrite Habs.
  etransitivity; [apply (Zdigits2_mono _ (Zpos a + Zpos b))|].
  - lia.
  - destruct sx, sy; simpl cond_Zopp; lia.
  - apply Zdigits2_add; simpl; lia.
Qed.

Lemma add_below (K : Z) (x y : number) :
  -1075 ≤ K → K ≤ 1022 → below K x → below K y → below (K + 2) (Num.add x y).
Proof.
  intros HK1 HK2 Hx Hy.
  destruct x as [sx|sx| |sx mx ex], y as [sy|sy| |sy my ey]; try done.
  - by destruct sx, sy.
  - simpl in *. lia.
  - simpl in *. lia.
  - unfold Num.add, SFadd, Num.prec, Num.emax. simpl in Hx, Hy.
    destruct (shl_align_digits mx ex (Z.min ex ey)) as [Dx Ex].
    destruct (shl_align_digits my ey (Z.min ex ey)) as [Dy Ey].
    replace (K + 2) with ((K + 1) + 1) by lia.
    apply binary_normalize_below; [lia|lia|].
    pose proof (Zdigits2_cond_Zopp_add sx sy
                  (shl_align mx ex (Z.min ex ey)).1
                  (shl_align my ey (Z.min ex ey)).1
                  (K - Z.min ex ey)) as H.
    rewrite Ex in Dx. rewrite Ey in Dy.
    specialize (H ltac:(lia) ltac:(lia)). lia.
Qed.

Lemma two_eq : two = S754_finite false 4503599627370496 (-51).
Proof. reflexivity. Qed.

Lemma div_quotient_digits (m s : Z) :
  0 ≤ m → 0 ≤ s →
  0 ≤ m * 2 ^ s / 4503599627370496
  ∧ Zdigits2 (m * 2 ^ s / 4503599627370496) ≤ Z.max (Zdigits2 m + s - 52) 0.
Proof.
  intros Hm Hs. set (q := m * 2 ^ s / 4503599627370496).
  pose proof (Zdigits2_nonneg m) as Hd. pose proof (Zdigits2_lt m Hm) as Hlt.
  assert (Hpow : 0 < 2 ^ s) by (apply Z.pow_pos_nonneg; lia).
  assert (Hq : 0 ≤ q) by (apply Z.div_pos; lia).
  split; [done|].
  assert (Hm' : m * 2 ^ s < 2 ^ (Zdigits2 m + s)) by (rewrite Z.pow_add_r by lia; nia).
  destruct (Z.le_gt_cases 52 (Zdigits2 m + s)) as [Hge|Hlt52].
  - apply Zdigits2_le; [done|lia|].
    rewrite Z.max_l by lia.
    apply Z.div_lt_upper_bound; [lia|].
    change 4503599627370496 with (2 ^ 52).
    rewrite <- Z.pow_add_r by lia.
    replace (52 + (Zdigits2 m + s - 52)) with (Zdigits2 m + s) by lia. done.
  - assert (2 ^ (Zdigits2 m + s) ≤ 2 ^ 52) by (apply Z.pow_le_mono_r; lia).
    assert (q = 0) as ->.
    { apply Z.div_small. change 4503599627370496 with (2 ^ 52). lia. }
    simpl. lia.
Qed.

Lemma div_two_below (K : Z) (x : number) :
  -1073 ≤ K → K ≤ 1024 → below K x → below K (Num.div x two).
Proof.
  intros HK1 HK2 Hx. rewrite two_eq.
  destruct x as [sx|sx| |sx mx ex]; try done.
  simpl in Hx.
  unfold Num.div, SFdiv, SFdiv_core_binary, Num.prec, Num.emax.
  change (Zdigits2 (Zpos 4503599627370496)) with 53.
  simpl Zdigits2. rewrite fexp_eq.
  set (d1 := Zpos (digits2_pos mx)) in *.
  set (e' := Z.min (Z.max (d1 + ex - (53 + -51) - 53) (-1074)) (ex - -51)).
  set (s := ex - -51 - e').
  assert (Hs : 0 ≤ s) by (unfold s, e'; lia).
  set (m' := match s with Z0 => Zpos mx | Zpos _ => Z.shiftl (Zpos mx) s | Zneg _ => 0 end).
  assert (Hm' : m' = Zpos mx * 2 ^ s).
  { unfold m'. destruct s as [|p|p]; [simpl; lia| |lia].
    by rewrite Z.shiftl_mul_pow2. }
  assert (Hdiv : Z.div_eucl m' 4503599627370496
                 = (m' / 4503599627370496, m' mod 4503599627370496)).
  { unfold Z.div, Z.modulo. by destruct (Z.div_eucl m' 4503599627370496). }
  rewrite Hdiv.
  destruct (div_quotient_digits (Zpos mx) s ltac:(lia) Hs) as [Hq Dq].
  rewrite <- Hm' in Hq, Dq. simpl Zdigits2 in Dq. fold d1 in Dq.
  eapply below_mono; [|apply binary_round_aux_below]; unfold e' in *; lia.
Qed.

Lemma mid_below (K : Z) (hl : HL) :
  -1075 ≤ K → K ≤ 1022 → below K (hl_h hl) → below K (hl_l hl) →
  below (K + 2) (mid hl).
Proof.
  intros HK1 HK2 Hh Hl. unfold mid.
  apply div_two_below; [lia|lia|]. by apply add_below.
Qed.

End Arithmetic.


Section Calculator.

Lemma getHL_fold_inv (P Q : number → Prop) (sl : list Bar) (acc : HL) :
  P (hl_h acc) → Q (hl_l acc) →
  Forall (λ d, P (high d) ∧ Q (low d)) sl →
  P (hl_h (fold_left getHL_step sl acc)) ∧ Q (hl_l (fold_left getHL_step sl acc)).
Proof.
  intros Hh Hl Hsl. revert acc Hh Hl.
  induction Hsl as [|d sl [Hd1 Hd2] _ IH]; intros acc Hh Hl; simpl; [done|].
  apply IH; unfold getHL_step; simpl.
  - by destruct (Num.gt (high d) (hl_h acc)).
  - by destruct (Num.lt (low d) (hl_l acc)).
Qed.

Lemma getHL_below (K : Z) (sl : list Bar) :
  (0 < length sl)%nat → Forall (boundedBar K) sl →
  below K (hl_h (getHL sl)) ∧ below K (hl_l (getHL sl)).
Proof.
  intros Hlen Hsl. destruct Hsl as [|d sl [Hh Hl] Hsl]; [simpl in Hlen; lia|].
  unfold getHL. simpl fold_left.
  apply (getHL_fold_inv (below K) (below K)); [| |done].
  - unfold getHL_step; simpl.
    by rewrite (gt_negInfinity _ (below_finite _ _ Hh)).
  - unfold getHL_step; simpl.
    by rewrite (lt_Infinity _ (below_finite _ _ Hl)).
Qed.

Lemma mid_slice_below (data : list Bar) (a b : Z) :
  0 ≤ a → a < b → b ≤ Z.of_nat (length data) →
  Forall (boundedBar 1020) data →
  below 1022 (mid (getHL (slice data a b))).
Proof.
  intros Ha Hab Hb Hdata.
  destruct (getHL_below 1020 (slice data a b)) as [Hh Hl].
  - pose proof (slice_length data a b). lia.
  - by apply slice_Forall.
  - by apply (mid_below 1020).
Qed.

(** C2 fails as stated, in two ways.  At index 61 of 62 finite bars the
    result is [null], not a tuple: the guard of [getIchimokuAt] is
    [index < 52 + 25].  And at index 77 of 78 bars whose prices are all the
    largest finite double, [h + l] overflows and the Tenkan is [Infinity]. *)
Lemma getIchimokuAt_61_and_overflow :
  (Forall finiteBar (replicate 62 (flatBar day1 100))
   ∧ getIchimokuAt (replicate 62 (flatBar day1 100)) 61 = None)
  ∧ (Forall finiteBar (replicate 78 (constBar day1 maxDouble))
     ∧ valid_binary Num.prec Num.emax maxDouble = true
     ∧ tenkan <$> getIchimokuAt (replicate 78 (constBar day1 maxDouble)) 77
       = Some Num.Infinity).
Proof.
  repeat split; try (vm_compute; reflexivity);
    apply Forall_replicate; split; reflexivity.
Qed.

(** C2, as amended.  The calculator returns [null] exactly below index 77
    (for every series).  From index 77 on, into a series that reaches the
    index and whose highs and lows are finite and smaller than [2 ^ 1020]
    in magnitude, it returns a tuple whose four components are finite. *)
Theorem getIchimokuAt_defined (data : list Bar) (index : Z) :
  (getIchimokuAt data index = None ↔ index < 77)
  ∧ (77 ≤ index → index < Z.of_nat (length data) →
     Forall (boundedBar 1020) data →
     ∃ t, getIchimokuAt data index = Some t ∧ finiteTuple t).
Proof.
  unfold getIchimokuAt. change (52 + 25) with 77.
  destruct (Z.ltb_spec index 77) as [Hlt|Hge].
  - split; [done|lia].
  - split; [split; [done|lia]|].
    intros _ Hlen Hdata. eexists. split; [reflexivity|].
    pose proof (mid_slice_below data) as Hmid.
    repeat split; simpl; eapply below_finite.
    + apply Hmid; [lia|lia|lia|done].
    + apply Hmid; [lia|lia|lia|done].
    + apply (div_two_below 1024); [lia|lia|].
      apply (add_below 1022); [lia|lia| |]; apply Hmid; (lia || done).
    + apply Hmid; [lia|lia|lia|done].
Qed.

Lemma getIchimokuAt_defined_witness :
  ∃ t, getIchimokuAt (replicate 78 (flatBar day1 100)) 77 = Some t ∧ finiteTuple t.
Proof.
  apply (proj2 (getIchimokuAt_defined (replicate 78 (flatBar day1 100)) 77)).
  - lia.
  - simpl. lia.
  - apply Forall_replicate. split; vm_compute; discriminate.
Defined.

End Calculator.

(* ===================================================================== *)
(** ** Notifications over sequences of runs *)
(* ===================================================================== *)

Section Notifications.

Variable ticker : string.
Variable toFixed2 : number → string.

Lemma latestAlert_type (response : option (list Bar)) (S iso : string) :
  latestAlert response = Some (S, iso) → isAlertType S.
Proof.
  unfold latestAlert. destruct response as [rows|]; [|done].
  destruct (_ <? 80); [done|].
  destruct (at_index _ _) as [latest|]; [|done].
  destruct (getIchimokuAt _ _) as [ich|]; [|done].
  destruct (date latest) as [iso'|]; [|done].
  unfold evalSignal.
  destruct (_ && _); [intros [= <- _]; by left|].
  destruct (_ && _); [intros [= <- _]; by right|done].
Qed.

(** C1.  Over any sequence of runs from any files, the runs whose latest
    bar yields signal [S] on day [D] send at most one e-mail in all.  A run
    that yields [(S, D)] has [S] among BUY and SELL; if the pair is not in
    the history yet it sends exactly one e-mail and records the pair, and if
    it is there already it sends none and leaves the history file as it is.
    Either way the pair is in the history afterwards, and every later run
    that yields [(S, D)] sends no e-mail and does not touch the history. *)
Theorem alert_sent_at_most_once (S D : string)
    (responses : list (option (list Bar))) (fs : Files) :
  (notifications ticker toFixed2 S D responses fs ≤ 1)%nat
  ∧ ∀ before r later,
      responses = (before ++ r :: later)%list → yields r S D →
      let fs1 := filesAfter ticker toFixed2 before fs in
      let fs2 := (run ticker toFixed2 r fs1).1.2 in
      isAlertType S
      ∧ (hasFired fs1 S D = false →
         ∃ body, emails (run ticker toFixed2 r fs1).2
                 = [SendEmail (alertSubject ticker S) body])
      ∧ (hasFired fs1 S D = true →
         emails (run ticker toFixed2 r fs1).2 = []
         ∧ historyFile fs2 = historyFile fs1)
      ∧ hasFired fs2 S D = true
      ∧ notifications ticker toFixed2 S D later fs2 = 0%nat
      ∧ ∀ between r' after,
          later = (between ++ r' :: after)%list → yields r' S D →
          let fs3 := filesAfter ticker toFixed2 between fs2 in
          emails (run ticker toFixed2 r' fs3).2 = []
          ∧ historyFile (run ticker toFixed2 r' fs3).1.2 = historyFile fs3.
Proof.
  split; [apply notifications_once|].
  intros before r later _ [iso [Hr <-]] fs1 fs2.
  assert (Hfs2 : hasFired fs2 S (dayOf iso) = true).
  { destruct (hasFired fs1 S (dayOf iso)) eqn:Hk.
    - by apply run_keeps.
    - by apply (run_new ticker toFixed2 r fs1 S iso Hr Hk). }
  split; [by eapply latestAlert_type|].
  split.
  { intros Hk. destruct (run_new ticker toFixed2 r fs1 S iso Hr Hk) as [[price ->] _].
    by eexists. }
  split; [by apply run_known|].
  split; [done|].
  split; [by apply notifications_known|].
  intros between r' after _ [iso' [Hr' Hday]] fs3.
  apply (run_known ticker toFixed2 r' fs3 S iso' Hr').
  rewrite Hday. by apply filesAfter_keeps.
Qed.

End Notifications.

Lemma alert_sent_at_most_once_witness :
  ∃ body, emails (run "GLD" plainFixed (Some buySeries) noFiles).2
          = [SendEmail (alertSubject "GLD" "BUY") body].
Proof.
  refine (proj1 (proj2 (proj2 (alert_sent_at_most_once "GLD" plainFixed "BUY" "2024-05-10"
            [Some buySeries; Some buySeries] noFiles) [] (Some buySeries)
            [Some buySeries] eq_refl _)) _).
  - exists day2. split; vm_compute; reflexivity.
  - vm_compute. reflexivity.
Defined.

(* ===================================================================== *)
(** ** Signal history, ordering of the alert step, published window *)
(* ===================================================================== *)

Section Publishing.

Variable ticker : string.
Variable toFixed2 : number → string.

Lemma run_signalHistory (response : option (list Bar)) (fs : Files) (d : WebsiteData) :
  WriteWebsite d ∈ (run ticker toFixed2 response fs).2 →
  signalHistory d = signalsArray (ledger (run ticker toFixed2 response fs).1.2).
Proof.
  rewrite (run_ledger ticker toFixed2).
  destruct (run_eval ticker toFixed2 response fs) as (out & price & rest & -> & Hrest).
  simpl. rewrite elem_of_app. intros [Hin|Hin].
  - exfalso. unfold alertEvents, createdHistory in Hin.
    destruct (latestAlert response) as [[s iso]|]; [|by apply elem_of_nil in Hin].
    destruct (truthyAt _ _); [by apply elem_of_nil in Hin|].
    destruct (historyFile fs);
      repeat (apply elem_of_cons in Hin as [Hin|Hin]; [discriminate|]);
      by apply elem_of_nil in Hin.
  - destruct Hrest as [->|[d' [-> Hd']]]; [by apply elem_of_nil in Hin|].
    apply list_elem_of_singleton in Hin. by injection Hin as ->.
Qed.

(** C7, as amended.  In a run that fires a new alert the history entry is
    written first and the e-mail is sent next: the trace is the history
    write(s), then the e-mail, then the rest, with no other e-mail.  If the
    process stops between the two steps the entry is already recorded, so
    any later run yielding the same signal and day sends nothing: the
    failure direction is a lost notification, never a duplicate. *)
Theorem record_before_send (response : option (list Bar)) (fs : Files)
    (S iso : string) :
  latestAlert response = Some (S, iso) →
  hasFired fs S (dayOf iso) = false →
  ∃ price rest,
    let h := <[historyKey S iso := true]> (ledger fs) in
    let recorded := (createdHistory fs ++ [WriteHistory h])%list in
    (run ticker toFixed2 response fs).2
    = (recorded
       ++ SendEmail (alertSubject ticker S) (alertBody ticker toFixed2 S price)
       :: rest)%list
    ∧ emails recorded = [] ∧ emails rest = []
    ∧ hasFired (replay recorded fs) S (dayOf iso) = true
    ∧ ∀ response', yields response' S (dayOf iso) →
        emails (run ticker toFixed2 response' (replay recorded fs)).2 = [].
Proof.
  intros Hr Hk. rewrite hasFired_historyKey in Hk.
  destruct (run_eval ticker toFixed2 response fs) as (out & price & rest & Hrun & Hrest).
  exists price, rest. intros h recorded.
  assert (Hreplay : replay recorded fs = withHistory fs h).
  { unfold recorded, replay, createdHistory.
    destruct fs as [[h0|] w]; reflexivity. }
  assert (Hfired : hasFired (replay recorded fs) S (dayOf iso) = true).
  { rewrite Hreplay, hasFired_historyKey. apply truthyAt_insert. }
  split.
  { rewrite Hrun, Hr. simpl. rewrite Hk. unfold recorded, h.
    by rewrite <- !app_assoc. }
  split.
  { unfold recorded. by rewrite emails_app, emails_createdHistory. }
  split; [by apply (replay_publish _ fs _ Hrest)|].
  split; [done|].
  intros response' [iso' [Hr' Hday]].
  apply (run_known ticker toFixed2 response' _ S iso' Hr'). by rewrite Hday.
Qed.

End Publishing.

(** C7 fails as stated.  In the first run on the rising series the entry
    ["BUY-2024-05-10"] is written before the e-mail is sent; from the files
    as they are between the two steps, the next run on the same series
    sends no e-mail at all. *)
Lemma record_precedes_send_example :
  take 3 (run "GLD" plainFixed (Some buySeries) noFiles).2
  = [WriteHistory ∅;
     WriteHistory {["BUY-2024-05-10"%string := true]};
     SendEmail "BUY Signal Alert: GLD"
       (alertBody "GLD" plainFixed "BUY" (Num.ofZ 150))]
  ∧ emails (run "GLD" plainFixed (Some buySeries)
              (replay (take 2 (run "GLD" plainFixed (Some buySeries) noFiles).2)
                 noFiles)).2 = [].
Proof. split; vm_compute; reflexivity. Qed.

Lemma record_before_send_witness :
  ∃ price rest,
    (run "GLD" plainFixed (Some buySeries) noFiles).2
    = ([WriteHistory ∅; WriteHistory (<[historyKey "BUY" day2 := true]> ∅)]
       ++ SendEmail (alertSubject "GLD" "BUY") (alertBody "GLD" plainFixed "BUY" price)
       :: rest)%list.
Proof.
  destruct (record_before_send "GLD" plainFixed (Some buySeries) noFiles "BUY" day2)
    as (price & rest & Htr & _).
  - vm_compute. reflexivity.
  - vm_compute. reflexivity.
  - exists price, rest. exact Htr.
Defined.

Lemma orNull_None (v : option number) :
  orNull v = None ↔ v = None ∨ ∃ x, v = Some x ∧ Num.truthy x = false.
Proof.
  destruct v as [x|]; simpl.
  - destruct (Num.truthy x) eqn:Hx; split; try done.
    + intros [[=]|[y [[= <-] Hy]]]. congruence.
    + intros _. right. by exists x.
  - split; [by left|done].
Qed.

(** The indicator fields of a published entry: the component of the tuple
    at the entry's absolute index, or [null] when there is no tuple or the
    component is falsy (zero or NaN). *)
Lemma displayEntry_fields (data : list Bar) (d : Bar) (i : Z) (fs fs' : Files)
    (e : HistoryEntry) (tr : list Event) :
  displayEntry data d i fs = (Ok e, fs', tr) →
  let indicators := getIchimokuAt data (Z.of_nat (length data) - 40 + i) in
  e_tenkan e = orNull (tenkan <$> indicators)
  ∧ e_kijun e = orNull (kijun <$> indicators)
  ∧ e_spanA e = orNull (spanA <$> indicators)
  ∧ e_spanB e = orNull (spanB <$> indicators).
Proof.
  unfold displayEntry. destruct (date d) as [iso|]; simpl.
  - erewrite bind_ok by reflexivity. by intros [= <- _ _].
  - erewrite bind_throw by reflexivity. done.
Qed.

(** C9 on the code.  On eighty days of zero prices the tuple at the last
    index is defined, with all four components equal to zero, and the run
    publishes 40 entries; in the last one, whose absolute index is 79, the
    four indicator fields are nevertheless [null]. *)
Theorem displayHistory_zero_is_null :
  getIchimokuAt zeroSeries 79 = Some zeroTuple
  ∧ ∃ d e,
      run "GLD" plainFixed (Some zeroSeries) noFiles
      = (Returned, {| historyFile := None; websiteFile := Some d |}, [WriteWebsite d])
      ∧ length (history d) = 40%nat
      ∧ history d !! 39%nat = Some e
      ∧ e_tenkan e = None ∧ e_kijun e = None
      ∧ e_spanA e = None ∧ e_spanB e = None.
Proof.
  split; [vm_compute; reflexivity|].
  eexists _, _. split; [vm_compute; reflexivity|].
  repeat split; vm_compute; reflexivity.
Qed.

(* ===================================================================== *)
(** ** The scan of highs and lows *)
(* ===================================================================== *)

Section Scan.

Lemma validRow_numeric (d : Bar) : validRow d = true → numericBar d.
Proof.
  unfold validRow, numericBar. rewrite !andb_true_iff, !negb_true_iff. tauto.
Qed.

Lemma not_lt_rank (a b : number) :
  Num.isNaN a = false → Num.isNaN b = false →
  Num.lt a b = false ↔ ¬ rank_lt (rank a) (rank b).
Proof.
  intros Ha Hb. pose proof (lt_rank a b) as H.
  destruct (Num.lt a b); split.
  - discriminate.
  - intros Hn. destruct H as [H _]. destruct (H eq_refl) as (_ & _ & ?). done.
  - intros _ Hlt. destruct H as [_ H].
    specialize (H (conj Ha (conj Hb Hlt))). discriminate.
  - done.
Qed.

Lemma scanned_step (seen : list Bar) (acc : HL) (d : Bar) :
  numericBar d → Forall numericBar seen → scanned seen acc →
  scanned (seen ++ [d]) (getHL_step acc d).
Proof.
  intros [Hdh Hdl] Hseen [(Hn & Hmax & Hatt) (Hn' & Hmin & Hatt')].
  unfold getHL_step. split; simpl.
  - destruct (Num.gt (high d) (hl_h acc)) eqn:Hgt.
    + split; [done|]. split.
      * intros d' Hd'. apply elem_of_app in Hd' as [Hd'|Hd'].
        -- assert (Hd'n : numericBar d') by (eapply Forall_forall in Hseen; eauto).
           destruct Hd'n as [Hd'h _].
           specialize (Hmax d' Hd'). unfold Num.gt in *.
           fold (Num.lt (hl_h acc) (high d')) in Hmax.
           fold (Num.lt (hl_h acc) (high d)) in Hgt.
           fold (Num.lt (high d) (high d')).
           apply not_lt_rank in Hmax; [|done|done].
           apply lt_rank in Hgt as (_ & _ & Hgt).
           apply not_lt_rank; [done|done|]. unfold rank_lt in *. lia.
        -- apply list_elem_of_singleton in Hd' as ->. apply lt_irrefl.
      * right. exists d. split; [|done]. apply elem_of_app. right. by left.
    + split; [done|]. split.
      * intros d' Hd'. apply elem_of_app in Hd' as [Hd'|Hd']; [by apply Hmax|].
        by apply list_elem_of_singleton in Hd' as ->.
      * destruct Hatt as [->|(d' & Hd' & ->)]; [by left|].
        right. exists d'. split; [|done]. apply elem_of_app. by left.
  - destruct (Num.lt (low d) (hl_l acc)) eqn:Hlt.
    + split; [done|]. split.
      * intros d' Hd'. apply elem_of_app in Hd' as [Hd'|Hd'].
        -- assert (Hd'n : numericBar d') by (eapply Forall_forall in Hseen; eauto).
           destruct Hd'n as [_ Hd'l].
           specialize (Hmin d' Hd').
           apply not_lt_rank in Hmin; [|done|done].
           apply lt_rank in Hlt as (_ & _ & Hlt).
           apply not_lt_rank; [done|done|]. unfold rank_lt in *. lia.
        -- apply list_elem_of_singleton in Hd' as ->. apply lt_irrefl.
      * right. exists d. split; [|done]. apply elem_of_app. right. by left.
    + split; [done|]. split.
      * intros d' Hd'. apply elem_of_app in Hd' as [Hd'|Hd']; [by apply Hmin|].
        by apply list_elem_of_singleton in Hd' as ->.
      * destruct Hatt' as [->|(d' & Hd' & ->)]; [by left|].
        right. exists d'. split; [|done]. apply elem_of_app. by left.
Qed.

Lemma scanned_fold (sl seen : list Bar) (acc : HL) :
  Forall numericBar seen → Forall numericBar sl → scanned seen acc →
  scanned (seen ++ sl) (fold_left getHL_step sl acc).
Proof.
  intros Hseen Hsl. revert seen acc Hseen.
  induction Hsl as [|d sl Hd _ IH]; intros seen acc Hseen Hacc; simpl.
  - by rewrite app_nil_r.
  - replace (seen ++ d :: sl)%list with ((seen ++ [d]) ++ sl)%list
      by (by rewrite <- app_assoc).
    apply IH.
    + apply Forall_app. split; [done|]. by constructor.
    + by apply scanned_step.
Qed.

Lemma getHL_scanned (sl : list Bar) : Forall numericBar sl → scanned sl (getHL sl).
Proof.
  intros Hsl. apply (scanned_fold sl [] _ (Forall_nil_2 _) Hsl).
  split; (split; [done|]; split; [by intros d Hd; apply elem_of_nil in Hd|by left]).
Qed.

(** A bar that is not NaN and not above [-Infinity] is [-Infinity]. *)
Lemma not_gt_negInfinity (x : number) :
  Num.isNaN x = false → Num.gt x Num.negInfinity = false → x = Num.negInfinity.
Proof. destruct x as [s|[]| |[] m e]; cbv; congruence. Qed.

Lemma not_lt_Infinity (x : number) :
  Num.isNaN x = false → Num.lt x Num.Infinity = false → x = Num.Infinity.
Proof. destruct x as [s|[]| |[] m e]; cbv; congruence. Qed.

(** X1. Over a non-empty window whose highs and lows are not NaN, the scan
    of [getHL] returns as [h] the high of one of the bars of the window and
    no bar of the window has a greater high; likewise [l] is the low of one
    of the bars and no bar has a smaller low. *)
Theorem getHL_extremes (sl : list Bar) :
  sl ≠ [] → Forall numericBar sl →
  (∃ d, d ∈ sl ∧ hl_h (getHL sl) = high d)
  ∧ (∀ d, d ∈ sl → Num.gt (high d) (hl_h (getHL sl)) = false)
  ∧ (∃ d, d ∈ sl ∧ hl_l (getHL sl) = low d)
  ∧ (∀ d, d ∈ sl → Num.lt (low d) (hl_l (getHL sl)) = false).
Proof.
  intros Hne Hsl.
  destruct (getHL_scanned sl Hsl) as [(Hn & Hmax & Hatt) (Hn' & Hmin & Hatt')].
  destruct sl as [|d0 sl']; [done|].
  assert (Hd0 : d0 ∈ d0 :: sl') by by left.
  assert (Hd0n : numericBar d0) by (by apply Forall_inv in Hsl).
  destruct Hd0n as [Hd0h Hd0l].
  repeat split; try done.
  - destruct Hatt as [Heq|?]; [|done]. exists d0. split; [done|].
    specialize (Hmax d0 Hd0). rewrite Heq in *.
    symmetry. by apply not_gt_negInfinity.
  - destruct Hatt' as [Heq|?]; [|done]. exists d0. split; [done|].
    specialize (Hmin d0 Hd0). rewrite Heq in *.
    symmetry. by apply not_lt_Infinity.
Qed.

Lemma getHL_extremes_witness :
  (∃ d, d ∈ spikeSeries ∧ hl_h (getHL spikeSeries) = high d)
  ∧ (∀ d, d ∈ spikeSeries → Num.gt (high d) (hl_h (getHL spikeSeries)) = false)
  ∧ (∃ d, d ∈ spikeSeries ∧ hl_l (getHL spikeSeries) = low d)
  ∧ (∀ d, d ∈ spikeSeries → Num.lt (low d) (hl_l (getHL spikeSeries)) = false).
Proof.
  apply getHL_extremes; [done|].
  unfold spikeSeries. apply Forall_app. split; [|apply Forall_cons; split].
  - apply Forall_replicate. by split.
  - by split.
  - apply Forall_replicate. by split.
Defined.

End Scan.

(* ===================================================================== *)
(** ** The window of the calculator *)
(* ===================================================================== *)

Section Window.

Context {A : Type}.

(** Reading a slice with non-negative bounds: entry [j] is entry [a + j]
    of the array as long as [a + j < b]. *)
Lemma slice_lookup (arr : list A) (a b : Z) (j : nat) :
  0 ≤ a → 0 ≤ b →
  slice arr a b !! j
  = if decide (a + Z.of_nat j < b) then arr !! Z.to_nat (a + Z.of_nat j) else None.
Proof.
  intros Ha Hb. unfold slice, relIndex.
  destruct (Z.ltb_spec a 0); [lia|]. destruct (Z.ltb_spec b 0); [lia|].
  set (len := Z.of_nat (length arr)).
  destruct (decide (Z.of_nat j < Z.min b len - Z.min a len)) as [Hj|Hj].
  - rewrite lookup_take_lt by lia. rewrite lookup_drop.
    rewrite decide_True by lia. f_equal. lia.
  - rewrite lookup_take_ge by lia.
    destruct (decide (a + Z.of_nat j < b)); [|done].
    symmetry. apply lookup_ge_None. unfold len in *. lia.
Qed.

Lemma slice_ext (arr arr' : list A) (a b : Z) :
  0 ≤ a → 0 ≤ b →
  (∀ k, a ≤ k < b → at_index arr k = at_index arr' k) →
  slice arr a b = slice arr' a b.
Proof.
  intros Ha Hb H. apply list_eq. intros j. rewrite !slice_lookup by done.
  destruct (decide (a + Z.of_nat j < b)) as [Hj|]; [|done].
  specialize (H (a + Z.of_nat j) ltac:(lia)). unfold at_index in H.
  destruct (Z.ltb_spec (a + Z.of_nat j) 0); [lia|done].
Qed.

End Window.

Section Locality.

Lemma getIchimokuAt_ext (data data' : list Bar) (index : Z) :
  (∀ k, index - 77 ≤ k ≤ index → at_index data k = at_index data' k) →
  getIchimokuAt data index = getIchimokuAt data' index.
Proof.
  intros H. unfold getIchimokuAt.
  destruct (Z.ltb_spec index (52 + 25)); [done|].
  rewrite (slice_ext data data' (index - 8) (index + 1)) by (try lia; intros; apply H; lia).
  rewrite (slice_ext data data' (index - 25) (index + 1)) by (try lia; intros; apply H; lia).
  rewrite (slice_ext data data' (index - 25 - 9) (index - 25 + 1)) by (try lia; intros; apply H; lia).
  rewrite (slice_ext data data' (index - 25 - 26) (index - 25 + 1)) by (try lia; intros; apply H; lia).
  rewrite (slice_ext data data' (index - 25 - 52) (index - 25 + 1)) by (try lia; intros; apply H; lia).
  done.
Qed.

(** X2. [getIchimokuAt(data, index)] depends only on the 78 bars at the
    indices [index - 77] to [index]: two series that agree there, missing
    bars included, give the same result. *)
Theorem getIchimokuAt_window (data data' : list Bar) (index : Z) :
  (∀ k, index - 77 ≤ k ≤ index → at_index data k = at_index data' k) →
  getIchimokuAt data index = getIchimokuAt data' index.
Proof. exact (getIchimokuAt_ext data data' index). Qed.

Lemma getIchimokuAt_window_witness :
  getIchimokuAt (replicate 78 (flatBar day1 100)) 77
  = getIchimokuAt (replicate 78 (flatBar day1 100) ++ [spikeBar]) 77.
Proof.
  apply getIchimokuAt_window. intros k Hk. unfold at_index.
  destruct (Z.ltb_spec k 0); [done|].
  rewrite lookup_app_l; [done|]. rewrite length_replicate. lia.
Defined.

Lemma at_index_app_l (data more : list Bar) (k : Z) :
  k < Z.of_nat (length data) → at_index (data ++ more) k = at_index data k.
Proof.
  intros Hk. unfold at_index. destruct (Z.ltb_spec k 0); [done|].
  apply lookup_app_l. lia.
Qed.

(** X3. The calculator never looks ahead: bars appended behind [index] do
    not change [getIchimokuAt(data, index)]. *)
Theorem getIchimokuAt_no_lookahead (data more : list Bar) (index : Z) :
  index < Z.of_nat (length data) →
  getIchimokuAt (data ++ more) index = getIchimokuAt data index.
Proof.
  intros Hlen. apply getIchimokuAt_ext. intros k Hk.
  apply at_index_app_l. lia.
Qed.

Lemma getIchimokuAt_no_lookahead_witness :
  getIchimokuAt (replicate 78 (flatBar day1 100) ++ [spikeBar]) 77
  = getIchimokuAt (replicate 78 (flatBar day1 100)) 77.
Proof. apply getIchimokuAt_no_lookahead. simpl. lia. Defined.

End Locality.

(* ===================================================================== *)
(** ** NaN, indices past the end, null fields *)
(* ===================================================================== *)

Section Edges.

Lemma lt_not_NaN (a b : number) :
  Num.lt a b = true → Num.isNaN a = false ∧ Num.isNaN b = false.
Proof. intros H. apply lt_rank in H. tauto. Qed.

Lemma Math_max_NaN (a b : number) :
  Num.isNaN a = true ∨ Num.isNaN b = true → Num.Math_max a b = Num.NaN.
Proof. destruct a, b; simpl; intros [?|?]; (reflexivity || discriminate). Qed.

Lemma Math_min_NaN (a b : number) :
  Num.isNaN a = true ∨ Num.isNaN b = true → Num.Math_min a b = Num.NaN.
Proof. destruct a, b; simpl; intros [?|?]; (reflexivity || discriminate). Qed.

(** X5. If the price or any component of the tuple is NaN, the evaluation
    gives no signal, which is published as NEUTRAL. *)
Theorem evalSignal_NaN (price : number) (ich : Ichimoku) :
  Num.isNaN price = true ∨ hasNaN ich →
  evalSignal price ich = EmptyString
  ∧ signalOrNeutral (evalSignal price ich) = "NEUTRAL"%string.
Proof.
  intros H.
  assert (Hb : ¬ buyCondition price ich).
  { intros [H1 H2]. apply lt_not_NaN in H1 as [Hk Ht]. apply lt_not_NaN in H2 as [Hm Hp].
    destruct H as [H|[H|[H|H]]]; try congruence.
    rewrite Math_max_NaN in Hm by tauto. done. }
  assert (Hs : ¬ sellCondition price ich).
  { intros [H1 H2]. apply lt_not_NaN in H1 as [Ht Hk]. apply lt_not_NaN in H2 as [Hp Hm].
    destruct H as [H|[H|[H|H]]]; try congruence.
    rewrite Math_min_NaN in Hm by tauto. done. }
  destruct (evalSignal_cases price ich) as [[? _]|[(_ & ? & _)|(_ & _ & ->)]]; done.
Qed.

Lemma evalSignal_NaN_witness :
  evalSignal (Num.ofZ 150) nanTuple = EmptyString
  ∧ signalOrNeutral (evalSignal (Num.ofZ 150) nanTuple) = "NEUTRAL"%string.
Proof. apply evalSignal_NaN. right. by left. Defined.

Lemma slice_beyond {A : Type} (arr : list A) (a b : Z) :
  Z.of_nat (length arr) ≤ a → slice arr a b = [].
Proof.
  intros Ha. unfold slice, relIndex.
  destruct (Z.ltb_spec a 0); [lia|].
  rewrite drop_ge by lia. by rewrite take_nil.
Qed.

Lemma mid_empty : mid (getHL []) = Num.NaN.
Proof. reflexivity. Qed.

(** X4. The calculator does not check the upper end of the series: for an
    index of at least 77, once [index - 8] is past the last bar the tuple
    is defined with a NaN tenkan, and once [index - 77] is past the last
    bar all four components are NaN. *)
Theorem getIchimokuAt_beyond_end (data : list Bar) (index : Z) :
  77 ≤ index →
  (Z.of_nat (length data) ≤ index - 8 →
   tenkan <$> getIchimokuAt data index = Some Num.NaN)
  ∧ (Z.of_nat (length data) ≤ index - 77 →
     getIchimokuAt data index = Some nanTuple).
Proof.
  intros Hindex. unfold getIchimokuAt.
  destruct (Z.ltb_spec index (52 + 25)); [lia|]. split; intros Hlen; simpl.
  - by rewrite (slice_beyond data (index - 8)) by lia.
  - by rewrite !slice_beyond by lia.
Qed.

Lemma getIchimokuAt_beyond_end_witness :
  (Z.of_nat (length (replicate 78 (flatBar day1 100))) ≤ 200 - 8 →
   tenkan <$> getIchimokuAt (replicate 78 (flatBar day1 100)) 200 = Some Num.NaN)
  ∧ (Z.of_nat (length (replicate 78 (flatBar day1 100))) ≤ 200 - 77 →
     getIchimokuAt (replicate 78 (flatBar day1 100)) 200 = Some nanTuple).
Proof. apply getIchimokuAt_beyond_end. lia. Defined.

(** X6. In a published history entry the field tenkan (and likewise kijun,
    spanA, spanB) is null exactly when the absolute index of the bar is
    below 77 or the component computed at that index is zero or NaN. *)
Theorem displayEntry_null (data : list Bar) (d : Bar) (i : Z) (fs fs' : Files)
    (e : HistoryEntry) (tr : list Event) :
  displayEntry data d i fs = (Ok e, fs', tr) →
  let k := Z.of_nat (length data) - 40 + i in
  (e_tenkan e = None
   ↔ k < 77 ∨ ∃ t, getIchimokuAt data k = Some t ∧ Num.truthy (tenkan t) = false)
  ∧ (e_kijun e = None
     ↔ k < 77 ∨ ∃ t, getIchimokuAt data k = Some t ∧ Num.truthy (kijun t) = false)
  ∧ (e_spanA e = None
     ↔ k < 77 ∨ ∃ t, getIchimokuAt data k = Some t ∧ Num.truthy (spanA t) = false)
  ∧ (e_spanB e = None
     ↔ k < 77 ∨ ∃ t, getIchimokuAt data k = Some t ∧ Num.truthy (spanB t) = false).
Proof.
  intros Hd k.
  destruct (displayEntry_fields data d i fs fs' e tr Hd) as (-> & -> & -> & ->).
  fold k. rewrite !orNull_None.
  assert (Hnone : getIchimokuAt data k = None ↔ k < 77).
  { unfold getIchimokuAt. destruct (Z.ltb_spec k (52 + 25)); split; (done || lia). }
  destruct (getIchimokuAt data k) as [t|] eqn:Ht; simpl.
  - assert (¬ k < 77) by (rewrite <- Hnone; done).
    repeat split; intros [?|(x & Hx & Hf)]; try done; try lia;
      right; (injection Hx as <- || idtac); eauto.
  - assert (k < 77) by (by apply Hnone).
    repeat split; intros; tauto.
Qed.

Lemma displayEntry_null_witness :
  ∃ e, displayEntry zeroSeries (flatBar day1 0) 39 noFiles = (Ok e, noFiles, [])
       ∧ (e_tenkan e = None
          ↔ 79 < 77 ∨ ∃ t, getIchimokuAt zeroSeries 79 = Some t
                           ∧ Num.truthy (tenkan t) = false).
Proof.
  eexists. split; [reflexivity|].
  refine (proj1 (displayEntry_null zeroSeries (flatBar day1 0) 39 noFiles noFiles _ [] _)).
  reflexivity.
Defined.

End Edges.

(* ===================================================================== *)
(** ** More on the alert history *)
(* ===================================================================== *)

Section LedgerFrame.

Lemma truthyAt_lookup (h : gmap string bool) (key : string) :
  truthyAt h key = true ↔ h !! key = Some true.
Proof.
  unfold truthyAt. destruct (h !! key) as [[]|]; split; congruence.
Qed.

Lemma checkAlertHistory_effect (signal iso : string) (fs : Files) :
  (checkAlertHistory signal iso fs).1.1
  = Ok (truthyAt (ledger fs) (historyKey signal iso))
  ∧ ledger (checkAlertHistory signal iso fs).1.2 !! historyKey signal iso = Some true
  ∧ (∀ key, key ≠ historyKey signal iso →
       ledger (checkAlertHistory signal iso fs).1.2 !! key = ledger fs !! key)
  ∧ is_Some (historyFile (checkAlertHistory signal iso fs).1.2)
  ∧ websiteFile (checkAlertHistory signal iso fs).1.2 = websiteFile fs.
Proof.
  destruct (truthyAt (ledger fs) (historyKey signal iso)) eqn:Hk.
  - rewrite (checkAlertHistory_known _ _ _ Hk). simpl.
    split; [done|]. split; [by apply truthyAt_lookup|]. split; [done|].
    split; [|done]. apply truthyAt_is_Some in Hk. unfold ledger in Hk.
    destruct (historyFile fs); [by eexists|]. simpl in Hk.
    rewrite lookup_empty in Hk. by destruct Hk.
  - rewrite (checkAlertHistory_new _ _ _ Hk). simpl.
    split; [done|]. split; [apply lookup_insert_eq|].
    split; [|split; [by eexists|done]].
    intros key Hne. by apply lookup_insert_ne.
Qed.

(** X7. A call of [checkAlertHistory] never throws and returns whether its
    key was already set; afterwards the history file exists, the key of
    the call is set to [true], every other key is as before, and the
    website file is untouched. *)
Theorem checkAlertHistory_frame (signal iso : string) (fs : Files) :
  (checkAlertHistory signal iso fs).1.1
  = Ok (truthyAt (ledger fs) (historyKey signal iso))
  ∧ ledger (checkAlertHistory signal iso fs).1.2 !! historyKey signal iso = Some true
  ∧ (∀ key, key ≠ historyKey signal iso →
       ledger (checkAlertHistory signal iso fs).1.2 !! key = ledger fs !! key)
  ∧ is_Some (historyFile (checkAlertHistory signal iso fs).1.2)
  ∧ websiteFile (checkAlertHistory signal iso fs).1.2 = websiteFile fs.
Proof. exact (checkAlertHistory_effect signal iso fs). Qed.

Lemma historyKey_inj (S iso S' iso' : string) :
  isAlertType S → isAlertType S' →
  historyKey S iso = historyKey S' iso' ↔ S = S' ∧ dayOf iso = dayOf iso'.
Proof.
  intros HS HS'. split.
  - intros Heq.
    pose proof (parseKey_historyKey S iso HS) as H1.
    pose proof (parseKey_historyKey S' iso' HS') as H2.
    rewrite Heq in H1. rewrite H1 in H2. by injection H2.
  - intros [-> Hd]. unfold historyKey. by rewrite Hd.
Qed.

(** X8. After [checkAlertHistory(S, date)], a call for [(S', date')] with
    both signals BUY or SELL reports a duplicate exactly when it names the
    same signal and the same calendar day, or when [(S', day')] had fired
    before the first call: alerts of different signals or days do not
    shadow each other. *)
Theorem checkAlertHistory_then (S iso S' iso' : string) (fs : Files) :
  isAlertType S → isAlertType S' →
  (checkAlertHistory S' iso' (checkAlertHistory S iso fs).1.2).1.1 = Ok true
  ↔ (S' = S ∧ dayOf iso' = dayOf iso) ∨ hasFired fs S' (dayOf iso') = true.
Proof.
  intros HS HS'.
  destruct (checkAlertHistory_effect S' iso' (checkAlertHistory S iso fs).1.2) as (-> & _).
  destruct (checkAlertHistory_effect S iso fs) as (_ & Hown & Hother & _).
  set (fs1 := (checkAlertHistory S iso fs).1.2) in *.
  transitivity (ledger fs1 !! historyKey S' iso' = Some true).
  { rewrite <- truthyAt_lookup. split; [by intros [= ->]|by intros ->]. }
  rewrite hasFired_historyKey, truthyAt_lookup.
  destruct (decide (historyKey S' iso' = historyKey S iso)) as [Heq|Hne].
  - rewrite Heq, Hown. split; [|done]. intros _. left.
    by apply (historyKey_inj S' iso' S iso).
  - rewrite (Hother _ Hne). split; [by right|].
    intros [Hsame|H]; [|done].
    exfalso. apply Hne. by apply historyKey_inj.
Qed.

Lemma checkAlertHistory_then_witness :
  (checkAlertHistory "SELL" day2 (checkAlertHistory "BUY" day2 noFiles).1.2).1.1 = Ok true
  ↔ ("SELL"%string = "BUY"%string ∧ dayOf day2 = dayOf day2)
    ∨ hasFired noFiles "SELL" (dayOf day2) = true.
Proof. apply checkAlertHistory_then; [by left|by right]. Defined.

End LedgerFrame.

Section AppendOnly.

Variable ticker : string.
Variable toFixed2 : number → string.

Lemma afterAlert_ledger (fs : Files) (alert : option (string * string)) :
  ledger (afterAlert fs alert)
  = match alert with
    | Some (signal, iso) =>
        if truthyAt (ledger fs) (historyKey signal iso) then ledger fs
        else <[historyKey signal iso := true]> (ledger fs)
    | None => ledger fs
    end.
Proof.
  destruct alert as [[signal iso]|]; [|done]. simpl.
  by destruct (truthyAt _ _).
Qed.

(** X12. The alert history only grows over a run: no key is removed, a key
    that was set stays set, at most one key is added, and a key whose
    entry changed is the key of the run's alert, now set to [true]. *)
Theorem run_history_grows (response : option (list Bar)) (fs : Files) :
  (∀ key, is_Some (ledger fs !! key) →
          is_Some (ledger (run ticker toFixed2 response fs).1.2 !! key))
  ∧ (∀ key, truthyAt (ledger fs) key = true →
            truthyAt (ledger (run ticker toFixed2 response fs).1.2) key = true)
  ∧ (size (ledger (run ticker toFixed2 response fs).1.2) ≤ size (ledger fs) + 1)%nat
  ∧ (∀ key, ledger (run ticker toFixed2 response fs).1.2 !! key ≠ ledger fs !! key →
            ledger (run ticker toFixed2 response fs).1.2 !! key = Some true
            ∧ ∃ signal iso, latestAlert response = Some (signal, iso)
                            ∧ isAlertType signal
                            ∧ key = historyKey signal iso).
Proof.
  rewrite (run_ledger ticker toFixed2), afterAlert_ledger.
  destruct (latestAlert response) as [[signal iso]|] eqn:Hr.
  2: { repeat split; try done; try lia. }
  destruct (truthyAt (ledger fs) (historyKey signal iso)) eqn:Hk.
  { repeat split; try done; try lia. }
  split; [|split; [|split]].
  - intros key Hkey. destruct (decide (historyKey signal iso = key)) as [<-|Hne].
    + rewrite lookup_insert_eq. by eexists.
    + by rewrite lookup_insert_ne.
  - intros key. apply truthyAt_insert_mono.
  - destruct (ledger fs !! historyKey signal iso) eqn:Hl.
    + rewrite map_size_insert_Some; [lia|by eexists].
    + rewrite map_size_insert_None by done. lia.
  - intros key Hkey. destruct (decide (historyKey signal iso = key)) as [<-|Hne].
    + split; [apply lookup_insert_eq|]. exists signal, iso.
      split; [done|]. split; [|done]. by eapply latestAlert_type.
    + by rewrite lookup_insert_ne in Hkey.
Qed.

Lemma allTruthy_absent (h : gmap string bool) (key : string) :
  allTruthy h → truthyAt h key = false → h !! key = None.
Proof.
  intros Hall Hk. destruct (h !! key) as [b|] eqn:Hl; [|done].
  rewrite (Hall key b Hl) in Hl. apply truthyAt_lookup in Hl. congruence.
Qed.

Lemma allTruthy_insert (h : gmap string bool) (key : string) :
  allTruthy h → allTruthy (<[key := true]> h).
Proof.
  intros Hall k b. destruct (decide (key = k)) as [->|Hne].
  - rewrite lookup_insert_eq. congruence.
  - rewrite lookup_insert_ne by done. apply Hall.
Qed.

Lemma run_emails_size (response : option (list Bar)) (fs : Files) :
  allTruthy (ledger fs) →
  allTruthy (ledger (run ticker toFixed2 response fs).1.2)
  ∧ (length (emails (run ticker toFixed2 response fs).2) + size (ledger fs))%nat
    = size (ledger (run ticker toFixed2 response fs).1.2).
Proof.
  intros Hall. rewrite (run_ledger ticker toFixed2), afterAlert_ledger.
  destruct (run_emails ticker toFixed2 response fs) as [price ->].
  rewrite emails_alertEvents.
  destruct (latestAlert response) as [[signal iso]|]; [|done].
  destruct (truthyAt (ledger fs) (historyKey signal iso)) eqn:Hk; [done|].
  split; [by apply allTruthy_insert|].
  rewrite map_size_insert_None by (by apply allTruthy_absent). done.
Qed.

(** X13. Starting from a history whose entries are all set (as every history
    written by the tracker is), the number of e-mails sent over any
    sequence of runs equals the number of entries the history gained. *)
Theorem emails_match_entries (responses : list (option (list Bar))) (fs : Files) :
  allTruthy (ledger fs) →
  (totalEmails ticker toFixed2 responses fs + size (ledger fs))%nat
  = size (ledger (filesAfter ticker toFixed2 responses fs)).
Proof.
  revert fs. induction responses as [|r rs IH]; intros fs Hall; simpl; [done|].
  destruct (run_emails_size r fs Hall) as [Hall' Hsize].
  rewrite <- (IH _ Hall'). lia.
Qed.

End AppendOnly.

Lemma emails_match_entries_witness :
  (totalEmails "GLD" plainFixed [Some buySeries; None; Some buySeries] noFiles
   + size (ledger noFiles))%nat
  = size (ledger (filesAfter "GLD" plainFixed [Some buySeries; None; Some buySeries] noFiles)).
Proof.
  apply emails_match_entries. intros key b Hkey.
  unfold ledger in Hkey. simpl in Hkey. by rewrite lookup_empty in Hkey.
Defined.

Section Keys.

(** X11. The published signal history has one event per key of the alert
    history, and every key of the alert history appears in it as its
    parsed (type, date) pair. *)
Theorem signalsArray_keys (h : gmap string bool) :
  length (signalsArray h) = size h
  ∧ ∀ key, is_Some (h !! key) → parseKey key ∈ signalsArray h.
Proof.
  split.
  - unfold signalsArray. by rewrite !length_fmap, length_map_to_list.
  - intros key Hkey. apply elem_of_signalsArray. by exists key.
Qed.

Lemma split_first_lacks (sep : ascii) (s p : string) (ps : list string) :
  Str.split sep s = p :: ps → lacks sep p = true.
Proof.
  revert p ps. induction s as [|c s IH]; intros p ps; simpl.
  - by intros [= <- _].
  - destruct (Ascii.eqb c sep) eqn:Hc; [by intros [= <- _]|].
    destruct (Str.split sep s) as [|q qs] eqn:Hs.
    + intros [= <- _]. simpl. by rewrite Hc.
    + intros [= <- _]. simpl. rewrite Hc. simpl. by eapply IH.
Qed.

Lemma split_lacks (sep : ascii) (s : string) :
  lacks sep s = true ↔ Str.split sep s = [s].
Proof.
  induction s as [|c s IH]; simpl; [done|].
  destruct (Ascii.eqb c sep) eqn:Hc; simpl.
  - split; [done|discriminate].
  - rewrite IH. destruct (Str.split sep s) as [|q qs] eqn:Hs.
    + split; [done|]. intros _. by destruct (split_cons sep s) as (? & ? & ?); congruence.
    + split; [by intros [= -> ->]|]. by intros [= -> ->].
Qed.

(** X10. [parseKey] splits a key at its first dash: the type never contains
    a dash; a key without a dash is taken as the type, with an empty date;
    and a key with a dash is its type, a dash and its date. *)
Theorem parseKey_decompose (key : string) :
  lacks dash (se_type (parseKey key)) = true
  ∧ (lacks dash key = true →
     parseKey key = {| se_type := key; se_date := EmptyString |})
  ∧ (lacks dash key = false →
     key = (se_type (parseKey key) ++ "-" ++ se_date (parseKey key))%string).
Proof.
  destruct (split_cons dash key) as (p & ps & Hs).
  rewrite (parseKey_split key p ps Hs). simpl. split; [|split].
  - by eapply split_first_lacks.
  - intros Hl. apply split_lacks in Hl. rewrite Hl in Hs. by injection Hs as <- <-.
  - intros Hl. rewrite <- (join_split key) at 1. rewrite Hs.
    destruct ps as [|q qs]; [|by rewrite join_cons].
    assert (Hp : lacks dash p = true) by (by eapply split_first_lacks).
    assert (key = p).
    { rewrite <- (join_split key), Hs. done. }
    subst. congruence.
Qed.

(** X9. The key of an alert ignores the time of day: for a timestamp
    [day ++ 'T' ++ time] whose day contains no 'T', the day is recovered
    and the key is the signal, a dash and the day. *)
Theorem historyKey_day (signal day time : string) :
  lacks charT day = true →
  dayOf (day ++ String charT time) = day
  ∧ historyKey signal (day ++ String charT time) = (signal ++ "-" ++ day)%string.
Proof.
  intros Hday.
  assert (dayOf (day ++ String charT time) = day) as Hd.
  { unfold dayOf, Str.firstPart. by rewrite (split_prefix charT day time Hday). }
  split; [done|]. unfold historyKey. by rewrite Hd.
Qed.

Lemma historyKey_day_witness :
  dayOf ("2024-05-10" ++ String charT "09:30:00.000Z") = "2024-05-10"%string
  ∧ historyKey "BUY" ("2024-05-10" ++ String charT "09:30:00.000Z")
    = ("BUY" ++ "-" ++ "2024-05-10")%string.
Proof. by apply historyKey_day. Defined.

End Keys.

(* ===================================================================== *)
(** ** What a run publishes and how it ends *)
(* ===================================================================== *)

Section Outcome.

Variable ticker : string.
Variable toFixed2 : number → string.

Lemma sliceFrom_last40 {A : Type} (arr : list A) :
  sliceFrom arr (-40) = drop (length arr - 40) arr.
Proof.
  unfold sliceFrom, slice, relIndex. change (-40 <? 0) with true. cbv iota.
  destruct (Z.ltb_spec (Z.of_nat (length arr)) 0); [lia|].
  replace (Z.to_nat (Z.max (Z.of_nat (length arr) + -40) 0)) with (length arr - 40)%nat by lia.
  apply take_ge. rewrite length_drop. lia.
Qed.

Lemma displayHistory_ok (data l : list Bar) (i : Z) (fs : Files) :
  Forall validDate l →
  mapM_index (displayEntry data) l i fs
  = (Ok (imap (λ k d, entryAt data (Z.of_nat (length data) - 40 + (i + Z.of_nat k)) d) l),
     fs, []).
Proof.
  intros Hl. revert i. induction Hl as [|d l [iso Hd] _ IH]; intros i; [done|].
  simpl mapM_index.
  assert (Hentry : displayEntry data d i fs
                   = (Ok (entryAt data (Z.of_nat (length data) - 40 + (i + Z.of_nat 0)) d), fs, [])).
  { unfold displayEntry, entryAt, isoOf. rewrite Hd. simpl.
    erewrite bind_ok by reflexivity. simpl.
    by replace (Z.of_nat (length data) - 40 + (i + Z.of_nat 0)) with (Z.of_nat (length data) - 40 + i) by lia. }
  erewrite bind_ok by exact Hentry.
  erewrite bind_ok by apply IH. simpl.
  rewrite (imap_ext
             (λ k d, entryAt data (Z.of_nat (length data) - 40 + (i + 1 + Z.of_nat k)) d)
             ((λ k d, entryAt data (Z.of_nat (length data) - 40 + (i + Z.of_nat k)) d) ∘ S) l);
    [done|].
  intros k x _. simpl. f_equal. lia.
Qed.

Lemma displayHistory_throw (data l : list Bar) (i : Z) (fs : Files) :
  Exists invalidDate l →
  ∃ msg, mapM_index (displayEntry data) l i fs = (Throw msg, fs, []).
Proof.
  intros Hl. revert i. induction l as [|d l IH]; intros i; [by apply Exists_nil in Hl|].
  simpl mapM_index. unfold displayEntry at 1.
  destruct (date d) as [iso|] eqn:Hd; simpl.
  - erewrite bind_ok by (erewrite bind_ok by reflexivity; reflexivity).
    apply Exists_cons in Hl as [Hl|Hl]; [unfold invalidDate in Hl; congruence|].
    destruct (IH Hl (i + 1)) as [msg Hmsg].
    erewrite bind_throw by exact Hmsg. by eexists.
  - erewrite bind_throw by (erewrite bind_throw by reflexivity; reflexivity).
    by eexists.
Qed.

Lemma readLedger (fs : Files) :
  (if match historyFile fs with Some _ => true | None => false end
   then readHistory else ret ∅) fs = (Ok (ledger fs), fs, []).
Proof. destruct fs as [[h|] w]; reflexivity. Qed.

Lemma publishStep_ok (data : list Bar) (latest : Bar) (iso : string)
    (ich : Ichimoku) (fs : Files) :
  date latest = ValidDate iso →
  Forall validDate (sliceFrom data (-40)) →
  publishStep ticker data (close latest) iso (evalSignal (close latest) ich) ich fs
  = (Ok (),
     {| historyFile := historyFile fs;
        websiteFile := Some (snapshotOf ticker data latest ich (ledger fs)) |},
     [WriteWebsite (snapshotOf ticker data latest ich (ledger fs))]).
Proof.
  intros Hiso Hwin. unfold publishStep.
  erewrite bind_ok by reflexivity.
  erewrite bind_ok by apply readLedger.
  erewrite bind_ok by (by apply displayHistory_ok).
  unfold snapshotOf, isoOf. rewrite Hiso. reflexivity.
Qed.

Lemma publishStep_throw (data : list Bar) (price : number) (iso signal : string)
    (ich : Ichimoku) (fs : Files) :
  Exists invalidDate (sliceFrom data (-40)) →
  ∃ msg, publishStep ticker data price iso signal ich fs = (Throw msg, fs, []).
Proof.
  intros Hwin. unfold publishStep.
  erewrite bind_ok by reflexivity.
  erewrite bind_ok by apply readLedger.
  destruct (displayHistory_throw data _ 0 fs Hwin) as [msg Hmsg].
  erewrite bind_throw by exact Hmsg. by eexists.
Qed.

(** With at least 80 rows the latest bar exists and has a tuple: the
    [Failed to calculate indicators] branch of [run] cannot be taken. *)
Lemma latest_defined (data : list Bar) :
  80 ≤ Z.of_nat (length data) →
  ∃ latest ich,
    at_index data (Z.of_nat (length data) - 1) = Some latest
    ∧ getIchimokuAt data (Z.of_nat (length data) - 1) = Some ich
    ∧ latest ∈ sliceFrom data (-40).
Proof.
  intros Hlen.
  destruct (lookup_lt_is_Some_2 data (length data - 1)) as [latest Hlatest]; [lia|].
  destruct (getIchimokuAt data (Z.of_nat (length data) - 1)) as [ich|] eqn:Hich.
  2: { unfold getIchimokuAt in Hich.
       destruct (Z.ltb_spec (Z.of_nat (length data) - 1) (52 + 25)); [lia|done]. }
  exists latest, ich. split; [|split; [done|]].
  - unfold at_index. destruct (Z.ltb_spec (Z.of_nat (length data) - 1) 0); [lia|].
    rewrite <- Hlatest. f_equal. lia.
  - rewrite sliceFrom_last40. apply list_elem_of_lookup.
    exists 39%nat. rewrite lookup_drop, <- Hlatest. f_equal. lia.
Qed.

Lemma window_dates (l : list Bar) : Forall validDate l ∨ Exists invalidDate l.
Proof.
  induction l as [|d l [IH|IH]].
  - left. constructor.
  - destruct (date d) as [iso|] eqn:Hd.
    + left. constructor; [by exists iso|done].
    + right. by left.
  - right. by right.
Qed.

Lemma window_dates_excl (l : list Bar) :
  Forall validDate l → Exists invalidDate l → False.
Proof.
  intros Hl Hex. induction Hex as [d l Hd|d l _ IH].
  - apply Forall_inv in Hl as [iso Hiso]. unfold invalidDate in Hd. congruence.
  - apply IH. by apply Forall_inv_tail in Hl.
Qed.

(** The run up to the publishing step, for a series with a valid latest
    date. *)
Lemma run_unfold (rows : list Bar) (fs : Files) (latest : Bar) (ich : Ichimoku)
    (iso : string) :
  80 ≤ Z.of_nat (length (validRows rows)) →
  at_index (validRows rows) (Z.of_nat (length (validRows rows)) - 1) = Some latest →
  getIchimokuAt (validRows rows) (Z.of_nat (length (validRows rows)) - 1) = Some ich →
  date latest = ValidDate iso →
  run ticker toFixed2 (Some rows) fs
  = match publishStep ticker (validRows rows) (close latest) iso
            (evalSignal (close latest) ich) ich
            (afterAlert fs (latestAlert (Some rows))) with
    | (r, fs', tr) =>
        (match r with Ok _ => Returned | Throw _ => Exited 1 end, fs',
         (alertEvents ticker toFixed2 fs (latestAlert (Some rows)) (close latest)
          ++ tr)%list)
    end.
Proof.
  intros Hlen Hlatest Hich Hiso.
  unfold run, runBody, latestAlert, fetchHistoricalData. fold (validRows rows).
  erewrite bind_ok by reflexivity.
  destruct (Z.ltb_spec (Z.of_nat (length (validRows rows))) 80); [lia|].
  rewrite Hlatest, Hich, Hiso. simpl.
  erewrite bind_ok by reflexivity.
  set (signal := evalSignal (close latest) ich).
  pose proof (alertStep_eval ticker toFixed2 signal iso (close latest) fs) as Halert.
  destruct (nonEmpty signal) eqn:Hs; simpl.
  - destruct (truthyAt (ledger fs) (historyKey signal iso)) eqn:Hk;
      erewrite bind_ok by exact Halert;
      destruct (publishStep _ _ _ _ _ _ _) as [[[|msg] fs'] tr]; reflexivity.
  - erewrite bind_ok by exact Halert.
    destruct (publishStep _ _ _ _ _ _ _) as [[[|msg] fs'] tr]; reflexivity.
Qed.

Lemma run_success (rows : list Bar) (fs : Files) :
  80 ≤ Z.of_nat (length (validRows rows)) →
  Forall validDate (sliceFrom (validRows rows) (-40)) →
  ∃ latest ich,
    at_index (validRows rows) (Z.of_nat (length (validRows rows)) - 1) = Some latest
    ∧ getIchimokuAt (validRows rows) (Z.of_nat (length (validRows rows)) - 1) = Some ich
    ∧ let fs1 := afterAlert fs (latestAlert (Some rows)) in
      let d := snapshotOf ticker (validRows rows) latest ich (ledger fs1) in
      run ticker toFixed2 (Some rows) fs
      = (Returned,
         {| historyFile := historyFile fs1; websiteFile := Some d |},
         (alertEvents ticker toFixed2 fs (latestAlert (Some rows)) (close latest)
          ++ [WriteWebsite d])%list).
Proof.
  intros Hlen Hwin.
  destruct (latest_defined (validRows rows) Hlen) as (latest & ich & Hlatest & Hich & Hin).
  exists latest, ich. split; [done|]. split; [done|].
  assert (Hvalid : validDate latest) by (eapply Forall_forall in Hwin; eauto).
  destruct Hvalid as [iso Hiso].
  rewrite (run_unfold rows fs latest ich iso Hlen Hlatest Hich Hiso).
  by rewrite (publishStep_ok _ latest iso ich _ Hiso Hwin).
Qed.

(** The failing path: an invalid date among the last 40 bars. *)
Lemma run_invalid_window (rows : list Bar) (fs : Files) :
  80 ≤ Z.of_nat (length (validRows rows)) →
  Exists invalidDate (sliceFrom (validRows rows) (-40)) →
  ∃ price,
    run ticker toFixed2 (Some rows) fs
    = (Exited 1, afterAlert fs (latestAlert (Some rows)),
       alertEvents ticker toFixed2 fs (latestAlert (Some rows)) price).
Proof.
  intros Hlen Hwin.
  destruct (latest_defined (validRows rows) Hlen) as (latest & ich & Hlatest & Hich & Hin).
  exists (close latest).
  destruct (date latest) as [iso|] eqn:Hiso.
  - rewrite (run_unfold rows fs latest ich iso Hlen Hlatest Hich Hiso).
    destruct (publishStep_throw (validRows rows) (close latest) iso
                (evalSignal (close latest) ich) ich
                (afterAlert fs (latestAlert (Some rows))) Hwin) as [msg ->].
    by rewrite app_nil_r.
  - unfold run, runBody, latestAlert, fetchHistoricalData. fold (validRows rows).
    erewrite bind_ok by reflexivity.
    destruct (Z.ltb_spec (Z.of_nat (length (validRows rows))) 80); [lia|].
    rewrite Hlatest, Hich, Hiso. reflexivity.
Qed.

Lemma afterAlert_website (fs : Files) (alert : option (string * string)) :
  websiteFile (afterAlert fs alert) = websiteFile fs.
Proof.
  destruct alert as [[signal iso]|]; [|done]. simpl.
  by destruct (truthyAt _ _).
Qed.

Lemma alertEvents_no_website (fs : Files) (alert : option (string * string))
    (price : number) (d : WebsiteData) :
  WriteWebsite d ∉ alertEvents ticker toFixed2 fs alert price.
Proof.
  intros Hin. unfold alertEvents, createdHistory in Hin.
  destruct alert as [[s iso]|]; [|by apply elem_of_nil in Hin].
  destruct (truthyAt _ _); [by apply elem_of_nil in Hin|].
  destruct (historyFile fs);
    repeat (apply elem_of_cons in Hin as [Hin|Hin]; [discriminate|]);
    by apply elem_of_nil in Hin.
Qed.

(** X14. With at least 80 rows left by the NaN filter and valid dates on the
    last 40 of them, a run returns normally; its trace is the alert step's
    events followed by exactly one write of the website data, which is the
    snapshot of the rows and of the alert history as the alert step left
    it, and the website file holds that snapshot afterwards. *)
Theorem run_publishes (rows : list Bar) (fs : Files) :
  80 ≤ Z.of_nat (length (validRows rows)) →
  Forall validDate (sliceFrom (validRows rows) (-40)) →
  ∃ latest ich,
    at_index (validRows rows) (Z.of_nat (length (validRows rows)) - 1) = Some latest
    ∧ getIchimokuAt (validRows rows) (Z.of_nat (length (validRows rows)) - 1) = Some ich
    ∧ let fs1 := afterAlert fs (latestAlert (Some rows)) in
      let d := snapshotOf ticker (validRows rows) latest ich (ledger fs1) in
      run ticker toFixed2 (Some rows) fs
      = (Returned,
         {| historyFile := historyFile fs1; websiteFile := Some d |},
         (alertEvents ticker toFixed2 fs (latestAlert (Some rows)) (close latest)
          ++ [WriteWebsite d])%list).
Proof. exact (run_success rows fs). Qed.

(** X15. A run ends in [process.exit(1)] exactly when the fetch failed or
    when, with at least 80 valid rows, one of the last 40 carries an invalid
    date; in that case the website file is left as it was and no website
    write is attempted.  Every other run returns normally. *)
Theorem run_exit_code (response : option (list Bar)) (fs : Files) :
  ((run ticker toFixed2 response fs).1.1 = Exited 1
   ↔ response = None
     ∨ ∃ rows, response = Some rows
               ∧ 80 ≤ Z.of_nat (length (validRows rows))
               ∧ Exists invalidDate (sliceFrom (validRows rows) (-40)))
  ∧ ((run ticker toFixed2 response fs).1.1 = Exited 1 →
     websiteFile (run ticker toFixed2 response fs).1.2 = websiteFile fs
     ∧ ∀ d, WriteWebsite d ∉ (run ticker toFixed2 response fs).2)
  ∧ ((run ticker toFixed2 response fs).1.1 = Exited 1
     ∨ (run ticker toFixed2 response fs).1.1 = Returned).
Proof.
  destruct response as [rows|].
  2: { split; [split; [by left|done]|]. split; [|by left].
       intros _. split; [done|]. intros d Hd. by apply elem_of_nil in Hd. }
  destruct (Z.lt_ge_cases (Z.of_nat (length (validRows rows))) 80) as [Hshort|Hlen].
  { assert (Hrun : run ticker toFixed2 (Some rows) fs = (Returned, fs, [])).
    { unfold run, runBody, fetchHistoricalData. fold (validRows rows).
      erewrite bind_ok by reflexivity.
      by destruct (Z.ltb_spec (Z.of_nat (length (validRows rows))) 80); [|lia]. }
    rewrite Hrun. simpl. split; [|split; [done|by right]].
    split; [done|]. intros [[=]|(rows' & [= <-] & ? & _)]. lia. }
  destruct (window_dates (sliceFrom (validRows rows) (-40))) as [Hwin|Hwin].
  - destruct (run_success rows fs Hlen Hwin) as (latest & ich & _ & _ & Hrun).
    simpl in Hrun. rewrite Hrun. simpl. split; [|split; [done|by right]].
    split; [done|]. intros [[=]|(rows' & [= <-] & _ & Hex)].
    by destruct (window_dates_excl _ Hwin Hex).
  - destruct (run_invalid_window rows fs Hlen Hwin) as [price Hrun].
    rewrite Hrun. simpl. split; [|split; [|by left]].
    + split; [|done]. intros _. right. by exists rows.
    + intros _. split; [by apply afterAlert_website|].
      intros d. apply alertEvents_no_website.
Qed.

(** Whatever a run writes to the website file is the snapshot of its rows. *)
Lemma run_website_inv (response : option (list Bar)) (fs : Files) (d : WebsiteData) :
  WriteWebsite d ∈ (run ticker toFixed2 response fs).2 →
  ∃ rows latest ich,
    response = Some rows
    ∧ 80 ≤ Z.of_nat (length (validRows rows))
    ∧ Forall validDate (sliceFrom (validRows rows) (-40))
    ∧ at_index (validRows rows) (Z.of_nat (length (validRows rows)) - 1) = Some latest
    ∧ getIchimokuAt (validRows rows) (Z.of_nat (length (validRows rows)) - 1) = Some ich
    ∧ d = snapshotOf ticker (validRows rows) latest ich
            (ledger (afterAlert fs (latestAlert response)))
    ∧ run ticker toFixed2 response fs
      = (Returned,
         {| historyFile := historyFile (afterAlert fs (latestAlert response));
            websiteFile := Some d |},
         (alertEvents ticker toFixed2 fs (latestAlert response) (close latest)
          ++ [WriteWebsite d])%list).
Proof.
  destruct response as [rows|]; [|by intros Hd; apply elem_of_nil in Hd].
  destruct (Z.lt_ge_cases (Z.of_nat (length (validRows rows))) 80) as [Hshort|Hlen].
  { assert (Hrun : run ticker toFixed2 (Some rows) fs = (Returned, fs, [])).
    { unfold run, runBody, fetchHistoricalData. fold (validRows rows).
      erewrite bind_ok by reflexivity.
      by destruct (Z.ltb_spec (Z.of_nat (length (validRows rows))) 80); [|lia]. }
    rewrite Hrun. by intros Hd; apply elem_of_nil in Hd. }
  destruct (window_dates (sliceFrom (validRows rows) (-40))) as [Hwin|Hwin].
  - destruct (run_success rows fs Hlen Hwin) as (latest & ich & Hlatest & Hich & Hrun).
    simpl in Hrun. rewrite Hrun. simpl. intros Hd.
    apply elem_of_app in Hd as [Hd|Hd]; [by apply alertEvents_no_website in Hd|].
    apply list_elem_of_singleton in Hd. injection Hd as ->.
    by exists rows, latest, ich.
  - destruct (run_invalid_window rows fs Hlen Hwin) as [price Hrun].
    rewrite Hrun. simpl. intros Hd. by apply alertEvents_no_website in Hd.
Qed.

(** X16. Whatever a run writes to the website file describes the last valid
    row: the configured ticker, that row's close as the price, its
    timestamp as the date, the signal evaluated on it (NEUTRAL for none)
    and the four components computed at the last index. *)
Theorem published_header (response : option (list Bar)) (fs : Files) (d : WebsiteData) :
  WriteWebsite d ∈ (run ticker toFixed2 response fs).2 →
  ∃ rows latest ich,
    response = Some rows
    ∧ last (validRows rows) = Some latest
    ∧ getIchimokuAt (validRows rows) (Z.of_nat (length (validRows rows)) - 1) = Some ich
    ∧ w_ticker d = ticker
    ∧ w_price d = close latest
    ∧ date latest = ValidDate (w_date d)
    ∧ w_signal d = signalOrNeutral (evalSignal (close latest) ich)
    ∧ ichimoku d = {| v_tenkan := tenkan ich; v_kijun := kijun ich;
                      senkouA := spanA ich; senkouB := spanB ich |}.
Proof.
  intros Hd.
  destruct (run_website_inv response fs d Hd)
    as (rows & latest & ich & -> & Hlen & Hwin & Hlatest & Hich & -> & _).
  exists rows, latest, ich. split; [done|].
  destruct (latest_defined (validRows rows) Hlen) as (latest' & ich' & Hlatest' & _ & Hin).
  assert (latest' = latest) as -> by congruence.
  assert (Hvalid : validDate latest) by (eapply Forall_forall in Hwin; eauto).
  destruct Hvalid as [iso Hiso].
  repeat split; try done.
  - rewrite last_lookup. unfold at_index in Hlatest.
    destruct (Z.ltb_spec (Z.of_nat (length (validRows rows)) - 1) 0); [lia|].
    rewrite <- Hlatest. f_equal. lia.
  - simpl. unfold isoOf. by rewrite Hiso.
Qed.

(** X17. The published history has exactly 40 entries, and its k-th entry
    is the entry of the valid row at index [length - 40 + k], with the
    indicators computed at that absolute index. *)
Theorem published_history (response : option (list Bar)) (fs : Files) (d : WebsiteData) :
  WriteWebsite d ∈ (run ticker toFixed2 response fs).2 →
  ∃ rows,
    response = Some rows
    ∧ length (history d) = 40%nat
    ∧ ∀ k : nat, (k < 40)%nat →
        ∃ bar,
          validRows rows !! (length (validRows rows) - 40 + k)%nat = Some bar
          ∧ history d !! k
            = Some (entryAt (validRows rows)
                      (Z.of_nat (length (validRows rows)) - 40 + Z.of_nat k) bar).
Proof.
  intros Hd.
  destruct (run_website_inv response fs d Hd)
    as (rows & latest & ich & -> & Hlen & Hwin & Hlatest & Hich & -> & _).
  exists rows. split; [done|]. simpl. rewrite sliceFrom_last40. split.
  - rewrite length_imap, length_drop. lia.
  - intros k Hk.
    destruct (lookup_lt_is_Some_2 (validRows rows)
                (length (validRows rows) - 40 + k)) as [bar Hbar]; [lia|].
    exists bar. split; [done|].
    by rewrite list_lookup_imap, lookup_drop, Hbar.
Qed.

Lemma latestAlert_unfold (rows : list Bar) (latest : Bar) (ich : Ichimoku) (iso : string) :
  80 ≤ Z.of_nat (length (validRows rows)) →
  at_index (validRows rows) (Z.of_nat (length (validRows rows)) - 1) = Some latest →
  getIchimokuAt (validRows rows) (Z.of_nat (length (validRows rows)) - 1) = Some ich →
  date latest = ValidDate iso →
  latestAlert (Some rows)
  = if nonEmpty (evalSignal (close latest) ich)
    then Some (evalSignal (close latest) ich, iso) else None.
Proof.
  intros Hlen Hlatest Hich Hiso. unfold latestAlert. fold (validRows rows).
  destruct (Z.ltb_spec (Z.of_nat (length (validRows rows))) 80); [lia|].
  by rewrite Hlatest, Hich, Hiso.
Qed.

(** X18. The published signal is NEUTRAL, BUY or SELL.  A run that publishes
    NEUTRAL does nothing but write the website file: no e-mail, and the
    history file is untouched.  A run that publishes BUY or SELL leaves
    that signal recorded for the published day, and the published signal
    history contains it. *)
Theorem published_signal (response : option (list Bar)) (fs : Files) (d : WebsiteData) :
  WriteWebsite d ∈ (run ticker toFixed2 response fs).2 →
  (w_signal d = "NEUTRAL"%string ∨ isAlertType (w_signal d))
  ∧ (w_signal d = "NEUTRAL"%string →
     (run ticker toFixed2 response fs).2 = [WriteWebsite d]
     ∧ historyFile (run ticker toFixed2 response fs).1.2 = historyFile fs)
  ∧ (isAlertType (w_signal d) →
     hasFired (run ticker toFixed2 response fs).1.2 (w_signal d) (dayOf (w_date d)) = true
     ∧ {| se_type := w_signal d; se_date := dayOf (w_date d) |} ∈ signalHistory d).
Proof.
  intros Hd.
  destruct (run_website_inv response fs d Hd)
    as (rows & latest & ich & -> & Hlen & Hwin & Hlatest & Hich & -> & Hrun).
  destruct (latest_defined (validRows rows) Hlen) as (latest' & ich' & Hlatest' & _ & Hin).
  assert (latest' = latest) as -> by congruence.
  assert (Hvalid : validDate latest) by (eapply Forall_forall in Hwin; eauto).
  destruct Hvalid as [iso Hiso].
  rewrite Hrun.
  rewrite (latestAlert_unfold rows latest ich iso Hlen Hlatest Hich Hiso).
  unfold snapshotOf, isoOf. rewrite Hiso.
  destruct (evalSignal_cases (close latest) ich)
    as [[_ ->]|[(_ & _ & ->)|(_ & _ & ->)]]; simpl.
  - split; [right; by left|]. split; [done|]. intros _.
    change ("BUY" ++ "-" ++ dayOf iso)%string with (historyKey "BUY" iso).
    assert (Hk : truthyAt (ledger (afterAlert fs (Some ("BUY"%string, iso))))
                   (historyKey "BUY" iso) = true).
    { simpl. destruct (truthyAt (ledger fs) (historyKey "BUY" iso)) eqn:Hk; [done|].
      apply truthyAt_insert. }
    split; [exact Hk|].
    apply elem_of_signalsArray. exists (historyKey "BUY" iso).
    split; [by apply truthyAt_is_Some|].
    symmetry. apply parseKey_historyKey. by left.
  - split; [right; by right|]. split; [done|]. intros _.
    change ("SELL" ++ "-" ++ dayOf iso)%string with (historyKey "SELL" iso).
    assert (Hk : truthyAt (ledger (afterAlert fs (Some ("SELL"%string, iso))))
                   (historyKey "SELL" iso) = true).
    { simpl. destruct (truthyAt (ledger fs) (historyKey "SELL" iso)) eqn:Hk; [done|].
      apply truthyAt_insert. }
    split; [exact Hk|].
    apply elem_of_signalsArray. exists (historyKey "SELL" iso).
    split; [by apply truthyAt_is_Some|].
    symmetry. apply parseKey_historyKey. by right.
  - split; [by left|]. split; [done|]. intros [[=]|[=]].
Qed.

End Outcome.

Lemma buySeries_window_valid :
  Forall validDate (sliceFrom (validRows buySeries) (-40)).
Proof.
  apply Forall_forall. intros d Hd.
  assert (Hall : Forall validDate buySeries).
  { unfold buySeries. apply Forall_app. split; apply Forall_replicate; by eexists. }
  assert (Hsub : d ∈ buySeries).
  { unfold sliceFrom, slice, validRows in Hd.
    apply subseteq_take, subseteq_drop in Hd.
    by apply list_elem_of_filter in Hd as [_ Hd]. }
  by eapply Forall_forall in Hall.
Qed.

Lemma buySeries_publishes :
  ∃ d, last (run "GLD" plainFixed (Some buySeries) noFiles).2 = Some (WriteWebsite d).
Proof. vm_compute. eexists. reflexivity. Qed.

Lemma last_elem_of {A : Type} (l : list A) (x : A) : last l = Some x → x ∈ l.
Proof. rewrite last_lookup. apply list_elem_of_lookup_2. Qed.

Lemma run_publishes_witness :
  ∃ latest ich,
    at_index (validRows buySeries) (Z.of_nat (length (validRows buySeries)) - 1)
    = Some latest
    ∧ getIchimokuAt (validRows buySeries)
        (Z.of_nat (length (validRows buySeries)) - 1) = Some ich
    ∧ let fs1 := afterAlert noFiles (latestAlert (Some buySeries)) in
      let d := snapshotOf "GLD" (validRows buySeries) latest ich (ledger fs1) in
      run "GLD" plainFixed (Some buySeries) noFiles
      = (Returned,
         {| historyFile := historyFile fs1; websiteFile := Some d |},
         (alertEvents "GLD" plainFixed noFiles (latestAlert (Some buySeries))
            (close latest)
          ++ [WriteWebsite d])%list).
Proof.
  apply run_publishes.
  - vm_compute. discriminate.
  - exact buySeries_window_valid.
Defined.

Lemma published_header_witness :
  ∃ d, WriteWebsite d ∈ (run "GLD" plainFixed (Some buySeries) noFiles).2
       ∧ w_ticker d = "GLD"%string
       ∧ w_signal d = "BUY"%string
       ∧ w_date d = day2.
Proof.
  destruct buySeries_publishes as [d Hd]. apply last_elem_of in Hd.
  exists d. split; [exact Hd|].
  destruct (published_header "GLD" plainFixed (Some buySeries) noFiles d Hd)
    as (rows & latest & ich & [= <-] & Hlast & Hich & Ht & _ & Hdate & Hs & _).
  split; [exact Ht|].
  vm_compute in Hlast. injection Hlast as <-.
  vm_compute in Hich. injection Hich as <-.
  split; [exact Hs|]. simpl in Hdate. by injection Hdate as <-.
Defined.

Lemma published_history_witness :
  ∃ d, WriteWebsite d ∈ (run "GLD" plainFixed (Some buySeries) noFiles).2
       ∧ length (history d) = 40%nat
       ∧ e_date <$> history d !! 39%nat = Some "2024-05-10"%string.
Proof.
  destruct buySeries_publishes as [d Hd]. apply last_elem_of in Hd.
  exists d. split; [exact Hd|].
  destruct (published_history "GLD" plainFixed (Some buySeries) noFiles d Hd)
    as (rows & [= <-] & Hlen & Hk).
  split; [exact Hlen|].
  destruct (Hk 39%nat ltac:(lia)) as (bar & Hbar & ->).
  vm_compute in Hbar. injection Hbar as <-. reflexivity.
Defined.

Lemma published_signal_witness :
  ∃ d, WriteWebsite d ∈ (run "GLD" plainFixed (Some buySeries) noFiles).2
       ∧ (isAlertType (w_signal d) →
          hasFired (run "GLD" plainFixed (Some buySeries) noFiles).1.2
            (w_signal d) (dayOf (w_date d)) = true
          ∧ {| se_type := w_signal d; se_date := dayOf (w_date d) |}
            ∈ signalHistory d).
Proof.
  destruct buySeries_publishes as [d Hd]. apply last_elem_of in Hd.
  exists d. split; [exact Hd|].
  exact (proj2 (proj2 (published_signal "GLD" plainFixed (Some buySeries) noFiles d Hd))).
Defined.

(* ===================================================================== *)
(** ** Parsing the response *)
(* ===================================================================== *)

Section Trim.

Lemma trimStart_blank (a s : string) :
  blank a = true → trimStart (a ++ s) = trimStart s.
Proof.
  induction a as [|c a IH]; simpl; [done|].
  intros H. apply andb_true_iff in H as [Hc Ha]. rewrite Hc. by apply IH.
Qed.

Lemma trimEnd_blank (b : string) : blank b = true → trimEnd b = EmptyString.
Proof.
  induction b as [|c b IH]; simpl; [done|].
  intros H. apply andb_true_iff in H as [Hc Hb]. by rewrite (IH Hb), Hc.
Qed.

Lemma trimEnd_app_blank (s b : string) :
  blank b = true → trimEnd (s ++ b) = trimEnd s.
Proof.
  intros Hb. induction s as [|c s IH]; simpl; [by apply trimEnd_blank|].
  by rewrite IH.
Qed.

Lemma trimStart_app_blank (s b : string) :
  blank b = true → trimEnd (trimStart (s ++ b)) = trimEnd (trimStart s).
Proof.
  intros Hb. induction s as [|c s IH]; simpl.
  - clear -Hb. induction b as [|c b IH]; simpl in *; [done|].
    apply andb_true_iff in Hb as [Hc Hb]. rewrite Hc. by apply IH.
  - destruct (isWhiteSpace c); [done|].
    change (String c (s ++ b)) with (String c s ++ b)%string.
    by apply trimEnd_app_blank.
Qed.

Lemma trim_blank (a s b : string) :
  blank a = true → blank b = true → trim (a ++ s ++ b) = trim s.
Proof.
  intros Ha Hb. unfold trim. rewrite trimStart_blank by done.
  by apply trimStart_app_blank.
Qed.

Lemma trimEnd_lastChar (s : string) :
  trimEnd s = EmptyString
  ∨ ∃ c, lastChar (trimEnd s) = Some c ∧ isWhiteSpace c = false.
Proof.
  induction s as [|c s IH]; simpl; [by left|].
  destruct (trimEnd s) as [|c' t] eqn:Ht.
  - destruct (isWhiteSpace c) eqn:Hc; [by left|]. right. by exists c.
  - right. destruct IH as [?|(x & Hx & Hw)]; [done|]. exists x. split; [|done].
    simpl in *. done.
Qed.

Lemma trimStart_firstChar (s : string) :
  trimStart s = EmptyString
  ∨ ∃ c, firstChar (trimStart s) = Some c ∧ isWhiteSpace c = false.
Proof.
  induction s as [|c s IH]; simpl; [by left|].
  destruct (isWhiteSpace c) eqn:Hc; [done|]. right. by exists c.
Qed.

Lemma trimEnd_firstChar (s : string) (c : ascii) :
  firstChar s = Some c → isWhiteSpace c = false → firstChar (trimEnd s) = Some c.
Proof.
  destruct s as [|c' s]; simpl; [done|]. intros [= ->] Hc.
  destruct (trimEnd s); [by rewrite Hc|done].
Qed.

Lemma trim_ends (s : string) :
  trim s = EmptyString
  ∨ ∃ c c', firstChar (trim s) = Some c ∧ isWhiteSpace c = false
            ∧ lastChar (trim s) = Some c' ∧ isWhiteSpace c' = false.
Proof.
  unfold trim.
  destruct (trimEnd_lastChar (trimStart s)) as [?|(c' & Hl & Hc')]; [by left|].
  right. destruct (trimStart_firstChar s) as [H|(c & Hf & Hc)].
  - rewrite H in Hl. done.
  - exists c, c'. split; [by apply trimEnd_firstChar|done].
Qed.

Lemma lacks_trimStart (c : ascii) (s : string) :
  lacks c s = true → lacks c (trimStart s) = true.
Proof.
  induction s as [|x s IH]; simpl; [done|]. intros H.
  destruct (isWhiteSpace x); [|done].
  apply andb_true_iff in H as [_ H]. by apply IH.
Qed.

Lemma lacks_trimEnd (c : ascii) (s : string) :
  lacks c s = true → lacks c (trimEnd s) = true.
Proof.
  induction s as [|x s IH]; simpl; [done|]. intros H.
  apply andb_true_iff in H as [Hx H]. specialize (IH H).
  destruct (trimEnd s) as [|y t].
  - destruct (isWhiteSpace x); [done|]. simpl. by rewrite Hx.
  - simpl in *. by rewrite Hx, IH.
Qed.

Lemma lacks_trim (c : ascii) (s : string) :
  lacks c s = true → lacks c (trim s) = true.
Proof. intros H. by apply lacks_trimEnd, lacks_trimStart. Qed.

End Trim.

Section Lines.

Lemma split_length (sep : ascii) (s : string) :
  length (Str.split sep s) = S (count sep s).
Proof.
  induction s as [|c s IH]; simpl; [done|].
  destruct (Ascii.eqb c sep); simpl; [by rewrite IH|].
  destruct (Str.split sep s); simpl in *; lia.
Qed.

Lemma split_all_lack (sep : ascii) (s p : string) :
  p ∈ Str.split sep s → lacks sep p = true.
Proof.
  revert p. induction s as [|c s IH]; intros p; simpl.
  - intros H. apply list_elem_of_singleton in H. by subst.
  - destruct (Ascii.eqb c sep) eqn:Hc.
    + intros H. apply elem_of_cons in H as [->|H]; [done|by apply IH].
    + destruct (Str.split sep s) as [|q qs].
      * intros H. apply list_elem_of_singleton in H. subst. simpl. by rewrite Hc.
      * intros H. apply elem_of_cons in H as [->|H].
        -- simpl. rewrite Hc. simpl. apply IH. by left.
        -- apply IH. by right.
Qed.

Lemma sliceFrom_tail {A : Type} (l : list A) : sliceFrom l 1 = drop 1 l.
Proof.
  unfold sliceFrom, slice, relIndex.
  destruct (Z.ltb_spec 1 0); [lia|].
  destruct (Z.ltb_spec (Z.of_nat (length l)) 0); [lia|].
  rewrite Z.min_id. destruct l as [|x l]; [done|].
  assert (Z.min 1 (Z.of_nat (length (x :: l))) = 1) as -> by (cbn [length]; lia).
  change (Z.to_nat 1) with 1%nat. simpl drop.
  apply take_ge. rewrite drop_0. cbn [length]. lia.
Qed.

End Lines.

Section Fetch.

Variable ticker : string.
Variable toFixed2 : number → string.
Variable parseFloat : string → number.
Variable newDate : string → JsDate.

Lemma parseCsv_length (csv : string) :
  length (parseCsv parseFloat newDate csv) = count lineFeed (trim csv).
Proof.
  unfold parseCsv. rewrite length_fmap, sliceFrom_tail, length_drop, split_length.
  lia.
Qed.

Lemma parseLine_short (line : string) :
  (count comma line < 4)%nat → validRow (parseLine parseFloat newDate line) = false.
Proof.
  intros H. unfold validRow, parseLine. simpl.
  assert (Hnone : Str.split comma line !! 4%nat = None).
  { apply lookup_ge_None. rewrite split_length. lia. }
  rewrite Hnone. simpl. by rewrite !andb_false_r.
Qed.

(** X19. Every bar that [fetchHistoricalData] returns comes from a line
    after the header line of the trimmed body; that line has at least five
    comma-separated fields, and the four prices of the bar are not NaN.
    There are at most as many bars as line feeds in the trimmed body, and
    the call neither throws nor touches a file. *)
Theorem fetchHistoricalData_rows (csv : string) (fs : Files) :
  ∃ data,
    fetchHistoricalData (parsedResponse parseFloat newDate (Some csv)) fs
    = (Ok data, fs, [])
    ∧ (length data ≤ count lineFeed (trim csv))%nat
    ∧ ∀ d, d ∈ data →
        validRow d = true
        ∧ ∃ (i : nat) (line : string),
            Str.split lineFeed (trim csv) !! S i = Some line
            ∧ d = parseLine parseFloat newDate line
            ∧ (4 ≤ count comma line)%nat
            ∧ lacks lineFeed line = true.
Proof.
  eexists. split; [reflexivity|]. split.
  - etransitivity; [apply length_filter|]. by rewrite parseCsv_length.
  - intros d Hd. apply list_elem_of_filter in Hd as [Hv Hd]. split; [done|].
    unfold parseCsv in Hd. rewrite sliceFrom_tail in Hd.
    apply list_elem_of_fmap in Hd as (line & -> & Hline).
    apply list_elem_of_lookup in Hline as [i Hi]. rewrite lookup_drop in Hi.
    exists i, line. split; [done|]. split; [done|]. split.
    + destruct (le_lt_dec 4 (count comma line)) as [?|Hlt]; [done|].
      rewrite parseLine_short in Hv by lia. done.
    + eapply split_all_lack. by eapply list_elem_of_lookup_2.
Qed.

(** X20. A response body with fewer than 80 line feeds after trimming, such
    as an empty body or a header alone, makes the run return normally
    without an e-mail or a write. *)
Theorem run_short_response (csv : string) (fs : Files) :
  (count lineFeed (trim csv) < 80)%nat →
  run ticker toFixed2 (parsedResponse parseFloat newDate (Some csv)) fs
  = (Returned, fs, []).
Proof.
  intros H. unfold run, runBody, parsedResponse. simpl.
  erewrite bind_ok by reflexivity.
  pose proof (length_filter (λ d, validRow d = true) (parseCsv parseFloat newDate csv)) as Hf.
  rewrite parseCsv_length in Hf.
  by destruct (Z.ltb_spec
    (Z.of_nat (length (filter (λ d, validRow d = true) (parseCsv parseFloat newDate csv))))
    80); [|lia].
Qed.

(** X21. White space around the response body, such as the line feed that
    ends the last row, adds no row: the parsed rows are those of the body
    without it. *)
Theorem parseCsv_surrounding_space (a csv b : string) :
  blank a = true → blank b = true →
  parseCsv parseFloat newDate (a ++ csv ++ b) = parseCsv parseFloat newDate csv.
Proof. intros Ha Hb. unfold parseCsv. by rewrite trim_blank. Qed.

End Fetch.

Lemma run_short_response_witness :
  run "GLD" plainFixed
    (parsedResponse parseDigits ValidDate (Some "Date,Open,High,Low,Close,Volume"%string))
    noFiles
  = (Returned, noFiles, []).
Proof. apply run_short_response. vm_compute. lia. Defined.

Lemma parseCsv_surrounding_space_witness :
  parseCsv parseDigits ValidDate
    (EmptyString ++ "Date,Open,High,Low,Close,Volume" ++ String lineFeed EmptyString)
  = parseCsv parseDigits ValidDate "Date,Open,High,Low,Close,Volume".
Proof. by apply parseCsv_surrounding_space. Defined.

(* ===================================================================== *)
(** ** The messages of a delivery *)
(* ===================================================================== *)

Section Messages.

Variable sendMail : nat → Mail → Result string.

Lemma lacks_app (c : ascii) (s t : string) :
  lacks c (s ++ t) = lacks c s && lacks c t.
Proof.
  induction s as [|x s IH]; simpl; [done|]. by rewrite IH, andb_assoc.
Qed.

Lemma replaceAll_lacks (c : ascii) (by_ s : string) :
  lacks c by_ = true → lacks c (replaceAll c by_ s) = true.
Proof.
  intros Hby. induction s as [|x s IH]; simpl; [done|].
  destruct (Ascii.eqb x c) eqn:Hx.
  - by rewrite lacks_app, Hby, IH.
  - simpl. by rewrite Hx, IH.
Qed.

Lemma htmlOf_lacks (body : string) : lacks lineFeed (htmlOf body) = true.
Proof.
  unfold htmlOf. rewrite !lacks_app, replaceAll_lacks by done. done.
Qed.

Lemma sendLoop_to (user subject body : string) (recipients : list string) (n : nat) :
  mail_to ∘ mailOf <$> sendLoop sendMail user subject body recipients n
  = filter (λ r, nonEmpty r = true) recipients.
Proof.
  revert n. induction recipients as [|r rest IH]; intros n; simpl; [done|].
  destruct (nonEmpty r) eqn:Hr; simpl.
  - rewrite filter_cons_True by done.
    destruct (sendMail n _); simpl; by rewrite IH.
  - rewrite filter_cons_False by (by rewrite Hr). apply IH.
Qed.

Lemma sendLoop_mail (user subject body : string) (recipients : list string) (n : nat) :
  Forall (λ a, mail_from (mailOf a) = sender user
               ∧ mail_subject (mailOf a) = subject
               ∧ mail_text (mailOf a) = body
               ∧ mail_html (mailOf a) = htmlOf body)
         (sendLoop sendMail user subject body recipients n).
Proof.
  revert n. induction recipients as [|r rest IH]; intros n; simpl; [by apply Forall_nil_2|].
  destruct (nonEmpty r); simpl; [|apply IH].
  destruct (sendMail n _); apply Forall_cons; (split; [done|apply IH]).
Qed.

(** X22. Every message that [sendEmail] hands to the transport goes to one
    recipient: its address is not empty, contains no comma, has no white
    space at either end and is the trimmed form of one of the
    comma-separated pieces of the configured list.  The message carries the
    subject and the body it was called with, its sender names the
    configured user, and its HTML part contains no line feed. *)
Theorem deliveries_individual (cfg : SmtpConfig) (subject body : string) :
  Forall (λ a,
    let m := mailOf a in
    mail_to m ≠ EmptyString
    ∧ lacks comma (mail_to m) = true
    ∧ (∃ c c', firstChar (mail_to m) = Some c ∧ isWhiteSpace c = false
               ∧ lastChar (mail_to m) = Some c' ∧ isWhiteSpace c' = false)
    ∧ (∃ piece, piece ∈ Str.split comma (cfg_recipient cfg) ∧ mail_to m = trim piece)
    ∧ (∃ user, cfg_user cfg = Some user ∧ mail_from m = sender user)
    ∧ mail_subject m = subject
    ∧ mail_text m = body
    ∧ lacks lineFeed (mail_html m) = true)
  (deliveries sendMail cfg subject body).
Proof.
  unfold deliveries.
  destruct (truthyString (cfg_user cfg)) eqn:Hu; simpl; [|by apply Forall_nil_2].
  destruct (truthyString (cfg_pass cfg)) eqn:Hp; simpl; [|by apply Forall_nil_2].
  destruct (cfg_user cfg) as [user|] eqn:Huser; [|done]. simpl.
  set (recipients := trim <$> Str.split comma (cfg_recipient cfg)).
  pose proof (sendLoop_to user subject body recipients 0) as Hto.
  pose proof (sendLoop_mail user subject body recipients 0) as Hmail.
  apply Forall_forall. intros a Ha.
  eapply Forall_forall in Hmail as (Hfrom & Hsubj & Htext & Hhtml); [|exact Ha].
  assert (Hin : mail_to (mailOf a) ∈ filter (λ r, nonEmpty r = true) recipients).
  { rewrite <- Hto. apply list_elem_of_fmap. by exists a. }
  apply list_elem_of_filter in Hin as [Hne Hin].
  apply list_elem_of_fmap in Hin as (piece & Hpiece & Hin).
  cbv zeta. split; [by destruct (mail_to (mailOf a))|].
  split; [rewrite Hpiece; by eapply lacks_trim, split_all_lack|].
  split.
  { rewrite Hpiece in *. destruct (trim_ends piece) as [Hnil|H]; [|done].
    by rewrite Hnil in Hne. }
  split; [by exists piece|]. split; [by exists user|].
  split; [done|]. split; [done|]. rewrite Hhtml. apply htmlOf_lacks.
Qed.

(** X23. Without SMTP user or password [sendEmail] makes no attempt.  With
    both, it makes one attempt for each non-empty trimmed piece of the
    recipient list, in the order of the list and whatever the transport
    answers: a failed delivery does not stop the later ones.  There are at
    most as many attempts as commas in the list, plus one. *)
Theorem deliveries_recipients (cfg : SmtpConfig) (subject body : string) :
  (truthyString (cfg_user cfg) && truthyString (cfg_pass cfg) = false →
   deliveries sendMail cfg subject body = [])
  ∧ (truthyString (cfg_user cfg) && truthyString (cfg_pass cfg) = true →
     mail_to ∘ mailOf <$> deliveries sendMail cfg subject body
     = filter (λ r, nonEmpty r = true) (trim <$> Str.split comma (cfg_recipient cfg)))
  ∧ (length (deliveries sendMail cfg subject body)
     ≤ S (count comma (cfg_recipient cfg)))%nat.
Proof.
  unfold deliveries.
  destruct (truthyString (cfg_user cfg)) eqn:Hu; simpl;
    [|split; [done|split; [done|lia]]].
  destruct (truthyString (cfg_pass cfg)) eqn:Hp; simpl;
    [|split; [done|split; [done|lia]]].
  split; [done|]. split; [intros _; apply sendLoop_to|].
  rewrite <- (length_fmap (mail_to ∘ mailOf)), sendLoop_to.
  etransitivity; [apply length_filter|].
  by rewrite length_fmap, split_length.
Qed.

End Messages.

(* ===================================================================== *)
(** ** Replies of the trigger endpoint *)
(* ===================================================================== *)

Section TriggerReplies.

Import Trigger.

(** X24. The trigger endpoint reports success exactly when the token is
    configured and GitHub answered the dispatch with a status from 200 to
    299: only then is the reply's status 200, or in the range of 200 to
    299 at all, and only then is [success] true.  Without a token no
    request is sent; with one, exactly one request is sent, and it
    carries the token as a bearer authorisation. *)
Theorem handler_success (GITHUB_TOKEN : option string)
    (fetch : Request → Result Response) :
  let reply := (handler GITHUB_TOKEN fetch).1 in
  let sent := (handler GITHUB_TOKEN fetch).2 in
  let accepted :=
    ∃ token res, GITHUB_TOKEN = Some token ∧ token ≠ EmptyString
                 ∧ fetch (dispatch token) = Ok res ∧ res_ok res = true in
  (status reply = 200 ↔ accepted)
  ∧ (200 ≤ status reply ≤ 299 ↔ accepted)
  ∧ (success reply = Some true ↔ accepted)
  ∧ (sent = [] ↔ GITHUB_TOKEN = None ∨ GITHUB_TOKEN = Some EmptyString)
  ∧ (∀ req, req ∈ sent →
       sent = [req]
       ∧ ∃ token, GITHUB_TOKEN = Some token
                  ∧ req_authorization req = ("Bearer " ++ token)%string
                  ∧ req_method req = "POST"%string).
Proof.
  cbv zeta.
  set (accepted := ∃ token res, GITHUB_TOKEN = Some token ∧ token ≠ EmptyString
                     ∧ fetch (dispatch token) = Ok res ∧ res_ok res = true).
  assert (Hsent : ∀ c t (l : list Request) req,
            GITHUB_TOKEN = Some (String c t) → l = [dispatch (String c t)] → req ∈ l →
            l = [req]
            ∧ ∃ token, GITHUB_TOKEN = Some token
                       ∧ req_authorization req = ("Bearer " ++ token)%string
                       ∧ req_method req = "POST"%string).
  { intros c t l req Htok -> Hin. apply list_elem_of_singleton in Hin as ->.
    split; [done|]. by exists (String c t). }
  destruct (handler GITHUB_TOKEN fetch) as [reply sent] eqn:Hh. simpl.
  unfold handler in Hh.
  destruct GITHUB_TOKEN as [[|c t]|] eqn:Htok.
  - (* the token is the empty string *)
    injection Hh as <- <-. simpl.
    assert (Hno : ¬ accepted) by (by intros (token & res & [= <-] & Hne & _)).
    split; [split; [discriminate|done]|].
    split; [split; [lia|done]|].
    split; [split; [discriminate|done]|].
    split; [split; [by right|done]|].
    intros req Hin. by apply elem_of_nil in Hin.
  - destruct (fetch (dispatch (String c t))) as [res|msg] eqn:Hf.
    + destruct (res_ok res) eqn:Hok.
      * (* GitHub accepted the dispatch *)
        injection Hh as <- <-. simpl.
        assert (Hyes : accepted) by (by exists (String c t), res).
        split; [done|]. split; [split; [done|lia]|]. split; [done|].
        split; [split; [discriminate|by intros [?|?]]|].
        intros req Hin. by eapply Hsent.
      * (* GitHub refused it *)
        assert (Hno : ¬ accepted).
        { intros (token & res0 & [= <-] & _ & Hf' & Hok'). congruence. }
        assert (Hst : ¬ 200 ≤ res_status res ≤ 299).
        { unfold res_ok in Hok. apply andb_false_iff in Hok as [H|H];
            apply Z.leb_gt in H; lia. }
        destruct (res_text res) as [txt|msg]; injection Hh as <- <-; simpl.
        -- split; [split; [lia|done]|]. split; [split; [lia|done]|].
           split; [split; [discriminate|done]|].
           split; [split; [discriminate|by intros [?|?]]|].
           intros req Hin. by eapply Hsent.
        -- split; [split; [discriminate|done]|]. split; [split; [lia|done]|].
           split; [split; [discriminate|done]|].
           split; [split; [discriminate|by intros [?|?]]|].
           intros req Hin. by eapply Hsent.
    + (* the request failed *)
      injection Hh as <- <-. simpl.
      assert (Hno : ¬ accepted).
      { intros (token & res0 & [= <-] & _ & Hf' & _). congruence. }
      split; [split; [discriminate|done]|]. split; [split; [lia|done]|].
      split; [split; [discriminate|done]|].
      split; [split; [discriminate|by intros [?|?]]|].
      intros req Hin. by eapply Hsent.
  - (* no token *)
    injection Hh as <- <-. simpl.
    assert (Hno : ¬ accepted) by (by intros (token & res & [=] & _)).
    split; [split; [discriminate|done]|].
    split; [split; [lia|done]|].
    split; [split; [discriminate|done]|].
    split; [split; [by left|done]|].
    intros req Hin. by apply elem_of_nil in Hin.
Qed.

End TriggerReplies.

(* ===================================================================== *)
(** ** The cloud band of the dashboard *)
(* ===================================================================== *)

Section CloudBand.

Import Dashboard.

Lemma orZero_not_NaN (v : option number) : Num.isNaN (orZero v) = false.
Proof. by destruct v as [[| | |]|]. Qed.

(** X25. In every chart row the cloud band is well formed: its two edges are
    numbers, the lower edge is not above the upper one, and a span that is
    null, zero or NaN counts as 0.  So when both spans of the entry are
    null the band lies at 0, and when one is null and the other is
    positive the band reaches from 0 up to it. *)
Theorem chartRow_cloud (history : list Day) (signalHistory : list SignalEvent)
    (day : Day) (idx : nat) :
  let row := chartRow history signalHistory day idx in
  Num.isNaN (cloudMin row) = false
  ∧ Num.isNaN (cloudMax row) = false
  ∧ Num.lt (cloudMax row) (cloudMin row) = false
  ∧ (j_spanA day = None → j_spanB day = None →
     cloudMin row = zero ∧ cloudMax row = zero)
  ∧ (∀ x, (j_spanA day = None ∧ j_spanB day = Some x
           ∨ j_spanA day = Some x ∧ j_spanB day = None) →
          Num.lt zero x = true →
          cloudMin row = zero ∧ cloudMax row = x).
Proof.
  cbv zeta. simpl.
  set (a := orZero (j_spanA day)). set (b := orZero (j_spanB day)).
  pose proof (orZero_not_NaN (j_spanA day)) as Ha.
  pose proof (orZero_not_NaN (j_spanB day)) as Hb. fold a in Ha. fold b in Hb.
  destruct (rank_Math_min a b Ha Hb) as (Hn & Hr & Hna & Hnb).
  destruct (rank_Math_max a b Ha Hb) as (Hn' & Hr' & Hna' & Hnb').
  split; [done|]. split; [done|]. split.
  { apply not_lt_rank; [done|done|]. unfold rank_lt in *.
    destruct Hr as [Hr|Hr], Hr' as [Hr'|Hr']; rewrite Hr, Hr' in *;
      destruct (rank a) as [[a1 a2] a3], (rank b) as [[b1 b2] b3]; simpl in *; lia. }
  split.
  { intros HA HB. subst a b. by rewrite HA, HB. }
  intros x Hx Hpos. subst a b.
  assert (Htr : Num.truthy x = true).
  { apply lt_rank in Hpos as (_ & Hxn & Hlt).
    destruct x as [s|[]| |[] m e]; try done; unfold rank_lt in Hlt; simpl in Hlt; lia. }
  assert (Hxz : ∀ s, x ≠ S754_zero s) by (intros s ->; done).
  destruct Hx as [[HA HB]|[HA HB]]; rewrite HA, HB; simpl; rewrite Htr.
  - destruct x as [s|[]| |[] m e]; try done.
  - destruct x as [s|[]| |[] m e]; try done.
Qed.

Variable ticker : string.
Variable toFixed2 : number → string.

(** X26. When a run publishes a series whose bar at chart position [k] has
    an absolute index below 77, the dashboard has no indicator for that
    chart row and draws its cloud band at 0.  The chart has 40 rows. *)
Theorem chartRows_early (response : option (list Bar)) (fs : Files) (d : WebsiteData) :
  WriteWebsite d ∈ (run ticker toFixed2 response fs).2 →
  ∃ rows,
    response = Some rows
    ∧ length (chartRows d) = 40%nat
    ∧ ∀ (k : nat) (row : ChartRow),
        chartRows d !! k = Some row →
        Z.of_nat (length (validRows rows)) - 40 + Z.of_nat k < 77 →
        c_tenkan row = None ∧ c_kijun row = None
        ∧ c_spanA row = None ∧ c_spanB row = None
        ∧ cloudMin row = zero ∧ cloudMax row = zero.
Proof.
  intros Hd.
  destruct (run_website_inv ticker toFixed2 response fs d Hd)
    as (rows & latest & ich & -> & Hlen & _ & _ & _ & -> & _).
  exists rows. split; [done|].
  unfold chartRows. simpl. rewrite sliceFrom_last40. split.
  { rewrite length_imap, length_fmap, length_imap, length_drop. lia. }
  intros k row Hrow Hk.
  rewrite list_lookup_imap, list_lookup_fmap, list_lookup_imap in Hrow.
  destruct (drop (length (validRows rows) - 40) (validRows rows) !! k) as [bar|];
    [|done].
  simpl in Hrow. injection Hrow as <-. simpl.
  assert (Hnone : getIchimokuAt (validRows rows)
                    (Z.of_nat (length (validRows rows)) - 40 + Z.of_nat k) = None).
  { unfold getIchimokuAt.
    by destruct (Z.ltb_spec (Z.of_nat (length (validRows rows)) - 40 + Z.of_nat k)
                   (52 + 25)); [|lia]. }
  by rewrite Hnone.
Qed.

End CloudBand.

Lemma chartRows_early_witness :
  ∃ d, WriteWebsite d ∈ (run "GLD" plainFixed (Some buySeries) noFiles).2
       ∧ length (Dashboard.chartRows d) = 40%nat
       ∧ Dashboard.cloudMax <$> Dashboard.chartRows d !! 0%nat = Some Dashboard.zero.
Proof.
  destruct buySeries_publishes as [d Hd]. apply last_elem_of in Hd.
  exists d. split; [exact Hd|].
  destruct (chartRows_early "GLD" plainFixed (Some buySeries) noFiles d Hd)
    as (rows & [= <-] & Hlen & Hk).
  split; [exact Hlen|].
  destruct (Dashboard.chartRows d !! 0%nat) as [row|] eqn:Hrow.
  - destruct (Hk 0%nat row Hrow) as (_ & _ & _ & _ & _ & Hmax);
      [vm_compute; done|].
    simpl. by rewrite Hmax.
  - apply lookup_ge_None in Hrow. lia.
Defined.

(* ===================================================================== *)
(** ** The published signal history *)
(* ===================================================================== *)

Section Snapshot.

Variable ticker : string.
Variable toFixed2 : number → string.

Lemma recordAll_app (calls calls' : list (string * string)) (fs : Files) :
  recordAll (calls ++ calls') fs = recordAll calls' (recordAll calls fs).
Proof.
  revert fs. induction calls as [|[signal iso] calls IH]; intros fs; simpl; [done|].
  apply IH.
Qed.

(** The alert step of a run records what one call of [checkAlertHistory]
    for the run's alert records. *)
Lemma afterAlert_recordAll (fs : Files) (alert : option (string * string)) :
  ledger (afterAlert fs alert) = ledger (recordAll (option_list alert) fs).
Proof.
  destruct alert as [[signal iso]|]; simpl; [|done].
  rewrite checkAlertHistory_ledger.
  by destruct (truthyAt (ledger fs) (historyKey signal iso)).
Qed.

(** A run over enough rows publishes, and what it publishes carries the
    events parsed from the history as the run leaves it. *)
Lemma run_snapshot (rows : list Bar) (fs : Files) :
  80 ≤ Z.of_nat (length (validRows rows)) →
  Forall validDate (sliceFrom (validRows rows) (-40)) →
  ∃ d,
    (run ticker toFixed2 (Some rows) fs).1.1 = Returned
    ∧ websiteFile (run ticker toFixed2 (Some rows) fs).1.2 = Some d
    ∧ last (run ticker toFixed2 (Some rows) fs).2 = Some (WriteWebsite d)
    ∧ signalHistory d
      = signalsArray (ledger (run ticker toFixed2 (Some rows) fs).1.2).
Proof.
  intros Hlen Hwin.
  destruct (run_success ticker toFixed2 rows fs Hlen Hwin)
    as (latest & ich & _ & _ & Hrun).
  cbv zeta in Hrun. rewrite Hrun. simpl.
  eexists. split; [done|]. split; [done|]. split; [by rewrite last_snoc|].
  reflexivity.
Qed.

(** C6.  Parsing the key built from a type among BUY and SELL and a day
    gives back the type and the day, dashes in the day included; the key
    that [checkAlertHistory] builds from a timestamp parses to the type and
    the day of the timestamp, and a day string without ['T'] is its own
    day.  Hence the events parsed from a history filled by calls of
    [checkAlertHistory] are, as a set, the recorded events.  A run over at
    least 80 valid rows with valid dates in its window does publish a
    snapshot: it returns, its last effect is the write of the website
    data, and the [signalHistory] of that data is the list parsed from
    the history as the run leaves it, one event for every key.  End to
    end, on a history filled by calls of [checkAlertHistory], the
    published [signalHistory] is, as a set, the events of those calls
    together with the alert of the run itself.  Whatever a run writes to
    the website file carries the list parsed from the history as the run
    leaves it. *)
Theorem historyKey_roundtrip :
  (∀ T D, isAlertType T →
     parseKey (T ++ "-" ++ D) = {| se_type := T; se_date := D |})
  ∧ (∀ T iso, isAlertType T →
       parseKey (historyKey T iso) = {| se_type := T; se_date := dayOf iso |})
  ∧ (∀ D, lacks charT D = true → dayOf D = D)
  ∧ (∀ calls fs e,
       ledger fs = ∅ → Forall (λ c, isAlertType c.1) calls →
       e ∈ signalsArray (ledger (recordAll calls fs)) ↔ e ∈ eventOf <$> calls)
  ∧ (∀ rows fs,
       80 ≤ Z.of_nat (length (validRows rows)) →
       Forall validDate (sliceFrom (validRows rows) (-40)) →
       ∃ d,
         (run ticker toFixed2 (Some rows) fs).1.1 = Returned
         ∧ websiteFile (run ticker toFixed2 (Some rows) fs).1.2 = Some d
         ∧ last (run ticker toFixed2 (Some rows) fs).2 = Some (WriteWebsite d)
         ∧ signalHistory d
           = signalsArray (ledger (run ticker toFixed2 (Some rows) fs).1.2)
         ∧ ∀ e, e ∈ signalHistory d
                ↔ ∃ key,
                    is_Some (ledger (run ticker toFixed2 (Some rows) fs).1.2 !! key)
                    ∧ e = parseKey key)
  ∧ (∀ rows calls fs,
       ledger fs = ∅ → Forall (λ c, isAlertType c.1) calls →
       80 ≤ Z.of_nat (length (validRows rows)) →
       Forall validDate (sliceFrom (validRows rows) (-40)) →
       ∃ d,
         last (run ticker toFixed2 (Some rows) (recordAll calls fs)).2
         = Some (WriteWebsite d)
         ∧ ∀ e, e ∈ signalHistory d
                ↔ e ∈ eventOf <$> (calls ++ option_list (latestAlert (Some rows))))
  ∧ (∀ response fs d,
       WriteWebsite d ∈ (run ticker toFixed2 response fs).2 →
       signalHistory d
       = signalsArray (ledger (run ticker toFixed2 response fs).1.2)).
Proof.
  assert (Hempty : ∀ calls fs e,
            ledger fs = ∅ → Forall (λ c, isAlertType c.1) calls →
            e ∈ signalsArray (ledger (recordAll calls fs)) ↔ e ∈ eventOf <$> calls).
  { intros calls fs e Hfs Hcalls. rewrite (recordAll_events calls fs e Hcalls), Hfs.
    unfold signalsArray. rewrite map_to_list_empty, fmap_nil, elem_of_nil. tauto. }
  split; [apply parseKey_build|].
  split; [apply parseKey_historyKey|].
  split; [apply firstPart_lacks|].
  split; [exact Hempty|].
  split; [|split; [|apply run_signalHistory]].
  - intros rows fs Hlen Hwin.
    destruct (run_snapshot rows fs Hlen Hwin) as (d & Hret & Hfile & Hlast & Hsig).
    exists d. repeat (split; [done|]).
    intros e. rewrite Hsig. apply elem_of_signalsArray.
  - intros rows calls fs Hfs Hcalls Hlen Hwin.
    destruct (run_snapshot rows (recordAll calls fs) Hlen Hwin)
      as (d & _ & _ & Hlast & Hsig).
    exists d. split; [done|]. intros e.
    rewrite Hsig, (run_ledger ticker toFixed2), afterAlert_recordAll, <- recordAll_app.
    apply Hempty; [done|]. apply Forall_app. split; [done|].
    destruct (latestAlert (Some rows)) as [[S iso]|] eqn:Halert; simpl;
      [|by apply Forall_nil_2].
    apply Forall_cons. split; [|by apply Forall_nil_2].
    by eapply latestAlert_type.
Qed.

End Snapshot.

Lemma historyKey_roundtrip_witness :
  parseKey "SELL-2024-05-10" = {| se_type := "SELL"; se_date := "2024-05-10" |}
  ∧ ∃ d,
      last (run "GLD" plainFixed (Some buySeries)
              (recordAll [("SELL"%string, day1)] noFiles)).2
      = Some (WriteWebsite d)
      ∧ ∀ e, e ∈ signalHistory d
             ↔ e ∈ [ {| se_type := "SELL"; se_date := "2024-01-02" |};
                     {| se_type := "BUY"; se_date := "2024-05-10" |} ].
Proof.
  pose proof (historyKey_roundtrip "GLD" plainFixed)
    as (Hparse & _ & _ & _ & _ & Hrun & _).
  split; [apply (Hparse "SELL"%string "2024-05-10"%string); by right|].
  destruct (Hrun buySeries [("SELL"%string, day1)] noFiles) as (d & Hlast & He).
  - reflexivity.
  - apply Forall_cons. split; [by right|by apply Forall_nil_2].
  - vm_compute. discriminate.
  - exact buySeries_window_valid.
  - exists d. split; [exact Hlast|]. intros e. rewrite He.
    by replace (eventOf <$> [("SELL"%string, day1)] ++ option_list (latestAlert (Some buySeries)))
      with [ {| se_type := "SELL"; se_date := "2024-01-02" |};
             {| se_type := "BUY"; se_date := "2024-05-10" |} ]
      by (vm_compute; reflexivity).
Defined.
